(** * Wash-sale tracker: the lot model of [lots.py]

    A shallow embedding of [lots.py], which is Python 2 code: the [Lot]
    record with its loss test, equality and three comparators, and the
    [Lots] collection with its constructor, [add], equality and its CSV
    reader and writer.

    - Python integers are unbounded, so they are [Z]; a Python 2 [str]
      is a string of bytes, so it is [string]; [datetime.date] is the
      type [date] of the year, month and day triples its constructor
      accepts.
    - [Lots.__init__] writes into the Lot objects it is given, so Lot
      objects live in a store ([heap]) and a collection holds their
      names.
    - A call that may raise returns a [result].
    - The functions of the standard library the code calls ([int],
      [str], [strftime], [strptime], [csv.reader], [csv.writer],
      [csv.DictReader], [csv.DictWriter]) are embedded with the
      arguments the code gives them, character by character for the csv
      text.

    The definitions come first, the properties after them. *)

From Stdlib Require Import ZArith Lia Bool List String Ascii Eqdep_dec.
From Stdlib Require Import DecimalString DecimalPos DecimalZ.
From stdpp Require Import base option list gmap strings.
From Equations Require Import Equations.

Local Open Scope Z_scope.

(* ===================================================================== *)
(** * datetime.date                                                       *)
(* ===================================================================== *)

Module Date.

(** The calendar arithmetic of the [datetime] module. *)

Definition MINYEAR : Z := 1.
Definition MAXYEAR : Z := 9999.

Definition is_leap (y : Z) : bool :=
  (y mod 4 =? 0) && (negb (y mod 100 =? 0) || (y mod 400 =? 0)).

Definition DAYS_IN_MONTH (m : Z) : Z :=
  match m with
  | 1 => 31 | 2 => 28 | 3 => 31 | 4 => 30 | 5 => 31 | 6 => 30
  | 7 => 31 | 8 => 31 | 9 => 30 | 10 => 31 | 11 => 30 | 12 => 31
  | _ => 0
  end.

Definition DAYS_BEFORE_MONTH (m : Z) : Z :=
  match m with
  | 1 => 0 | 2 => 31 | 3 => 59 | 4 => 90 | 5 => 120 | 6 => 151
  | 7 => 181 | 8 => 212 | 9 => 243 | 10 => 273 | 11 => 304 | 12 => 334
  | _ => 0
  end.

Definition days_in_month (y m : Z) : Z :=
  if (m =? 2) && is_leap y then 29 else DAYS_IN_MONTH m.

Definition days_before_year (y : Z) : Z :=
  let y1 := y - 1 in y1 * 365 + y1 / 4 - y1 / 100 + y1 / 400.

Definition days_before_month (y m : Z) : Z :=
  DAYS_BEFORE_MONTH m + (if (2 <? m) && is_leap y then 1 else 0).

Definition ymd2ord (y m d : Z) : Z :=
  days_before_year y + days_before_month y m + d.

(** What the constructor of [datetime.date] checks. *)
Definition check_date_fields (y m d : Z) : bool :=
  (MINYEAR <=? y) && (y <=? MAXYEAR) &&
  (1 <=? m) && (m <=? 12) &&
  (1 <=? d) && (d <=? days_in_month y m).

(** A [datetime.date] object: year, month and day that passed the
    constructor's check. *)
Record date : Type := mkdate {
  year : Z;
  month : Z;
  day : Z;
  date_ok : check_date_fields year month day = true
}.

(** [date(y, m, d)]: [None] stands for the constructor's ValueError. *)
Definition make (y m d : Z) : option date :=
  match check_date_fields y m d as b
        return check_date_fields y m d = b -> option date with
  | true => fun H => Some (mkdate y m d H)
  | false => fun _ => None
  end eq_refl.

Definition toordinal (a : date) : Z := ymd2ord (year a) (month a) (day a).

(** [(a - b).days] *)
Definition days_between (a b : date) : Z := toordinal a - toordinal b.

(** Dates compare as the triples (year, month, day). *)
Definition compare (a b : date) : comparison :=
  match year a ?= year b with
  | Eq => match month a ?= month b with
          | Eq => day a ?= day b
          | c => c
          end
  | c => c
  end.

End Date.

Export Date (date).

(* ===================================================================== *)
(** * class Lot                                                           *)
(* ===================================================================== *)

Record Lot : Type := mkLot {
  num_shares : Z;
  symbol : string;
  description : string;
  buy_date : date;
  basis : Z;
  sell_date : option date;
  proceeds : Z;
  adjustment_code : string;
  adjustment : Z;
  form_position : string;
  buy_lot : string;
  is_replacement : bool;
  loss_processed : bool
}.

(** [Lot.__init__]: the twelve arguments, and [loss_processed = False]. *)
Definition Lot__init__ (num_shares : Z) (symbol description : string)
    (buy_date : date) (basis : Z) (sell_date : option date) (proceeds : Z)
    (adjustment_code : string) (adjustment : Z)
    (form_position buy_lot : string) (is_replacement : bool) : Lot :=
  mkLot num_shares symbol description buy_date basis sell_date proceeds
        adjustment_code adjustment form_position buy_lot is_replacement
        false.

Definition set_buy_lot (lot : Lot) (s : string) : Lot :=
  mkLot (num_shares lot) (symbol lot) (description lot) (buy_date lot)
        (basis lot) (sell_date lot) (proceeds lot) (adjustment_code lot)
        (adjustment lot) (form_position lot) s (is_replacement lot)
        (loss_processed lot).

#[global] Instance date_eq_dec : EqDecision date.
Proof.
  intros a b.
  destruct (decide (Date.year a = Date.year b)) as [Hy|Hy];
    [|right; intros ->; exact (Hy eq_refl)].
  destruct (decide (Date.month a = Date.month b)) as [Hm|Hm];
    [|right; intros ->; exact (Hm eq_refl)].
  destruct (decide (Date.day a = Date.day b)) as [Hd|Hd];
    [|right; intros ->; exact (Hd eq_refl)].
  left. destruct a as [y m d H], b as [y' m' d' H']; simpl in *.
  subst y' m' d'. f_equal. apply UIP_dec. apply Bool.bool_dec.
Defined.

#[global] Instance Lot_eq_dec : EqDecision Lot.
Proof. solve_decision. Defined.

(** Python truth values of the objects the code tests with [if]. *)
Definition truthy_date (v : option date) : bool :=
  match v with Some _ => true | None => false end.
Definition truthy_str (s : string) : bool :=
  match s with EmptyString => false | String _ _ => true end.
Definition truthy_int (n : Z) : bool := negb (n =? 0).

(** [Lot.is_loss] *)
Definition is_loss (self : Lot) : bool :=
  if truthy_date (sell_date self) && (proceeds self <? basis self)
  then true
  else false.

(** [Lot.__eq__]: the twelve persisted fields, not [loss_processed]. *)
Definition Lot__eq__ (self other : Lot) : bool :=
  bool_decide (num_shares self = num_shares other) &&
  bool_decide (symbol self = symbol other) &&
  bool_decide (description self = description other) &&
  bool_decide (buy_date self = buy_date other) &&
  bool_decide (basis self = basis other) &&
  bool_decide (sell_date self = sell_date other) &&
  bool_decide (proceeds self = proceeds other) &&
  bool_decide (adjustment_code self = adjustment_code other) &&
  bool_decide (adjustment self = adjustment other) &&
  bool_decide (form_position self = form_position other) &&
  bool_decide (buy_lot self = buy_lot other) &&
  bool_decide (is_replacement self = is_replacement other).

(** [<] on two [str]: byte-wise lexicographic order. *)
Definition str_lt (s t : string) : bool := String.ltb s t.

(** [Lot.cmp_by_buy_date] *)
Definition cmp_by_buy_date (a b : Lot) : Z :=
  if bool_decide (buy_date a <> buy_date b) then
    Date.days_between (buy_date a) (buy_date b)
  else if bool_decide (sell_date a <> sell_date b) then
    match sell_date a, sell_date b with
    | None, _ => 1
    | Some _, None => -1
    | Some sa, Some sb => Date.days_between sa sb
    end
  else if bool_decide (form_position a <> form_position b) then
    if str_lt (form_position a) (form_position b) then -1 else 1
  else 0.

(** [Lot.cmp_by_sell_date] *)
Definition cmp_by_sell_date (a b : Lot) : Z :=
  if bool_decide (sell_date a <> sell_date b) then
    match sell_date a, sell_date b with
    | None, _ => 1
    | Some _, None => -1
    | Some sa, Some sb => Date.days_between sa sb
    end
  else if bool_decide (buy_date a <> buy_date b) then
    Date.days_between (buy_date a) (buy_date b)
  else if bool_decide (form_position a <> form_position b) then
    if str_lt (form_position a) (form_position b) then -1 else 1
  else 0.

(** [Lot.cmp_by_num_shares] *)
Definition cmp_by_num_shares (a b : Lot) : Z :=
  num_shares a - num_shares b.

(** ** The orderings as the specification words them

    Each key is compared on its own and the keys are chained: the first
    key that does not compare [Eq] decides. *)

Definition chain (c : comparison) (rest : comparison) : comparison :=
  match c with Eq => rest | _ => c end.

(** A sell date, the absent one after every present one. *)
Definition compare_absent_last (a b : option date) : comparison :=
  match a, b with
  | None, None => Eq
  | None, Some _ => Gt
  | Some _, None => Lt
  | Some x, Some y => Date.compare x y
  end.

Definition byBuyDate (a b : Lot) : comparison :=
  chain (Date.compare (buy_date a) (buy_date b))
    (chain (compare_absent_last (sell_date a) (sell_date b))
       (String.compare (form_position a) (form_position b))).

Definition bySellDate (a b : Lot) : comparison :=
  chain (compare_absent_last (sell_date a) (sell_date b))
    (chain (Date.compare (buy_date a) (buy_date b))
       (String.compare (form_position a) (form_position b))).

(** The sign of a three-way comparison result. *)
Definition sign_of (n : Z) : comparison := n ?= 0.

(* ===================================================================== *)
(** * Results of calls that may raise                                     *)
(* ===================================================================== *)

(** The exceptions the modelled code can raise. *)
Inductive exn : Type :=
  | BadHeadersError   (* lots.BadHeadersError *)
  | StopIteration     (* next() on an exhausted reader *)
  | ValueError        (* int(), strptime(), date(), strftime() *)
  | TypeError         (* Lot called with a keyword that is no string *)
  | KeyError          (* row[key] without the key *)
  | AttributeError    (* value.lower() on a value that is no string *)
  | csv_Error.        (* csv.Error *)

(** [Ok a]: the call returns [a]; [Raise e]: it raises [e];
    [Untyped]: it returns, but with a Lot holding [None] where [Lot]'s
    documentation asks for a string, which the record [Lot] has no
    value for (see [Lot_of_kwargs]). *)
Inductive result (A : Type) : Type :=
  | Ok (a : A)
  | Raise (e : exn)
  | Untyped.
Arguments Ok {A} a.
Arguments Raise {A} e.
Arguments Untyped {A}.

Definition bind {A B : Type} (r : result A) (k : A -> result B) : result B :=
  match r with
  | Ok a => k a
  | Raise e => Raise e
  | Untyped => Untyped
  end.

Notation "x <- r ;; k" := (bind r (fun x => k))
  (at level 100, r at next level, right associativity).

Definition or_raise {A : Type} (e : exn) (o : option A) : result A :=
  match o with Some a => Ok a | None => Raise e end.

#[global] Instance exn_eq_dec : EqDecision exn.
Proof. solve_decision. Defined.

#[global] Instance result_eq_dec {A : Type} `{EqDecision A} :
  EqDecision (result A).
Proof. solve_decision. Defined.

(** Settle a decidable closed statement by evaluating its decision. *)
Ltac by_evaluation := apply (bool_decide_unpack _); vm_compute; exact I.

(* ===================================================================== *)
(** * Built-ins: characters, str(), int()                                 *)
(* ===================================================================== *)

Definition NUL : ascii := "000"%char.
Definition TAB : ascii := "009"%char.
Definition LF : ascii := "010"%char.
Definition VT : ascii := "011"%char.
Definition FF : ascii := "012"%char.
Definition CR : ascii := "013"%char.
Definition DQUOTE : ascii := "034"%char.

Definition ascii_eqb (a b : ascii) : bool := Ascii.eqb a b.

(** [str(n)] for an integer: decimal digits, [-] before a negative one. *)
Definition py_str (n : Z) : string := NilZero.string_of_int (Z.to_int n).

Definition isspace (c : ascii) : bool :=
  ascii_eqb c " " || ascii_eqb c TAB || ascii_eqb c LF ||
  ascii_eqb c VT || ascii_eqb c FF || ascii_eqb c CR.

Fixpoint lstrip (s : string) : string :=
  match s with
  | EmptyString => EmptyString
  | String c s' => if isspace c then lstrip s' else s
  end.

Fixpoint rstrip (s : string) : string :=
  match s with
  | EmptyString => EmptyString
  | String c s' =>
      match rstrip s' with
      | EmptyString => if isspace c then EmptyString else String c EmptyString
      | r => String c r
      end
  end.

(** [int(s)] for a [str], base ten: blanks around the literal are
    skipped, one sign may stand before the digits, and at least one digit
    is required; anything else is a ValueError. *)
Definition py_int (s : string) : result Z :=
  match rstrip (lstrip s) with
  | String "+" t =>
      or_raise ValueError
        (option_map (fun d => Z.of_int (Decimal.Pos d)) (NilZero.uint_of_string t))
  | t => or_raise ValueError (option_map Z.of_int (NilZero.int_of_string t))
  end.

(* ===================================================================== *)
(** * date.strftime and datetime.strptime with '%m/%d/%Y'                 *)
(* ===================================================================== *)

Definition digit_char (k : Z) : ascii := ascii_of_N (Z.to_N (48 + k)).

Definition digit_val (c : ascii) : option Z :=
  let n := Z.of_N (N_of_ascii c) in
  if (48 <=? n) && (n <=? 57) then Some (n - 48) else None.

Definition pad2 (n : Z) : string :=
  String (digit_char (n / 10)) (String (digit_char (n mod 10)) EmptyString).

Definition pad4 (n : Z) : string :=
  String (digit_char (n / 1000))
    (String (digit_char (n / 100 mod 10)) (pad2 (n mod 100))).

(** [value.strftime('%m/%d/%Y')].  Python 2's [strftime] refuses every
    year before 1900 with a ValueError ("the datetime strftime() methods
    require year >= 1900"). *)
Definition strftime_mdY (value : date) : result string :=
  if Date.year value <? 1900 then Raise ValueError
  else Ok (pad2 (Date.month value) +:+ "/" +:+
           pad2 (Date.day value) +:+ "/" +:+
           pad4 (Date.year value)).

(** Cut a string at every [sep]. *)
Fixpoint split_on (sep : ascii) (s : string) : list string :=
  match s with
  | EmptyString => [EmptyString]
  | String c s' =>
      if ascii_eqb c sep then EmptyString :: split_on sep s'
      else match split_on sep s' with
           | [] => [String c EmptyString]
           | p :: ps => String c p :: ps
           end
  end.

(** [%m]: the pattern [1[0-2]|0[1-9]|[1-9]]. *)
Definition parse_m (s : string) : option Z :=
  match s with
  | String a EmptyString =>
      match digit_val a with
      | Some v => if 1 <=? v then Some v else None
      | None => None
      end
  | String a (String b EmptyString) =>
      match digit_val a, digit_val b with
      | Some 1, Some v => if v <=? 2 then Some (10 + v) else None
      | Some 0, Some v => if 1 <=? v then Some v else None
      | _, _ => None
      end
  | _ => None
  end.

(** [%d]: the pattern [3[0-1]|[1-2]\d|0[1-9]|[1-9]| [1-9]]. *)
Definition parse_d (s : string) : option Z :=
  match s with
  | String a EmptyString =>
      match digit_val a with
      | Some v => if 1 <=? v then Some v else None
      | None => None
      end
  | String a (String b EmptyString) =>
      if ascii_eqb a " " then
        match digit_val b with
        | Some v => if 1 <=? v then Some v else None
        | None => None
        end
      else
        match digit_val a, digit_val b with
        | Some 3, Some v => if v <=? 1 then Some (30 + v) else None
        | Some 2, Some v => Some (20 + v)
        | Some 1, Some v => Some (10 + v)
        | Some 0, Some v => if 1 <=? v then Some v else None
        | _, _ => None
        end
  | _ => None
  end.

(** [%Y]: exactly four digits. *)
Definition parse_Y (s : string) : option Z :=
  match s with
  | String a (String b (String c (String d EmptyString))) =>
      match digit_val a, digit_val b, digit_val c, digit_val d with
      | Some va, Some vb, Some vc, Some vd =>
          Some (1000 * va + 100 * vb + 10 * vc + vd)
      | _, _, _, _ => None
      end
  | _ => None
  end.

(** [datetime.datetime.strptime(value, '%m/%d/%Y').date()]: the whole
    string has to match month [/] day [/] year, and the three numbers
    have to form a date. *)
Definition strptime_mdY (value : string) : result date :=
  match split_on "/" value with
  | [m; d; y] =>
      match parse_m m, parse_d d, parse_Y y with
      | Some vm, Some vd, Some vy => or_raise ValueError (Date.make vy vm vd)
      | _, _, _ => Raise ValueError
      end
  | _ => Raise ValueError
  end.

(* ===================================================================== *)
(** * Values and dictionaries                                             *)
(* ===================================================================== *)

(** The values a row dictionary of [csv.DictReader] holds, before and
    after [create_from_csv_data] converts its cells. *)
Inductive pyval : Type :=
  | VStr (s : string)
  | VNone
  | VList (l : list string)
  | VInt (n : Z)
  | VDate (d : date)
  | VBool (b : bool).

#[global] Instance pyval_eq_dec : EqDecision pyval.
Proof. solve_decision. Defined.

(** A dictionary of a reader: the keys are field names, or [None], the
    reader's [restkey]. *)
Abbreviation pydict := (gmap (option string) pyval).

(** [dict == dict] across a dictionary with string keys and string
    values, such as [HEADERS], and a reader's dictionary: the same keys
    with the same values. *)
Definition as_pydict (d : gmap string string) : pydict :=
  kmap Some (VStr <$> d).

Definition inspect {A : Type} (a : A) : {b : A | a = b} := exist _ a eq_refl.

(* ===================================================================== *)
(** * The csv module, dialect [excel]                                     *)
(* ===================================================================== *)

(** [lots.py] builds its reader and writer with the default dialect:
    delimiter [,], quotechar the double quote, doubled quotes, no escape
    character, line terminator CR LF, minimal quoting, not strict.  The
    functions below are those of the module's C source with this dialect
    filled in; the two parser states that only an escape character
    reaches are left out. *)

Module Csv.

Definition delimiter : ascii := ","%char.
Definition quotechar : ascii := DQUOTE.
Definition lineterminator : string := String CR (String LF EmptyString).

(** [csv.field_size_limit()] *)
Definition field_limit : Z := 128 * 1024.

(** ** Writer *)

Fixpoint in_string (c : ascii) (s : string) : bool :=
  match s with
  | EmptyString => false
  | String c' s' => ascii_eqb c c' || in_string c s'
  end.

(** [join_append_data]: the characters of one field as they go into the
    record, and whether the field has to be quoted.  The writer reads the
    field as a C string, so it stops at the first NUL. *)
Fixpoint join_append_data (field : string) : string * bool :=
  match field with
  | EmptyString => (EmptyString, false)
  | String c rest =>
      if ascii_eqb c NUL then (EmptyString, false)
      else
        let '(out, quoted) := join_append_data rest in
        if ascii_eqb c delimiter || ascii_eqb c quotechar ||
           in_string c lineterminator
        then
          if ascii_eqb c quotechar
          then (String quotechar (String c out), true)
          else (String c out, true)
        else (String c out, quoted)
  end.

(** [join_append]: one field, quoted when [join_append_data] asks for it,
    or when it is empty and the only field of its record. *)
Definition join_append (field : string) (quote_empty : bool) : string :=
  let '(out, quoted) := join_append_data field in
  let quoted :=
    quoted || (quote_empty && match out with EmptyString => true | _ => false end) in
  if quoted then String quotechar (out +:+ String quotechar EmptyString)
  else out.

Fixpoint join_fields (cells : list string) : string :=
  match cells with
  | [] => EmptyString
  | [c] => c
  | c :: cs => c +:+ String delimiter (join_fields cs)
  end.

(** [writer.writerow(fields)] for fields that are strings: the text
    handed to the file's [write]. *)
Definition writerow (fields : list string) : string :=
  let quote_empty := bool_decide (length fields = 1%nat) in
  join_fields (map (fun f => join_append f quote_empty) fields)
  +:+ lineterminator.

(** ** Reader *)

Inductive ParserState : Type :=
  | START_RECORD
  | START_FIELD
  | IN_FIELD
  | IN_QUOTED_FIELD
  | QUOTE_IN_QUOTED_FIELD
  | EAT_CRNL.

#[global] Instance ParserState_eq_dec : EqDecision ParserState.
Proof. solve_decision. Defined.

(** The parser's part of a reader object.  [field] holds the characters
    of the field being read, the last one first. *)
Record ReaderObj : Type := mkReader {
  state : ParserState;
  field : list ascii;
  field_len : Z;
  fields : list string
}.

Definition parse_reset : ReaderObj := mkReader START_RECORD [] 0 [].

Definition set_state (self : ReaderObj) (s : ParserState) : ReaderObj :=
  mkReader s (field self) (field_len self) (fields self).

Definition parse_save_field (self : ReaderObj) : ReaderObj :=
  mkReader (state self) [] 0
    (fields self ++ [string_of_list_ascii (rev (field self))]).

Definition parse_add_char (self : ReaderObj) (c : ascii) : result ReaderObj :=
  if field_limit <=? field_len self then Raise csv_Error
  else Ok (mkReader (state self) (c :: field self) (field_len self + 1)
             (fields self)).

Definition is_eol (c : ascii) : bool := ascii_eqb c LF || ascii_eqb c CR.

(** [parse_process_char]; the reader calls it with NUL at the end of
    every line. *)
Definition parse_process_char (self : ReaderObj) (c : ascii)
  : result ReaderObj :=
  let start_field (self : ReaderObj) :=
    if is_eol c || ascii_eqb c NUL then
      Ok (set_state (parse_save_field self)
            (if ascii_eqb c NUL then START_RECORD else EAT_CRNL))
    else if ascii_eqb c quotechar then Ok (set_state self IN_QUOTED_FIELD)
    else if ascii_eqb c delimiter then Ok (parse_save_field self)
    else
      self <- parse_add_char self c ;;
      Ok (set_state self IN_FIELD)
  in
  match state self with
  | START_RECORD =>
      if ascii_eqb c NUL then Ok self
      else if is_eol c then Ok (set_state self EAT_CRNL)
      else start_field (set_state self START_FIELD)
  | START_FIELD => start_field self
  | IN_FIELD =>
      if is_eol c || ascii_eqb c NUL then
        Ok (set_state (parse_save_field self)
              (if ascii_eqb c NUL then START_RECORD else EAT_CRNL))
      else if ascii_eqb c delimiter then
        Ok (set_state (parse_save_field self) START_FIELD)
      else parse_add_char self c
  | IN_QUOTED_FIELD =>
      if ascii_eqb c NUL then Ok self
      else if ascii_eqb c quotechar then
        Ok (set_state self QUOTE_IN_QUOTED_FIELD)
      else parse_add_char self c
  | QUOTE_IN_QUOTED_FIELD =>
      if ascii_eqb c quotechar then
        self <- parse_add_char self c ;;
        Ok (set_state self IN_QUOTED_FIELD)
      else if ascii_eqb c delimiter then
        Ok (set_state (parse_save_field self) START_FIELD)
      else if is_eol c || ascii_eqb c NUL then
        Ok (set_state (parse_save_field self)
              (if ascii_eqb c NUL then START_RECORD else EAT_CRNL))
      else
        self <- parse_add_char self c ;;
        Ok (set_state self IN_FIELD)
  | EAT_CRNL =>
      if is_eol c then Ok self
      else if ascii_eqb c NUL then Ok (set_state self START_RECORD)
      else Raise csv_Error
  end.

(** The characters of one line, then the end-of-line call.  A NUL in the
    line is an error ("line contains NULL byte"). *)
Fixpoint parse_line (self : ReaderObj) (line : string) : result ReaderObj :=
  match line with
  | EmptyString => parse_process_char self NUL
  | String c rest =>
      if ascii_eqb c NUL then Raise csv_Error
      else
        self <- parse_process_char self c ;;
        parse_line self rest
  end.

(** The loop of [Reader_iternext] over the lines still to be read:
    [Ok (Some (row, rest))] is a record and the lines after it,
    [Ok None] the end of the input. *)
Fixpoint Reader_loop (self : ReaderObj) (input : list string)
  : result (option (list string * list string)) :=
  match input with
  | [] =>
      if (negb (field_len self =? 0)) ||
         bool_decide (state self = IN_QUOTED_FIELD)
      then Ok (Some (fields (parse_save_field self), []))
      else Ok None
  | line :: rest =>
      self <- parse_line self line ;;
      if bool_decide (state self = START_RECORD)
      then Ok (Some (fields self, rest))
      else Reader_loop self rest
  end.

(** [reader.next()] *)
Definition Reader_next (input : list string)
  : result (option (list string * list string)) :=
  Reader_loop parse_reset input.

(** A record ends at least one line further on. *)
Lemma Reader_loop_shorter (self : ReaderObj) (input : list string)
    (row rest : list string) :
  Reader_loop self input = Ok (Some (row, rest)) ->
  input <> [] -> (length rest < length input)%nat.
Proof.
  revert self. induction input as [|line more IH]; intros self H Hne.
  - contradiction.
  - simpl in H. destruct (parse_line self line) as [self'| |]; simpl in H;
      try discriminate.
    destruct (bool_decide (state self' = START_RECORD)).
    + injection H as _ <-. simpl. lia.
    + destruct more as [|l2 more'].
      * simpl in H.
        destruct (negb (field_len self' =? 0)
                  || bool_decide (state self' = IN_QUOTED_FIELD));
          [injection H as _ <-; simpl; lia | discriminate].
      * specialize (IH self' H ltac:(discriminate)). simpl in *. lia.
Qed.

Lemma Reader_next_shorter (input row rest : list string) :
  Reader_next input = Ok (Some (row, rest)) ->
  (length rest < length input)%nat.
Proof.
  intros H. destruct input as [|l more].
  - discriminate.
  - eapply Reader_loop_shorter; [exact H | discriminate].
Qed.

(** ** DictReader and DictWriter *)

(** [dict(zip(fieldnames, row))] *)
Definition dict_zip (fieldnames row : list string) : pydict :=
  foldl (fun d kv => <[Some kv.1 := VStr kv.2]> d) ∅ (zip fieldnames row).

(** The dictionary [DictReader.next] makes of a row: cells beyond the
    field names go under [restkey = None] as a list, field names beyond
    the cells get [restval = None]. *)
Definition DictReader_row (fieldnames row : list string) : pydict :=
  let d := dict_zip fieldnames row in
  let lf := length fieldnames in
  let lr := length row in
  if (lf <? lr)%nat then <[None := VList (drop lf row)]> d
  else if (lr <? lf)%nat then
    foldl (fun d key => <[Some key := VNone]> d) d (drop lr fieldnames)
  else d.

(** [DictReader.next]: the next row that is not blank, as a dictionary. *)
Equations? DictReader_next (fieldnames : list string) (input : list string)
  : result (option (pydict * list string)) by wf (length input) lt :=
DictReader_next fieldnames input with inspect (Reader_next input) := {
  | exist _ (Ok (Some ([], rest))) H => DictReader_next fieldnames rest
  | exist _ (Ok (Some (row, rest))) H =>
      Ok (Some (DictReader_row fieldnames row, rest))
  | exist _ (Ok None) H => Ok None
  | exist _ (Raise e) H => Raise e
  | exist _ Untyped H => Untyped }.
Proof. eapply Reader_next_shorter; exact H. Qed.

(** [DictWriter.writerow] with [extrasaction = 'raise'] and
    [restval = '']. *)
Definition DictWriter_writerow (fieldnames : list string)
    (rowdict : gmap string string) : result string :=
  if bool_decide (dom rowdict ⊆ list_to_set (C := gset string) fieldnames)
  then Ok (writerow (map (fun key => default EmptyString (rowdict !! key))
                         fieldnames))
  else Raise ValueError.

End Csv.

(* ===================================================================== *)
(** * class Lots                                                          *)
(* ===================================================================== *)

(** Lot objects live in a store and are named by their position in it: a
    list of Lots, as [Lots] holds one, is a list of such names, in which
    the same object may occur more than once. *)
Abbreviation heap := (list Lot).

(** A new Lot object. *)
Definition new_Lot (h : heap) (lot : Lot) : heap * nat :=
  (h ++ [lot], length h).

Definition FIELD_NAMES : list string :=
  ["num_shares"; "symbol"; "description"; "buy_date"; "basis";
   "sell_date"; "proceeds"; "adjustment_code"; "adjustment";
   "form_position"; "buy_lot"; "is_replacement"]%string.

Definition HEADERS : gmap string string :=
  list_to_map
    [("num_shares", "Num Shares"); ("symbol", "Symbol");
     ("description", "Description"); ("buy_date", "Buy Date");
     ("basis", "Basis"); ("sell_date", "Sell Date");
     ("proceeds", "Proceeds"); ("adjustment_code", "Adjustment Code");
     ("adjustment", "Adjustment"); ("form_position", "Form Position");
     ("buy_lot", "Buy Lot"); ("is_replacement", "Is Replacement")]%string.

Definition LEGACY_HEADERS : gmap string string :=
  list_to_map
    [("num_shares", "Cnt"); ("symbol", "Sym"); ("description", "Desc");
     ("buy_date", "BuyDate"); ("basis", "Basis");
     ("sell_date", "SellDate"); ("proceeds", "Proceeds");
     ("adjustment_code", "AdjCode"); ("adjustment", "Adj");
     ("form_position", "FormPosition"); ("buy_lot", "BuyLot");
     ("is_replacement", "IsReplacement")]%string.

Record Lots : Type := mkLots { _lots : list nat }.

(** The loop of [Lots.__init__]: [i] is the next number to give out. *)
Fixpoint Lots_init_loop (i : Z) (h : heap) (lots : list nat) : heap :=
  match lots with
  | [] => h
  | r :: rest =>
      match h !! r with
      | Some lot =>
          if negb (truthy_str (buy_lot lot)) then
            Lots_init_loop (i + 1)
              (<[r := set_buy_lot lot ("_" +:+ py_str i)]> h) rest
          else Lots_init_loop i h rest
      | None => Lots_init_loop i h rest
      end
  end.

(** [Lots.__init__] *)
Definition Lots__init__ (h : heap) (lots : list nat) : heap * Lots :=
  (Lots_init_loop 1 h lots, mkLots lots).

(** [Lots.lots], read in the store: the Lots of the collection. *)
Definition lots (h : heap) (self : Lots) : list Lot :=
  omap (fun r => h !! r) (_lots self).

(** [Lots.add] *)
Definition add (self : Lots) (lot : nat) : Lots :=
  mkLots (_lots self ++ [lot]).

(** [Lots.size] *)
Definition size (self : Lots) : nat := length (_lots self).

(** [Lots.__eq__] *)
Definition Lots__eq__ (h : heap) (self other : Lots) : bool :=
  foldl (fun retval pair => retval && Lot__eq__ pair.1 pair.2) true
        (zip (lots h self) (lots h other)).

(** ** Reading CSV data *)

(** The truth value of a cell. *)
Definition truthy (v : pyval) : bool :=
  match v with
  | VStr s => truthy_str s
  | VNone => false
  | VList l => match l with [] => false | _ => true end
  | VInt n => truthy_int n
  | VDate _ => true
  | VBool b => b
  end.

Definition lower_char (c : ascii) : ascii :=
  let n := N_of_ascii c in
  if ((65 <=? n) && (n <=? 90))%N then ascii_of_N (n + 32) else c.

Fixpoint lower (s : string) : string :=
  match s with
  | EmptyString => EmptyString
  | String c s' => String (lower_char c) (lower s')
  end.

Definition convert_to_int (value : pyval) : result pyval :=
  if truthy value then
    match value with
    | VStr s => n <- py_int s ;; Ok (VInt n)
    | VInt n => Ok (VInt n)
    | VBool b => Ok (VInt (if b then 1 else 0))
    | _ => Raise TypeError
    end
  else Ok (VInt 0).

Definition convert_to_date (value : pyval) : result pyval :=
  if truthy value then
    match value with
    | VStr s => d <- strptime_mdY s ;; Ok (VDate d)
    | _ => Raise TypeError
    end
  else Ok VNone.

Definition convert_to_bool (value : pyval) : result pyval :=
  if truthy value then
    match value with
    | VStr s => Ok (VBool (bool_decide (lower s = "true"%string)))
    | _ => Raise AttributeError
    end
  else Ok (VBool false).

(** [row[key]] *)
Definition getitem (row : pydict) (key : string) : result pyval :=
  or_raise KeyError (row !! Some key).

(** [row[key] = convert(row[key])] *)
Definition convert_item (convert : pyval -> result pyval) (key : string)
    (row : pydict) : result pydict :=
  old <- getitem row key ;;
  new <- convert old ;;
  Ok (<[Some key := new]> row).

(** The seven conversions of the loop body, in its order. *)
Definition convert_row (row : pydict) : result pydict :=
  row <- convert_item convert_to_int "num_shares" row ;;
  row <- convert_item convert_to_date "buy_date" row ;;
  row <- convert_item convert_to_int "basis" row ;;
  row <- convert_item convert_to_date "sell_date" row ;;
  row <- convert_item convert_to_int "proceeds" row ;;
  row <- convert_item convert_to_int "adjustment" row ;;
  convert_item convert_to_bool "is_replacement" row.

(** The keyword arguments of [Lot], each at the type [Lot] documents.  A
    key that is missing is a TypeError; a value of another type than the
    documented one has no place in the record [Lot], so the result is
    [Untyped].  The one exception is [buy_lot = None], which a row of ten
    or eleven cells brings: [Lots.__init__], called right after, tests it
    with [not] as it tests the empty string, and replaces both, so it is
    read as the empty string. *)
Definition kw_int (row : pydict) (key : string) : result Z :=
  match row !! Some key with
  | Some (VInt n) => Ok n
  | Some _ => Untyped
  | None => Raise TypeError
  end.

Definition kw_str (row : pydict) (key : string) : result string :=
  match row !! Some key with
  | Some (VStr s) => Ok s
  | Some _ => Untyped
  | None => Raise TypeError
  end.

Definition kw_buy_lot (row : pydict) : result string :=
  match row !! Some "buy_lot"%string with
  | Some (VStr s) => Ok s
  | Some VNone => Ok EmptyString
  | Some _ => Untyped
  | None => Raise TypeError
  end.

Definition kw_date (row : pydict) (key : string) : result date :=
  match row !! Some key with
  | Some (VDate d) => Ok d
  | Some _ => Untyped
  | None => Raise TypeError
  end.

Definition kw_opt_date (row : pydict) (key : string) : result (option date) :=
  match row !! Some key with
  | Some (VDate d) => Ok (Some d)
  | Some VNone => Ok None
  | Some _ => Untyped
  | None => Raise TypeError
  end.

Definition kw_bool (row : pydict) (key : string) : result bool :=
  match row !! Some key with
  | Some (VBool b) => Ok b
  | Some _ => Untyped
  | None => Raise TypeError
  end.

(** [Lot] called with the row as its keyword arguments.  A row with more
    cells than field names holds the key [None]: keywords must be
    strings, a TypeError. *)
Definition Lot_of_kwargs (row : pydict) : result Lot :=
  if bool_decide (is_Some (row !! None)) then Raise TypeError
  else
    num_shares <- kw_int row "num_shares" ;;
    symbol <- kw_str row "symbol" ;;
    description <- kw_str row "description" ;;
    buy_date <- kw_date row "buy_date" ;;
    basis <- kw_int row "basis" ;;
    sell_date <- kw_opt_date row "sell_date" ;;
    proceeds <- kw_int row "proceeds" ;;
    adjustment_code <- kw_str row "adjustment_code" ;;
    adjustment <- kw_int row "adjustment" ;;
    form_position <- kw_str row "form_position" ;;
    buy_lot <- kw_buy_lot row ;;
    is_replacement <- kw_bool row "is_replacement" ;;
    Ok (Lot__init__ num_shares symbol description buy_date basis sell_date
          proceeds adjustment_code adjustment form_position buy_lot
          is_replacement).

Lemma DictReader_next_shorter (fieldnames input : list string)
    (row : pydict) (rest : list string) :
  Csv.DictReader_next fieldnames input = Ok (Some (row, rest)) ->
  (length rest < length input)%nat.
Proof.
  funelim (Csv.DictReader_next fieldnames input).
  all: try discriminate.
  - intros Hr. specialize (H0 _ _ Hr).
    pose proof (Csv.Reader_next_shorter _ _ _ H). lia.
  - intros [= <- <-]. eapply Csv.Reader_next_shorter; eassumption.
Qed.

(** [for row in reader: ...; lots.append(Lot(...))] *)
Equations? read_rows (h : heap) (lots : list nat) (input : list string)
  : result (heap * list nat) by wf (length input) lt :=
read_rows h lots input with inspect (Csv.DictReader_next FIELD_NAMES input) := {
  | exist _ (Ok (Some (row, rest))) H =>
      row <- convert_row row ;;
      lot <- Lot_of_kwargs row ;;
      read_rows (new_Lot h lot).1 (lots ++ [(new_Lot h lot).2]) rest
  | exist _ (Ok None) H => Ok (h, lots)
  | exist _ (Raise e) H => Raise e
  | exist _ Untyped H => Untyped }.
Proof. eapply DictReader_next_shorter; exact H. Qed.

(** [Lots.create_from_csv_data]: [data] is the list of lines. *)
Definition create_from_csv_data (h : heap) (data : list string)
  : result (heap * Lots) :=
  first <- Csv.DictReader_next FIELD_NAMES data ;;
  match first with
  | None => Raise StopIteration
  | Some (header_row, rest) =>
      if bool_decide (header_row <> as_pydict HEADERS) &&
         bool_decide (header_row <> as_pydict LEGACY_HEADERS)
      then Raise BadHeadersError
      else
        read <- read_rows h [] rest ;;
        Ok (Lots__init__ read.1 read.2)
  end.

(** ** Writing CSV data *)

Definition convert_from_int (value : Z) : string :=
  if truthy_int value then py_str value else EmptyString.

Definition convert_from_date (value : option date) : result string :=
  match value with
  | Some d => strftime_mdY d
  | None => Ok EmptyString
  end.

Definition convert_from_bool (value : bool) : string :=
  if value then "True"%string else "False"%string.

(** The dictionary the loop body of [write_csv_data] fills for a Lot. *)
Definition row_of_lot (lot : Lot) : result (gmap string string) :=
  let row : gmap string string := ∅ in
  let row := <["num_shares"%string := convert_from_int (num_shares lot)]> row in
  let row := <["symbol"%string := symbol lot]> row in
  let row := <["description"%string := description lot]> row in
  buy <- convert_from_date (Some (buy_date lot)) ;;
  let row := <["buy_date"%string := buy]> row in
  let row := <["basis"%string := convert_from_int (basis lot)]> row in
  sell <- convert_from_date (sell_date lot) ;;
  let row := <["sell_date"%string := sell]> row in
  let row := <["proceeds"%string := convert_from_int (proceeds lot)]> row in
  let row := <["adjustment_code"%string := adjustment_code lot]> row in
  let row := <["adjustment"%string := convert_from_int (adjustment lot)]> row in
  let row := <["form_position"%string := form_position lot]> row in
  let row := <["buy_lot"%string := buy_lot lot]> row in
  let row := <["is_replacement"%string := convert_from_bool (is_replacement lot)]> row in
  Ok row.

(** [for lot in self._lots: ...; writer.writerow(row)]: the text the
    rows add to the file. *)
Fixpoint write_rows (ls : list Lot) : result string :=
  match ls with
  | [] => Ok EmptyString
  | lot :: rest =>
      row <- row_of_lot lot ;;
      line <- Csv.DictWriter_writerow FIELD_NAMES row ;;
      more <- write_rows rest ;;
      Ok (line +:+ more)
  end.

(** [Lots.write_csv_data]: the text written to [output_file], when the
    call returns. *)
Definition write_csv_data (h : heap) (self : Lots) : result string :=
  header <- Csv.DictWriter_writerow FIELD_NAMES HEADERS ;;
  rows <- write_rows (lots h self) ;;
  Ok (header +:+ rows).

(** The lines a file object yields for a text: each line with its
    newline, the last one as it is. *)
Fixpoint file_lines (text : string) : list string :=
  match text with
  | EmptyString => []
  | String c rest =>
      if ascii_eqb c LF then String c EmptyString :: file_lines rest
      else match file_lines rest with
           | [] => [String c EmptyString]
           | line :: more => String c line :: more
           end
  end.

(* ===================================================================== *)
(** * Definitions used to state the properties                            *)
(* ===================================================================== *)

(** The Lot objects of [ls] whose [buy_lot] is empty in the store [h],
    each once, in the order in which [ls] first names them.  [seen]
    holds the objects already listed. *)
Fixpoint empty_buy_lots (h : heap) (seen ls : list nat) : list nat :=
  match ls with
  | [] => []
  | r :: rest =>
      match h !! r with
      | Some lot =>
          if negb (truthy_str (buy_lot lot)) && bool_decide (r ∉ seen)
          then r :: empty_buy_lots h (r :: seen) rest
          else empty_buy_lots h seen rest
      | None => empty_buy_lots h seen rest
      end
  end.

Definition sample_date : date := Date.mkdate 2014 9 15 eq_refl.

Definition sample_lot (n : Z) (position id : string) : Lot :=
  Lot__init__ n "ABC" "A" sample_date 200000 None 0 "" 0 position id false.

(** Every character of [s] satisfies [p]. *)
Fixpoint str_all (p : ascii -> bool) (s : string) : bool :=
  match s with
  | EmptyString => true
  | String c s' => p c && str_all p s'
  end.

Definition is_digit (c : ascii) : bool :=
  match digit_val c with Some _ => true | None => false end.

(** The labels of a header dictionary, in the order of the columns. *)
Definition header_labels (d : gmap string string) : list string :=
  map (fun key => default EmptyString (d !! key)) FIELD_NAMES.

(** A call that does not raise BadHeadersError. *)
Definition no_header_error {A : Type} (r : result A) : Prop :=
  r <> Raise BadHeadersError.

(** The header line with the current labels, and the data row of the
    end-to-end scenario. *)
Definition current_header_line : string :=
  "Num Shares,Symbol,Description,Buy Date,Basis,Sell Date,Proceeds,Adjustment Code,Adjustment,Form Position,Buy Lot,Is Replacement".

Definition scenario_row : string :=
  "10,ABC,A,09/15/2014,200000,10/05/2014,180000,,,lot1,,False".

(** The Lot the scenario's row is parsed into. *)
Definition scenario_lot : Lot :=
  Lot__init__ 10 "ABC" "A" (Date.mkdate 2014 9 15 eq_refl) 200000
    (Some (Date.mkdate 2014 10 5 eq_refl)) 180000 "" 0 "lot1" "_1" false.

(** ** The reader over a text

    [Reader_loop] run over the lines of a text, told by the characters
    of the text: the end-of-line call comes after every line feed.
    [rest] holds the lines that follow the text. *)
Fixpoint feed (self : Csv.ReaderObj) (text : string) (rest : list string)
  : result (option (list string * list string)) :=
  match text with
  | EmptyString => Csv.Reader_loop self rest
  | String c t =>
      if ascii_eqb c NUL then Raise csv_Error
      else
        self <- Csv.parse_process_char self c ;;
        if ascii_eqb c LF then
          self <- Csv.parse_process_char self NUL ;;
          if bool_decide (Csv.state self = Csv.START_RECORD)
          then Ok (Some (Csv.fields self, file_lines t ++ rest))
          else feed self t rest
        else feed self t rest
  end.

(** The text is empty or ends with a line feed. *)
Fixpoint lf_terminated (text : string) : bool :=
  match text with
  | EmptyString => true
  | String c EmptyString => ascii_eqb c LF
  | String _ t => lf_terminated t
  end.

(** A cell the writer and the reader both take as it is: no NUL in it,
    and not longer than the reader's field size limit. *)
Definition cell_ok (s : string) : bool :=
  str_all (fun c => negb (ascii_eqb c NUL)) s &&
  (Z.of_nat (String.length s) <=? Csv.field_limit).

(** A character the writer copies without quoting the field. *)
Definition plain (c : ascii) : bool :=
  negb (ascii_eqb c NUL) &&
  negb (ascii_eqb c Csv.delimiter || ascii_eqb c Csv.quotechar ||
        Csv.in_string c Csv.lineterminator).

Definition chars (s : string) : list ascii := list_ascii_of_string s.

(** ** The round trip through CSV *)

(** Every name of the collection names an object of the store. *)
Definition allocated (h : heap) (self : Lots) : Prop :=
  Forall (fun r => (r < length h)%nat) (_lots self).

(** What the csv module and [strftime] ask of a Lot: its dates are of
    1900 or later, and its texts and the digits of its numbers are cells
    the writer and the reader take as they are. *)
Definition csv_safe (lot : Lot) : bool :=
  (1900 <=? Date.year (buy_date lot)) &&
  match sell_date lot with
  | Some d => 1900 <=? Date.year d
  | None => true
  end &&
  forallb cell_ok
    [symbol lot; description lot; adjustment_code lot; form_position lot;
     buy_lot lot; py_str (num_shares lot); py_str (basis lot);
     py_str (proceeds lot); py_str (adjustment lot)].

(** Writing the collection and parsing the lines of the written text
    both return, and the parsed collection has as many Lots as the
    written one and is equal to it by [Lots.__eq__]. *)
Definition round_trip (h : heap) (self : Lots) : Prop :=
  exists (text : string) (h' : heap) (parsed : Lots),
    write_csv_data h self = Ok text /\
    create_from_csv_data h (file_lines text) = Ok (h', parsed) /\
    size parsed = size self /\
    Lots__eq__ h' parsed self = true.

(** The Lot that parsing a written Lot builds: a new object with the
    twelve persisted fields. *)
Definition reread (lot : Lot) : Lot :=
  Lot__init__ (num_shares lot) (symbol lot) (description lot)
    (buy_date lot) (basis lot) (sell_date lot) (proceeds lot)
    (adjustment_code lot) (adjustment lot) (form_position lot)
    (buy_lot lot) (is_replacement lot).

Fixpoint str_repeat (n : nat) (c : ascii) : string :=
  match n with
  | O => EmptyString
  | S n' => String c (str_repeat n' c)
  end.

(** Lots for the round trip: one with a comma, a double quote and a
    line feed in its description; one bought in 1850; one with a NUL in
    its symbol; one with a description of 131073 characters. *)
Definition quoted_lot : Lot :=
  Lot__init__ 10 "ABC" ("a,b" +:+ String DQUOTE (String LF "c"))
    sample_date 200000 (Some (Date.mkdate 2014 10 5 eq_refl)) 180000
    "W" 0 "a" "lot1" true.

Definition old_lot : Lot :=
  Lot__init__ 10 "ABC" "A" (Date.mkdate 1850 1 1 eq_refl) 200000 None 0
    "" 0 "a" "lot1" false.

Definition nul_lot : Lot :=
  Lot__init__ 10 ("A" +:+ String NUL "B") "A" sample_date 200000 None 0
    "" 0 "a" "lot1" false.

Definition long_lot : Lot :=
  Lot__init__ 10 "ABC" (str_repeat (Z.to_nat 131073) "x") sample_date
    200000 None 0 "" 0 "a" "lot1" false.

(** The outcome of writing a collection and parsing the written text:
    whether both calls return and the parsed collection equals the
    written one. *)
Definition round_trip_outcome (h : heap) (self : Lots) : result bool :=
  text <- write_csv_data h self ;;
  parsed <- create_from_csv_data h (file_lines text) ;;
  Ok (Lots__eq__ parsed.1 parsed.2 self).

(* ===================================================================== *)
(** * Further definitions                                                 *)
(* ===================================================================== *)

(** A three-way comparison that orders its arguments by a key: equal
    exactly on equal keys, opposite when the arguments are swapped, and
    transitive. *)
Record KeyOrder {A K : Type} (key : A -> K) (c : A -> A -> comparison)
  : Prop := {
  ko_eq : forall x y, c x y = Eq <-> key x = key y;
  ko_opp : forall x y, c y x = CompOpp (c x y);
  ko_trans : forall x y z, c x y = Lt -> c y z = Lt -> c x z = Lt
}.

(** The three keys of a Lot that the two date comparators look at. *)
Definition buy_key (a : Lot) : date * option date * string :=
  (buy_date a, sell_date a, form_position a).

Definition sell_key (a : Lot) : option date * date * string :=
  (sell_date a, buy_date a, form_position a).

#[global] Instance Lots_eq_dec : EqDecision Lots.
Proof. solve_decision. Defined.

(** A Lot with its [loss_processed] flag set to [flag]. *)
Definition set_loss_processed (lot : Lot) (flag : bool) : Lot :=
  mkLot (num_shares lot) (symbol lot) (description lot) (buy_date lot)
        (basis lot) (sell_date lot) (proceeds lot) (adjustment_code lot)
        (adjustment lot) (form_position lot) (buy_lot lot)
        (is_replacement lot) flag.

(** The header line with the legacy labels. *)
Definition legacy_header_line : string :=
  "Cnt,Sym,Desc,BuyDate,Basis,SellDate,Proceeds,AdjCode,Adj,FormPosition,BuyLot,IsReplacement".

(** What the body of [create_from_csv_data] does once the header is
    accepted. *)
Definition after_header (h : heap) (rest : list string)
  : result (heap * Lots) :=
  read <- read_rows h [] rest ;;
  Ok (Lots__init__ read.1 read.2).

(** The dates of a Lot that [strftime] takes: of 1900 or later. *)
Definition dates_from_1900 (lot : Lot) : bool :=
  (1900 <=? Date.year (buy_date lot)) &&
  match sell_date lot with
  | Some d => 1900 <=? Date.year d
  | None => true
  end.

(** The body of the loop of [create_from_csv_data] for a row of cells:
    the row as a dictionary, converted, and handed to [Lot]. *)
Definition Lot_of_row (cells : list string) : result Lot :=
  row <- convert_row (Csv.DictReader_row FIELD_NAMES cells) ;;
  Lot_of_kwargs row.

(** The cell is one that [convert_to_int], or [convert_to_date], takes:
    empty, or text that [int], or [strptime], reads. *)
Definition int_cell (c : string) : bool :=
  match convert_to_int (VStr c) with Ok _ => true | _ => false end.

Definition date_cell (c : string) : bool :=
  match convert_to_date (VStr c) with Ok _ => true | _ => false end.

(** The six cells of a row that the loop converts to numbers and dates
    are all taken: the first, fourth, fifth, sixth, seventh and ninth. *)
Definition row_converts (cells : list string) : bool :=
  forallb int_cell (omap (fun i => cells !! i) [0; 4; 6; 8]%nat) &&
  forallb date_cell (omap (fun i => cells !! i) [3; 5]%nat).

(* ===================================================================== *)
(** * parse_morgan_stanley.py                                             *)
(* ===================================================================== *)

Module MorganStanley.

(** A [str] of Python 3, as its code points. *)
Abbreviation str := (list N).

(** A text of ASCII characters as a [str], and the bytes a [str] of
    ASCII characters is written as. *)
Definition of_ascii (s : string) : str :=
  map N_of_ascii (list_ascii_of_string s).

Definition encode (s : str) : string :=
  string_of_list_ascii (map ascii_of_N s).

Definition HUMAN_FIELD_NAMES : list str :=
  map of_ascii
    ["Symbol"; "Num Shares"; "Description"; "Buy Date"; "Sell Date";
     "Basis"; "Proceeds"; "Buy Lot"]%string.

Definition WASH_FIELD_NAMES : list str :=
  map of_ascii
    ["Num Shares"; "Symbol"; "Description"; "Buy Date";
     "Adjusted Buy Date"; "Basis"; "Adjusted Basis"; "Sell Date";
     "Proceeds"; "Adjustment Code"; "Adjustment"; "Form Position";
     "Buy Lot"; "Replacement For"; "Is Replacement";
     "Loss Processed"]%string.

(** The characters [str.split] takes as blanks: the code points of
    Unicode whitespace. *)
Definition isspace (c : N) : bool :=
  ((9 <=? c) && (c <=? 13) || (28 <=? c) && (c <=? 32) ||
   (c =? 133) || (c =? 160) || (c =? 5760) ||
   (8192 <=? c) && (c <=? 8202) || (c =? 8232) || (c =? 8233) ||
   (c =? 8239) || (c =? 8287) || (c =? 12288))%N.

Definition SPACE : N := 32%N.
Definition DOLLAR : N := 36%N.
Definition COMMA : N := 44%N.

(** [sep.join(buffer)] *)
Fixpoint join (sep : str) (buffer : list str) : str :=
  match buffer with
  | [] => []
  | [s] => s
  | s :: rest => s ++ sep ++ join sep rest
  end.

(** [s.split()]: the maximal runs of characters that are not blanks.
    [word] holds the characters of the run being read, the last one
    first. *)
Fixpoint split_whitespace (word : str) (s : str) : list str :=
  match s with
  | [] => match word with [] => [] | _ => [rev word] end
  | c :: rest =>
      if isspace c then
        match word with
        | [] => split_whitespace [] rest
        | _ => rev word :: split_whitespace [] rest
        end
      else split_whitespace (c :: word) rest
  end.

Definition split (s : str) : list str := split_whitespace [] s.

(** The variables of the loop of [get_row_words]. *)
Record row_state : Type := mkRowState {
  rows : list (list str);
  line_num : Z;
  buffer : list str
}.

(** The body of the loop, for one line. *)
Definition row_step (st : row_state) (line : str) : row_state :=
  let line_num := line_num st + 1 in
  let buffer := buffer st ++ [line] in
  if line_num =? 3 then
    let row := split (join [SPACE] buffer) in
    mkRowState (rows st ++ [row]) 0 []
  else mkRowState (rows st) line_num buffer.

(** [get_row_words], over the lines that [fileinput] yields. *)
Definition get_row_words (lines : list str) : list (list str) :=
  rows (foldl row_step (mkRowState [] 0 []) lines).

(** The rows told three lines at a time. *)
Fixpoint rows_by_three (lines : list str) : list (list str) :=
  match lines with
  | l0 :: l1 :: l2 :: rest =>
      (split l0 ++ split l1 ++ split l2) :: rows_by_three rest
  | _ => []
  end.

(** [input.replace(old, "")] for [old] of one character. *)
Definition remove_char (old : N) (input : str) : str :=
  filter (fun c => c <> old) input.

(** What a call raises: IndexError, or an exception of one of the
    libraries called. *)
Inductive exception (E : Type) : Type :=
  | IndexError
  | Library (e : E).

Inductive outcome (E A : Type) : Type :=
  | Return (a : A)
  | Throw (e : exception E).

Arguments IndexError {E}.
Arguments Library {E} e.
Arguments Return {E A} a.
Arguments Throw {E A} e.

Definition and_then {E A B : Type} (r : outcome E A)
    (k : A -> outcome E B) : outcome E B :=
  match r with
  | Return a => k a
  | Throw e => Throw e
  end.

(** [row[i]] for a list *)
Definition getitem {E A : Type} (row : list A) (i : Z) : outcome E A :=
  let len := Z.of_nat (length row) in
  let i := if i <? 0 then i + len else i in
  if (i <? 0) || (len <=? i) then Throw IndexError
  else
    match row !! Z.to_nat i with
    | Some x => Return x
    | None => Throw IndexError
    end.

Section Trades.

(** The calls into the libraries: [Money(text, USD)] of moneyed,
    [arrow.get(text, "MM/DD/YY")] and [int(float(text))]. *)
Context {E Money Arrow : Type}.
Variable Money_USD : str -> outcome E Money.
Variable arrow_get : str -> outcome E Arrow.
Variable int_float : str -> outcome E Z.

Definition parse_dollars (input : str) : outcome E Money :=
  Money_USD (remove_char COMMA (remove_char DOLLAR input)).

Record Trade : Type := mkTrade {
  cost_basis : Money;
  num_shares : Z;
  proceeds : Money;
  sell_date : Arrow;
  buy_date : Arrow
}.

(** The [Trade] of one row: the keyword arguments are evaluated in
    the order they are written. *)
Definition parse_trade (row : list str) : outcome E Trade :=
  and_then (getitem row (-1)) (fun w1 =>
  and_then (parse_dollars w1) (fun cost_basis =>
  and_then (getitem row (-2)) (fun w2 =>
  and_then (parse_dollars w2) (fun proceeds =>
  and_then (getitem row (-3)) (fun w3 =>
  and_then (arrow_get w3) (fun sell_date =>
  and_then (getitem row (-4)) (fun w4 =>
  and_then (arrow_get w4) (fun buy_date =>
  and_then (getitem row (-5)) (fun w5 =>
  and_then (int_float w5) (fun num_shares =>
  Return (mkTrade cost_basis num_shares proceeds sell_date
            buy_date))))))))))).

Fixpoint parse_trades_loop (trades : list Trade) (rows : list (list str))
  : outcome E (list Trade) :=
  match rows with
  | [] => Return trades
  | row :: rest =>
      and_then (parse_trade row) (fun trade =>
      parse_trades_loop (trades ++ [trade]) rest)
  end.

Definition parse_trades (rows : list (list str))
  : outcome E (list Trade) :=
  parse_trades_loop [] rows.

End Trades.

(** ** The header that [print_output] writes *)

Inductive Format : Type := wash | human.
Inductive Separator : Type := comma | tab.

Definition quotechar : N := 124%N.
Definition lineterminator : str := [13; 10]%N.

Definition delimiter (separator : Separator) : N :=
  match separator with
  | comma => COMMA
  | tab => 9%N
  end.

Definition fieldnames (format : Format) : list str :=
  match format with
  | human => HUMAN_FIELD_NAMES
  | wash => WASH_FIELD_NAMES
  end.

(** [join_append_data] of the writer of Python 3's csv module, with
    minimal quoting, doubled quotes and no escape character: the
    characters of one field as they go into the record, and whether the
    field has to be quoted. *)
Fixpoint join_append_data (delim : N) (field : str) : str * bool :=
  match field with
  | [] => ([], false)
  | c :: rest =>
      let '(out, quoted) := join_append_data delim rest in
      if (c =? delim)%N || (c =? quotechar)%N ||
         bool_decide (c ∈ lineterminator)
      then
        if (c =? quotechar)%N then (quotechar :: c :: out, true)
        else (c :: out, true)
      else (c :: out, quoted)
  end.

Definition join_append (delim : N) (field : str) (quote_empty : bool)
  : str :=
  let '(out, quoted) := join_append_data delim field in
  let quoted :=
    quoted || (quote_empty && match field with [] => true | _ => false end)
  in
  if quoted then quotechar :: out ++ [quotechar] else out.

(** [writer.writerow(fields)] for fields that are strings *)
Definition writerow (delim : N) (fields : list str) : str :=
  let quote_empty := bool_decide (length fields = 1%nat) in
  join [delim] (map (fun f => join_append delim f quote_empty) fields)
  ++ lineterminator.

(** [writer.writeheader()] of [print_output]: the first line it
    prints. *)
Definition writeheader (format : Format) (separator : Separator) : str :=
  writerow (delimiter separator) (fieldnames format).

End MorganStanley.

(** A word that [str.split] gives: not empty, and without blanks. *)
Definition is_word (w : MorganStanley.str) : Prop :=
  w <> [] /\ Forall (fun c => MorganStanley.isspace c = false) w.

(** The last five elements of a row, or the row when it has fewer. *)
Definition last_five {A : Type} (row : list A) : list A :=
  drop (length row - 5) row.

(** A text without the dollar signs and commas. *)
Definition digits_of (s : MorganStanley.str) : MorganStanley.str :=
  filter (fun c => c <> MorganStanley.DOLLAR /\ c <> MorganStanley.COMMA) s.

(* ===================================================================== *)
(** * Dates                                                               *)
(* ===================================================================== *)

Section DateFacts.

Import Date.

Lemma date_ext (a b : date) :
  year a = year b -> month a = month b -> day a = day b -> a = b.
Proof.
  destruct a as [y m d H], b as [y' m' d' H']; simpl.
  intros -> -> ->. f_equal.
  apply UIP_dec. apply Bool.bool_dec.
Qed.

Lemma date_bounds (a : date) :
  1 <= year a <= 9999 /\ 1 <= month a <= 12 /\
  1 <= day a <= days_in_month (year a) (month a).
Proof.
  destruct a as [y m d H]; simpl.
  unfold check_date_fields, MINYEAR, MAXYEAR in H.
  repeat (apply andb_prop in H; destruct H as [H ?]).
  lia.
Qed.

Lemma month_cases (m : Z) :
  1 <= m <= 12 ->
  m = 1 \/ m = 2 \/ m = 3 \/ m = 4 \/ m = 5 \/ m = 6 \/
  m = 7 \/ m = 8 \/ m = 9 \/ m = 10 \/ m = 11 \/ m = 12.
Proof. lia. Qed.

Lemma days_before_year_succ (y : Z) :
  days_before_year (y + 1) =
  days_before_year y + 365 + (if is_leap y then 1 else 0).
Proof.
  unfold days_before_year, is_leap; cbv zeta.
  replace (y + 1 - 1) with y by lia.
  destruct (Z.eqb_spec (y mod 4) 0), (Z.eqb_spec (y mod 100) 0),
           (Z.eqb_spec (y mod 400) 0); cbn [negb orb andb];
    Z.div_mod_to_equations; lia.
Qed.

Lemma days_before_year_mono (y y' : Z) :
  y <= y' -> days_before_year y <= days_before_year y'.
Proof.
  unfold days_before_year; cbv zeta. Z.div_mod_to_equations; lia.
Qed.

(** Day of the year: at least 1 and within the year. *)
Lemma day_of_year_bounds (a : date) :
  1 <= days_before_month (year a) (month a) + day a
    <= 365 + (if is_leap (year a) then 1 else 0).
Proof.
  destruct (date_bounds a) as (_ & Hm & Hd).
  unfold days_before_month, days_in_month in *.
  destruct (is_leap (year a));
    destruct (month_cases _ Hm) as [E|[E|[E|[E|[E|[E|[E|[E|[E|[E|[E|E]]]]]]]]]]];
    rewrite E in *; simpl in *; lia.
Qed.

Lemma month_lt_days (y m m' d d' : Z) :
  1 <= m -> m < m' -> m' <= 12 ->
  d <= days_in_month y m -> 1 <= d' ->
  days_before_month y m + d < days_before_month y m' + d'.
Proof.
  intros H1 H2 H3 Hd Hd'.
  assert (Hm : 1 <= m <= 12) by lia.
  assert (Hm' : 1 <= m' <= 12) by lia.
  unfold days_before_month, days_in_month in *.
  destruct (is_leap y);
    destruct (month_cases _ Hm) as [E|[E|[E|[E|[E|[E|[E|[E|[E|[E|[E|E]]]]]]]]]]];
    rewrite E in *; simpl in Hd;
    destruct (month_cases _ Hm') as [E'|[E'|[E'|[E'|[E'|[E'|[E'|[E'|[E'|[E'|[E'|E']]]]]]]]]]];
    rewrite E' in *; simpl; lia.
Qed.

Lemma toordinal_lt (a b : date) :
  compare a b = Lt -> toordinal a < toordinal b.
Proof.
  unfold compare, toordinal, ymd2ord.
  pose proof (date_bounds a) as (Hya & Hma & Hda).
  pose proof (date_bounds b) as (Hyb & Hmb & Hdb).
  destruct (Z.compare_spec (year a) (year b)) as [Ey|Ly|Gy]; try discriminate.
  - destruct (Z.compare_spec (month a) (month b)) as [Em|Lm|Gm];
      try discriminate.
    + rewrite Z.compare_lt_iff. rewrite Ey, Em. lia.
    + intros _. rewrite Ey in *.
      pose proof (month_lt_days (year b) (month a) (month b) (day a) (day b)).
      lia.
  - intros _.
    pose proof (day_of_year_bounds a). pose proof (day_of_year_bounds b).
    pose proof (days_before_year_succ (year a)).
    pose proof (days_before_year_mono (year a + 1) (year b)).
    lia.
Qed.

Lemma date_compare_antisym (a b : date) : compare b a = CompOpp (compare a b).
Proof.
  unfold compare.
  rewrite (Z.compare_antisym (year a)), (Z.compare_antisym (month a)),
          (Z.compare_antisym (day a)).
  destruct (year a ?= year b), (month a ?= month b), (day a ?= day b);
    reflexivity.
Qed.

Lemma date_compare_eq_iff (a b : date) : compare a b = Eq <-> a = b.
Proof.
  split.
  - unfold compare.
    destruct (Z.compare_spec (year a) (year b)); try discriminate.
    destruct (Z.compare_spec (month a) (month b)); try discriminate.
    destruct (Z.compare_spec (day a) (day b)); try discriminate.
    intros _. now apply date_ext.
  - intros ->. unfold compare. now rewrite !Z.compare_refl.
Qed.

(** The difference in days has the sign of the comparison of the dates. *)
Lemma days_between_sign (a b : date) :
  (days_between a b ?= 0) = compare a b.
Proof.
  unfold days_between.
  destruct (compare a b) eqn:E.
  - apply date_compare_eq_iff in E. subst. apply Z.compare_eq_iff. lia.
  - apply toordinal_lt in E. apply Z.compare_lt_iff. lia.
  - assert (E' : compare b a = Lt) by (rewrite date_compare_antisym, E; reflexivity).
    apply toordinal_lt in E'. apply Z.compare_gt_iff. lia.
Qed.

End DateFacts.

(* ===================================================================== *)
(** * Lot: loss test and comparators                                      *)
(* ===================================================================== *)

Lemma sell_sign (x y : option date) :
  x <> y ->
  sign_of match x, y with
          | None, _ => 1
          | Some _, None => -1
          | Some sa, Some sb => Date.days_between sa sb
          end = compare_absent_last x y.
Proof.
  destruct x as [sa|], y as [sb|]; simpl; intros H; try reflexivity.
  - apply days_between_sign.
  - congruence.
Qed.

Lemma compare_absent_last_eq (x y : option date) :
  compare_absent_last x y = Eq <-> x = y.
Proof.
  destruct x as [sa|], y as [sb|]; simpl; try (split; congruence).
  rewrite date_compare_eq_iff. split; congruence.
Qed.

Lemma str_compare_refl (s : string) : String.compare s s = Eq.
Proof.
  induction s as [|c s IH]; simpl; [reflexivity|].
  unfold Ascii.compare. now rewrite N.compare_refl.
Qed.

Lemma position_sign (s t : string) :
  s <> t ->
  sign_of (if str_lt s t then -1 else 1) = String.compare s t.
Proof.
  intros H. unfold str_lt, String.ltb.
  destruct (String.compare s t) eqn:E; try reflexivity.
  apply String.compare_eq_iff in E. contradiction.
Qed.

(** C2: [cmp_by_buy_date] is negative, zero or positive as the chain
    buy date, then sell date with the absent one last, then form position
    orders the two lots; when the buy dates differ its value is their
    difference in days. *)
Theorem C2_cmp_by_buy_date_precedence (a b : Lot) :
  sign_of (cmp_by_buy_date a b) = byBuyDate a b /\
  (buy_date a = buy_date b \/
   cmp_by_buy_date a b = Date.days_between (buy_date a) (buy_date b)).
Proof.
  unfold cmp_by_buy_date, byBuyDate.
  destruct (decide (buy_date a = buy_date b)) as [Eb|Nb].
  - split; [|now left].
    rewrite bool_decide_eq_false_2 by (intros H; exact (H Eb)).
    rewrite (proj2 (date_compare_eq_iff _ _) Eb); simpl.
    destruct (decide (sell_date a = sell_date b)) as [Es|Ns].
    + rewrite bool_decide_eq_false_2 by (intros H; exact (H Es)).
      rewrite (proj2 (compare_absent_last_eq _ _) Es); simpl.
      destruct (decide (form_position a = form_position b)) as [Ef|Nf].
      * rewrite bool_decide_eq_false_2 by (intros H; exact (H Ef)).
        rewrite Ef, str_compare_refl. reflexivity.
      * rewrite bool_decide_eq_true_2 by exact Nf.
        now apply position_sign.
    + rewrite bool_decide_eq_true_2 by exact Ns.
      rewrite (sell_sign _ _ Ns).
      destruct (compare_absent_last (sell_date a) (sell_date b)) eqn:E;
        try reflexivity.
      apply compare_absent_last_eq in E. contradiction.
  - rewrite bool_decide_eq_true_2 by exact Nb.
    split; [|now right].
    unfold sign_of. rewrite days_between_sign.
    destruct (Date.compare (buy_date a) (buy_date b)) eqn:E; try reflexivity.
    apply date_compare_eq_iff in E. contradiction.
Qed.

(** C3: [cmp_by_sell_date] is negative, zero or positive as the chain
    sell date with the absent one last, then buy date, then form position
    orders the two lots. *)
Theorem C3_cmp_by_sell_date_precedence (a b : Lot) :
  sign_of (cmp_by_sell_date a b) = bySellDate a b.
Proof.
  unfold cmp_by_sell_date, bySellDate.
  destruct (decide (sell_date a = sell_date b)) as [Es|Ns].
  - rewrite bool_decide_eq_false_2 by (intros H; exact (H Es)).
    rewrite (proj2 (compare_absent_last_eq _ _) Es); simpl.
    destruct (decide (buy_date a = buy_date b)) as [Eb|Nb].
    + rewrite bool_decide_eq_false_2 by (intros H; exact (H Eb)).
      rewrite (proj2 (date_compare_eq_iff _ _) Eb); simpl.
      destruct (decide (form_position a = form_position b)) as [Ef|Nf].
      * rewrite bool_decide_eq_false_2 by (intros H; exact (H Ef)).
        rewrite Ef, str_compare_refl. reflexivity.
      * rewrite bool_decide_eq_true_2 by exact Nf.
        now apply position_sign.
    + rewrite bool_decide_eq_true_2 by exact Nb.
      unfold sign_of. rewrite days_between_sign.
      destruct (Date.compare (buy_date a) (buy_date b)) eqn:E;
        try reflexivity.
      apply date_compare_eq_iff in E. contradiction.
  - rewrite bool_decide_eq_true_2 by exact Ns.
    rewrite (sell_sign _ _ Ns).
    destruct (compare_absent_last (sell_date a) (sell_date b)) eqn:E;
      try reflexivity.
    apply compare_absent_last_eq in E. contradiction.
Qed.

(** C6: [is_loss] holds exactly when the sell date is present and the
    proceeds are below the basis; so it is false for every unsold lot,
    whatever its proceeds and basis, and false when a sold lot's proceeds
    equal its basis. *)
Theorem C6_is_loss_iff (lot : Lot) :
  (is_loss lot = true <->
     sell_date lot <> None /\ proceeds lot < basis lot) /\
  is_loss lot = match sell_date lot with
                | None => false
                | Some _ => bool_decide (proceeds lot < basis lot)
                end /\
  is_loss (mkLot (num_shares lot) (symbol lot) (description lot)
             (buy_date lot) (basis lot) (sell_date lot) (basis lot)
             (adjustment_code lot) (adjustment lot) (form_position lot)
             (buy_lot lot) (is_replacement lot) (loss_processed lot))
    = false.
Proof.
  unfold is_loss; simpl.
  rewrite Z.ltb_irrefl, andb_false_r.
  destruct (sell_date lot) as [d|]; simpl.
  - destruct (Z.ltb_spec (proceeds lot) (basis lot)).
    + rewrite bool_decide_eq_true_2 by assumption.
      repeat split; auto; congruence.
    + rewrite bool_decide_eq_false_2 by lia.
      repeat split; auto; try congruence. intros [_ ?]; lia.
  - repeat split; auto; try congruence. intros [? _]; congruence.
Qed.

Lemma str_lt_flip (s t : string) :
  s <> t -> str_lt t s = negb (str_lt s t).
Proof.
  intros H. unfold str_lt, String.ltb.
  rewrite (String.compare_antisym t s).
  destruct (String.compare s t) eqn:E; try reflexivity.
  apply String.compare_eq_iff in E. contradiction.
Qed.

Lemma sgn_days_between (x y : date) :
  Z.sgn (Date.days_between x y) = - Z.sgn (Date.days_between y x).
Proof. unfold Date.days_between. lia. Qed.

Lemma sgn_sell_branch (x y : option date) :
  x <> y ->
  Z.sgn match x, y with
        | None, _ => 1
        | Some _, None => -1
        | Some sa, Some sb => Date.days_between sa sb
        end
  = - Z.sgn match y, x with
            | None, _ => 1
            | Some _, None => -1
            | Some sa, Some sb => Date.days_between sa sb
            end.
Proof.
  destruct x as [sa|], y as [sb|]; intros H; try reflexivity.
  - apply sgn_days_between.
  - congruence.
Qed.

Lemma sgn_position_branch (s t : string) :
  s <> t ->
  Z.sgn (if str_lt s t then -1 else 1)
  = - Z.sgn (if str_lt t s then -1 else 1).
Proof.
  intros H. rewrite (str_lt_flip s t H).
  destruct (str_lt s t); reflexivity.
Qed.

Ltac decide_neq x y :=
  destruct (decide (x = y));
  [ rewrite (bool_decide_eq_false_2 (x <> y)) by tauto;
    rewrite (bool_decide_eq_false_2 (y <> x)) by (intros ?; congruence)
  | rewrite (bool_decide_eq_true_2 (x <> y)) by assumption;
    rewrite (bool_decide_eq_true_2 (y <> x)) by congruence ].

(** C10: each of the three comparators changes sign when its arguments
    are swapped, and is zero on a lot compared with itself. *)
Theorem C10_comparators_antisymmetric (a b : Lot) :
  (Z.sgn (cmp_by_buy_date a b) = - Z.sgn (cmp_by_buy_date b a) /\
   cmp_by_buy_date a a = 0) /\
  (Z.sgn (cmp_by_sell_date a b) = - Z.sgn (cmp_by_sell_date b a) /\
   cmp_by_sell_date a a = 0) /\
  (Z.sgn (cmp_by_num_shares a b) = - Z.sgn (cmp_by_num_shares b a) /\
   cmp_by_num_shares a a = 0).
Proof.
  repeat split.
  - unfold cmp_by_buy_date.
    decide_neq (buy_date a) (buy_date b); [|apply sgn_days_between].
    decide_neq (sell_date a) (sell_date b); [|now apply sgn_sell_branch].
    decide_neq (form_position a) (form_position b);
      [reflexivity|now apply sgn_position_branch].
  - unfold cmp_by_buy_date.
    rewrite !bool_decide_eq_false_2 by tauto. reflexivity.
  - unfold cmp_by_sell_date.
    decide_neq (sell_date a) (sell_date b); [|now apply sgn_sell_branch].
    decide_neq (buy_date a) (buy_date b); [|apply sgn_days_between].
    decide_neq (form_position a) (form_position b);
      [reflexivity|now apply sgn_position_branch].
  - unfold cmp_by_sell_date.
    rewrite !bool_decide_eq_false_2 by tauto. reflexivity.
  - unfold cmp_by_num_shares. lia.
  - unfold cmp_by_num_shares. lia.
Qed.

(* ===================================================================== *)
(** * The comparator examples of the specification                        *)
(* ===================================================================== *)

(** Lot A, bought 2014-09-15 and sold 2014-10-05, comes before Lot B,
    bought the same day and not sold, by buy date; Lot C, sold
    2014-10-01, comes before Lot A by sell date. *)
Example comparator_examples :
  let A := Lot__init__ 10 "ABC" "A" (Date.mkdate 2014 9 15 eq_refl) 200000
             (Some (Date.mkdate 2014 10 5 eq_refl)) 180000 "" 0 "a" "" false in
  let B := Lot__init__ 10 "ABC" "B" (Date.mkdate 2014 9 15 eq_refl) 200000
             None 0 "" 0 "b" "" false in
  let C := Lot__init__ 10 "ABC" "C" (Date.mkdate 2014 9 20 eq_refl) 200000
             (Some (Date.mkdate 2014 10 1 eq_refl)) 180000 "" 0 "c" "" false in
  cmp_by_buy_date A B = -1 /\ cmp_by_buy_date B A = 1 /\
  cmp_by_sell_date C A = -4 /\ cmp_by_sell_date A C = 4 /\
  cmp_by_buy_date A C = -5.
Proof. vm_compute. repeat split. Qed.

(* ===================================================================== *)
(** * Lots: equality                                                      *)
(* ===================================================================== *)

Lemma foldl_andb {A : Type} (f : A -> bool) (l : list A) (b : bool) :
  foldl (fun retval x => retval && f x) b l = b && forallb f l.
Proof.
  revert b. induction l as [|x l IH]; intros b; simpl.
  - now rewrite andb_true_r.
  - rewrite IH. now rewrite andb_assoc.
Qed.

(** [Lots.__eq__] looks at the pairs of the zip and at nothing else. *)
Lemma Lots__eq__zip (h : heap) (self other : Lots) :
  Lots__eq__ h self other
  = forallb (fun pair => Lot__eq__ pair.1 pair.2)
            (zip (lots h self) (lots h other)).
Proof. unfold Lots__eq__. now rewrite foldl_andb. Qed.




(* ===================================================================== *)
(** * Lots: the constructor                                               *)
(* ===================================================================== *)

Lemma truthy_str_false (s : string) : truthy_str s = false <-> s = EmptyString.
Proof. destruct s; simpl; split; congruence. Qed.

Lemma Lots_init_loop_length (ls : list nat) (i : Z) (h : heap) :
  length (Lots_init_loop i h ls) = length h.
Proof.
  revert i h. induction ls as [|r ls IH]; intros i h; simpl; [reflexivity|].
  destruct (h !! r) as [lot|]; [|apply IH].
  destruct (negb (truthy_str (buy_lot lot))); rewrite IH; [|reflexivity].
  apply length_insert.
Qed.

Lemma empty_buy_lots_not_seen (h : heap) (ls seen : list nat) (r : nat) :
  r ∈ empty_buy_lots h seen ls -> r ∉ seen.
Proof.
  revert seen. induction ls as [|x ls IH]; intros seen; simpl.
  - intros H. inversion H.
  - destruct (h !! x) as [lot|]; [|apply IH].
    destruct (negb (truthy_str (buy_lot lot))); simpl; [|apply IH].
    destruct (decide (x ∉ seen)) as [Hx|Hx].
    + rewrite bool_decide_eq_true_2 by assumption.
      intros [->|Hin]%elem_of_cons; [assumption|].
      apply IH in Hin. intros Hs. apply Hin. now right.
    + rewrite bool_decide_eq_false_2 by assumption. apply IH.
Qed.

(** The loop, started in the middle: [hc] is the store as the loop has
    changed it so far, [seen] the objects it has named. *)
Lemma Lots_init_loop_spec (ls : list nat) :
  forall (i : Z) (h hc : heap) (seen : list nat),
    (forall r, r ∉ seen -> hc !! r = h !! r) ->
    (forall r, r ∈ seen ->
       exists lot, hc !! r = Some lot /\ buy_lot lot <> EmptyString) ->
    (forall (k : nat) (r : nat),
        empty_buy_lots h seen ls !! k = Some r ->
        exists lot, h !! r = Some lot /\
          Lots_init_loop i hc ls !! r
          = Some (set_buy_lot lot ("_" +:+ py_str (i + Z.of_nat k)))) /\
    (forall r, r ∉ empty_buy_lots h seen ls ->
        Lots_init_loop i hc ls !! r = hc !! r).
Proof.
  induction ls as [|x ls IH]; intros i h hc seen Hsame Hseen;
    cbn [Lots_init_loop empty_buy_lots].
  - split; [intros k r H; discriminate | reflexivity].
  - destruct (hc !! x) as [lot|] eqn:Hx.
    + destruct (truthy_str (buy_lot lot)) eqn:Ht; simpl.
      * (* named already: by the caller, or by the loop *)
        assert (Hskip : empty_buy_lots h seen (x :: ls)
                        = empty_buy_lots h seen ls).
        { cbn [empty_buy_lots]. destruct (decide (x ∈ seen)) as [Hin|Hout].
          - destruct (h !! x); [|reflexivity].
            rewrite (bool_decide_eq_false_2 (x ∉ seen)) by tauto.
            now rewrite andb_false_r.
          - rewrite <- (Hsame x Hout), Hx, Ht. reflexivity. }
        cbn [empty_buy_lots] in Hskip. rewrite Hskip. apply IH; assumption.
      * (* empty: the loop names it *)
        assert (Hout : x ∉ seen).
        { intros Hin. destruct (Hseen x Hin) as (lot' & Hl & Hne).
          rewrite Hx in Hl. injection Hl as <-.
          apply truthy_str_false in Ht. contradiction. }
        rewrite <- (Hsame x Hout), Hx, Ht. simpl.
        rewrite bool_decide_eq_true_2 by assumption.
        assert (Hlt : (x < length hc)%nat)
          by (apply lookup_lt_is_Some; eauto).
        set (named := set_buy_lot lot ("_" +:+ py_str i)).
        destruct (IH (i + 1) h (<[x:=named]> hc) (x :: seen)) as [IH1 IH2].
        { intros r Hr. rewrite list_lookup_insert_ne; [apply Hsame|].
          - intros Hin. apply Hr. now right.
          - intros ->. apply Hr. now left. }
        { intros r [->|Hin]%elem_of_cons.
          - exists named. split; [|discriminate].
            now apply list_lookup_insert_eq.
          - destruct (decide (r = x)) as [->|Hne]; [contradiction|].
            rewrite list_lookup_insert_ne by congruence. now apply Hseen. }
        split.
        -- intros [|k] r Hk; simpl in Hk.
           ++ injection Hk as <-. exists lot. split.
              ** now rewrite <- (Hsame x Hout).
              ** rewrite IH2.
                 --- rewrite Z.add_0_r. now apply list_lookup_insert_eq.
                 --- intros Hin. apply empty_buy_lots_not_seen in Hin.
                     apply Hin. now left.
           ++ destruct (IH1 k r Hk) as (lot' & Hl & Hr).
              exists lot'. split; [assumption|].
              replace (i + Z.of_nat (S k)) with (i + 1 + Z.of_nat k) by lia.
              exact Hr.
        -- intros r Hr.
           assert (Hne : r <> x) by (intros ->; apply Hr; now left).
           rewrite IH2.
           ++ now rewrite list_lookup_insert_ne by congruence.
           ++ intros Hin. apply Hr. now right.
    + assert (Hskip : empty_buy_lots h seen (x :: ls)
                      = empty_buy_lots h seen ls).
      { cbn [empty_buy_lots]. destruct (decide (x ∈ seen)) as [Hin|Hout].
        - destruct (Hseen x Hin) as (lot' & Hl & _). congruence.
        - rewrite <- (Hsame x Hout), Hx. reflexivity. }
      cbn [empty_buy_lots] in Hskip. rewrite Hskip. apply IH; assumption.
Qed.

(** Every object of [ls] whose [buy_lot] is empty is listed. *)
Lemma empty_buy_lots_complete (h : heap) (ls seen : list nat)
    (r : nat) (lot : Lot) :
  r ∈ ls -> r ∉ seen -> h !! r = Some lot -> buy_lot lot = EmptyString ->
  r ∈ empty_buy_lots h seen ls.
Proof.
  revert seen. induction ls as [|x ls IH]; intros seen Hin Hout Hr He.
  - inversion Hin.
  - simpl. destruct (decide (x = r)) as [->|Hne].
    + rewrite Hr, He. simpl.
      rewrite bool_decide_eq_true_2 by assumption. now left.
    + apply elem_of_cons in Hin as [->|Hin]; [congruence|].
      destruct (h !! x) as [lx|]; [|now apply IH].
      destruct (negb (truthy_str (buy_lot lx)) && bool_decide (x ∉ seen)).
      * right. apply IH; try assumption.
        intros [->|?]%elem_of_cons; [congruence|contradiction].
      * now apply IH.
Qed.

(** What the loop does to the store, from the first number on. *)
Lemma Lots_init_spec (h : heap) (ls : list nat) :
  (forall (k : nat) (r : nat),
      empty_buy_lots h [] ls !! k = Some r ->
      exists lot, h !! r = Some lot /\
        (Lots__init__ h ls).1 !! r
        = Some (set_buy_lot lot ("_" +:+ py_str (1 + Z.of_nat k)))) /\
  (forall r, r ∉ empty_buy_lots h [] ls ->
      (Lots__init__ h ls).1 !! r = h !! r).
Proof.
  unfold Lots__init__; simpl.
  apply (Lots_init_loop_spec ls 1 h h []).
  - reflexivity.
  - intros r Hr. inversion Hr.
Qed.

(** C4: [Lots.__init__] gives the Lots whose [buy_lot] is empty the
    identifiers _1, _2, _3, ... in the order of the input list, one
    number per Lot and none skipped; it changes no other Lot and nothing
    else of a Lot; it keeps the list it was given; and afterwards every
    Lot of the collection has a [buy_lot] that is not empty. *)
Theorem C4_init_assigns_buy_lots (h : heap) (ls : list nat) :
  let h' := (Lots__init__ h ls).1 in
  let self := (Lots__init__ h ls).2 in
  _lots self = ls /\
  length h' = length h /\
  (forall (k : nat) (r : nat),
      empty_buy_lots h [] ls !! k = Some r ->
      exists lot, h !! r = Some lot /\
        h' !! r
        = Some (set_buy_lot lot ("_" +:+ py_str (1 + Z.of_nat k)))) /\
  (forall r, r ∉ empty_buy_lots h [] ls -> h' !! r = h !! r) /\
  (forall lot, lot ∈ lots h' self -> buy_lot lot <> EmptyString).
Proof.
  cbv zeta.
  destruct (Lots_init_spec h ls) as [H1 H2].
  split; [reflexivity|].
  split; [apply Lots_init_loop_length|].
  split; [exact H1|]. split; [exact H2|].
  intros lot Hlot. unfold lots in Hlot; simpl in Hlot.
  apply list_elem_of_omap in Hlot as (r & Hr & Hl).
  destruct (decide (r ∈ empty_buy_lots h [] ls)) as [Hin|Hout].
  - apply list_elem_of_lookup in Hin as (k & Hk).
    destruct (H1 k r Hk) as (lot0 & _ & Hnew).
    unfold Lots__init__ in Hnew; simpl in Hnew.
    rewrite Hnew in Hl. injection Hl as <-. discriminate.
  - unfold Lots__init__ in H2; simpl in H2.
    rewrite (H2 r Hout) in Hl. intros He. apply Hout.
    eapply empty_buy_lots_complete; eauto. intros Hn; inversion Hn.
Qed.

(** Three Lots without a [buy_lot] and, between them, one with: the
    three get _1, _2 and _3, the fourth keeps its identifier. *)
Example init_three_empty :
  map buy_lot
    (Lots__init__ [sample_lot 1 "a" ""; sample_lot 2 "b" "mine";
                   sample_lot 3 "c" ""; sample_lot 4 "d" ""]
                  [0; 1; 2; 3]%nat).1
  = ["_1"; "mine"; "_2"; "_3"]%string.
Proof. reflexivity. Qed.

(** The same Lot object listed twice is named once. *)
Example init_same_object_twice :
  map buy_lot
    (Lots__init__ [sample_lot 1 "a" ""; sample_lot 2 "b" ""]
                  [0; 0; 1]%nat).1
  = ["_1"; "_2"]%string.
Proof. reflexivity. Qed.

(* ===================================================================== *)
(** * str() and int()                                                     *)
(* ===================================================================== *)

Lemma str_all_impl (p q : ascii -> bool) (s : string) :
  (forall c, p c = true -> q c = true) ->
  str_all p s = true -> str_all q s = true.
Proof.
  intros Hpq. induction s as [|c s IH]; simpl; [reflexivity|].
  intros [Hc Hs]%andb_prop. rewrite (Hpq c Hc). simpl. now apply IH.
Qed.

Lemma str_all_app (p : ascii -> bool) (s t : string) :
  str_all p (s +:+ t) = str_all p s && str_all p t.
Proof.
  induction s as [|c s IH]; simpl; [reflexivity|].
  now rewrite IH, andb_assoc.
Qed.

Lemma lstrip_id (s : string) :
  str_all (fun c => negb (isspace c)) s = true -> lstrip s = s.
Proof.
  destruct s as [|c s]; simpl; [reflexivity|].
  intros [Hc _]%andb_prop. apply negb_true_iff in Hc. now rewrite Hc.
Qed.

Lemma rstrip_id (s : string) :
  str_all (fun c => negb (isspace c)) s = true -> rstrip s = s.
Proof.
  induction s as [|c s IH]; simpl; [reflexivity|].
  intros [Hc Hs]%andb_prop. apply negb_true_iff in Hc.
  rewrite (IH Hs). destruct s; [now rewrite Hc | reflexivity].
Qed.

Lemma digit_not_space (c : ascii) :
  is_digit c = true -> negb (isspace c) = true.
Proof.
  destruct c as [[|] [|] [|] [|] [|] [|] [|] [|]]; vm_compute;
    congruence.
Qed.

Lemma string_of_uint_digits (d : Decimal.uint) :
  str_all is_digit (NilEmpty.string_of_uint d) = true.
Proof. induction d; simpl; try reflexivity; exact IHd. Qed.

Lemma py_str_no_space (n : Z) :
  str_all (fun c => negb (isspace c)) (py_str n) = true.
Proof.
  assert (Hu : forall d, str_all (fun c => negb (isspace c))
                           (NilZero.string_of_uint d) = true).
  { intros d. destruct d; try reflexivity;
      apply (str_all_impl is_digit); auto using digit_not_space;
      apply (string_of_uint_digits (_ d)). }
  unfold py_str. destruct (Z.to_int n) as [d|d]; simpl.
  - apply Hu.
  - apply Hu.
Qed.

Lemma py_str_not_plus (n : Z) (t : string) : py_str n <> String "+" t.
Proof.
  unfold py_str. destruct (Z.to_int n) as [d|d]; simpl; [|discriminate].
  destruct d; simpl; discriminate.
Qed.

(** [int(str(n)) == n] *)
Lemma py_int_py_str (n : Z) : py_int (py_str n) = Ok n.
Proof.
  unfold py_int.
  rewrite (lstrip_id _ (py_str_no_space n)).
  rewrite (rstrip_id _ (py_str_no_space n)).
  assert (Hparse : NilZero.int_of_string (py_str n) = Some (Z.to_int n)).
  { unfold py_str. apply NilZero.isi.
    - destruct n; simpl; try discriminate.
      intros [= H]. exact (DecimalPos.Unsigned.to_uint_nonnil _ H).
    - destruct n; simpl; try discriminate.
      intros [= H]. exact (DecimalPos.Unsigned.to_uint_nonnil _ H). }
  destruct (py_str n) as [|c t] eqn:E.
  - simpl in Hparse. discriminate.
  - destruct (Ascii.eqb_spec c "+") as [->|Hc].
    + exfalso. exact (py_str_not_plus n t E).
    + assert (Hgoal : or_raise ValueError
                (option_map Z.of_int (NilZero.int_of_string (String c t)))
              = Ok n).
      { rewrite Hparse. simpl. now rewrite DecimalZ.of_to. }
      destruct c as [[|] [|] [|] [|] [|] [|] [|] [|]];
        first [exact Hgoal | now contradiction Hc].
Qed.

Lemma py_str_inj (n m : Z) : py_str n = py_str m -> n = m.
Proof.
  intros H. pose proof (py_int_py_str n) as Hn.
  rewrite H, py_int_py_str in Hn. congruence.
Qed.

Lemma py_str_nonempty (n : Z) : py_str n <> EmptyString.
Proof.
  intros H. pose proof (py_int_py_str n) as Hn. rewrite H in Hn.
  discriminate.
Qed.

(* ===================================================================== *)
(** * Lots: buy-lot identifiers                                           *)
(* ===================================================================== *)

(** The constructor leaves Lot objects with a [buy_lot] as they are. *)
Lemma Lots_init_keeps_named (h : heap) (ls : list nat) (r : nat) (lot : Lot) :
  h !! r = Some lot -> buy_lot lot <> EmptyString ->
  (Lots__init__ h ls).1 !! r = Some lot.
Proof.
  intros Hr Hne.
  destruct (Lots_init_spec h ls) as [H1 H2].
  rewrite H2; [assumption|].
  intros Hin. apply list_elem_of_lookup in Hin as (k & Hk).
  clear H1 H2. revert Hk. generalize (@nil nat) as seen. revert k.
  induction ls as [|x ls IH]; intros k seen; cbn [empty_buy_lots].
  - discriminate.
  - destruct (h !! x) as [lx|] eqn:Hx; [|apply IH].
    destruct (negb (truthy_str (buy_lot lx)) && bool_decide (x ∉ seen))
      eqn:Hc; [|apply IH].
    destruct k as [|k]; simpl; [|apply IH].
    intros [= ->]. rewrite Hr in Hx. injection Hx as <-.
    apply andb_prop in Hc as [Hc _]. apply negb_true_iff in Hc.
    apply truthy_str_false in Hc. contradiction.
Qed.

(** The claim as it is worded fails: the constructor and [add] take the
    identifiers as they come.  Two Lots built with the same [buy_lot]
    keep it; a Lot built with [_1] meets the [_1] the constructor hands
    out; and [add] appends a Lot whose identifier is already there. *)
Lemma C8_unique_buy_lots_counterexample :
  (let h := [sample_lot 10 "a" "x"; sample_lot 20 "b" "x"] in
   let built := Lots__init__ h [0; 1]%nat in
   ~ NoDup (map buy_lot (lots built.1 built.2))) /\
  (let h := [sample_lot 10 "a" "_1"; sample_lot 20 "b" ""] in
   let built := Lots__init__ h [0; 1]%nat in
   ~ NoDup (map buy_lot (lots built.1 built.2))) /\
  (let h := [sample_lot 10 "a" "x"; sample_lot 20 "b" "x"] in
   let built := Lots__init__ h [0]%nat in
   ~ NoDup (map buy_lot (lots built.1 (add built.2 1%nat)))).
Proof.
  repeat split; vm_compute; intros H;
    apply NoDup_cons in H as [Hn _]; apply Hn; left.
Qed.

(** C8, amended: the constructor gives two different Lots whose
    [buy_lot] was empty two different identifiers; it leaves every
    [buy_lot] that was set as it is, and [add] appends its Lot and
    changes no Lot. *)
Theorem C8_synthetic_buy_lots_distinct (h : heap) (ls : list nat) :
  let h' := (Lots__init__ h ls).1 in
  (forall (r1 r2 : nat) (lot1 lot2 : Lot),
      r1 ∈ ls -> r2 ∈ ls -> r1 <> r2 ->
      h !! r1 = Some lot1 -> buy_lot lot1 = EmptyString ->
      h !! r2 = Some lot2 -> buy_lot lot2 = EmptyString ->
      exists lot1' lot2',
        h' !! r1 = Some lot1' /\ h' !! r2 = Some lot2' /\
        buy_lot lot1' <> buy_lot lot2') /\
  (forall (r : nat) (lot : Lot),
      h !! r = Some lot -> buy_lot lot <> EmptyString ->
      h' !! r = Some lot) /\
  (forall (self : Lots) (r : nat),
      lots h' (add self r) = lots h' self ++ option_list (h' !! r)).
Proof.
  cbv zeta. split; [|split].
  - intros r1 r2 lot1 lot2 Hin1 Hin2 Hne H1 He1 H2 He2.
    destruct (Lots_init_spec h ls) as [Hspec _].
    assert (Hnil : forall r : nat, r ∉ @nil nat)
      by (intros r Hr; inversion Hr).
    pose proof (empty_buy_lots_complete h ls [] r1 lot1 Hin1 (Hnil r1) H1 He1)
      as (k1 & Hk1)%list_elem_of_lookup.
    pose proof (empty_buy_lots_complete h ls [] r2 lot2 Hin2 (Hnil r2) H2 He2)
      as (k2 & Hk2)%list_elem_of_lookup.
    destruct (Hspec k1 r1 Hk1) as (l1 & Hl1 & Hn1).
    destruct (Hspec k2 r2 Hk2) as (l2 & Hl2 & Hn2).
    eexists _, _. split; [exact Hn1|]. split; [exact Hn2|].
    simpl. intros [= Heq]. apply py_str_inj in Heq.
    assert (k1 = k2) by lia. subst k2. congruence.
  - intros r lot. apply Lots_init_keeps_named.
  - intros self r. unfold lots, add; simpl.
    rewrite omap_app. simpl. now destruct (_ !! r).
Qed.

(* ===================================================================== *)
(** * Reading: the loops unfolded                                         *)
(* ===================================================================== *)

Lemma DictReader_next_eq (fieldnames input : list string) :
  Csv.DictReader_next fieldnames input
  = match Csv.Reader_next input with
    | Ok (Some ([], rest)) => Csv.DictReader_next fieldnames rest
    | Ok (Some (row, rest)) =>
        Ok (Some (Csv.DictReader_row fieldnames row, rest))
    | Ok None => Ok None
    | Raise e => Raise e
    | Untyped => Untyped
    end.
Proof.
  funelim (Csv.DictReader_next fieldnames input).
  all: rewrite H; reflexivity.
Qed.

Lemma read_rows_eq (h : heap) (ls : list nat) (input : list string) :
  read_rows h ls input
  = match Csv.DictReader_next FIELD_NAMES input with
    | Ok (Some (row, rest)) =>
        row <- convert_row row ;;
        lot <- Lot_of_kwargs row ;;
        read_rows (new_Lot h lot).1 (ls ++ [(new_Lot h lot).2]) rest
    | Ok None => Ok (h, ls)
    | Raise e => Raise e
    | Untyped => Untyped
    end.
Proof.
  funelim (read_rows h ls input).
  all: rewrite H; reflexivity.
Qed.

(* ===================================================================== *)
(** * Reading: the header check                                           *)
(* ===================================================================== *)

Ltac look_at H key :=
  let H' := fresh "Hk" in
  pose proof (f_equal (fun m : pydict => m !! key) H) as H';
  vm_compute in H'; try discriminate H'.

Ltac header_cells H :=
  look_at H (Some "num_shares"%string);
  look_at H (Some "symbol"%string);
  look_at H (Some "description"%string);
  look_at H (Some "buy_date"%string);
  look_at H (Some "basis"%string);
  look_at H (Some "sell_date"%string);
  look_at H (Some "proceeds"%string);
  look_at H (Some "adjustment_code"%string);
  look_at H (Some "adjustment"%string);
  look_at H (Some "form_position"%string);
  look_at H (Some "buy_lot"%string);
  look_at H (Some "is_replacement"%string);
  look_at H (@None string).

(** The dictionary of a row is a header dictionary exactly when the row
    is the list of its twelve labels. *)
Lemma header_row_HEADERS (cells : list string) :
  Csv.DictReader_row FIELD_NAMES cells = as_pydict HEADERS
  <-> cells = header_labels HEADERS.
Proof.
  split.
  - intros H.
    do 12 (destruct cells as [|? cells]; [exfalso; header_cells H|]).
    destruct cells as [|? cells]; [|exfalso; header_cells H].
    header_cells H.
    repeat match goal with
           | E : Some (VStr _) = Some (VStr _) |- _ => injection E as ->
           end.
    by_evaluation.
  - intros ->. by_evaluation.
Qed.

Lemma header_row_LEGACY (cells : list string) :
  Csv.DictReader_row FIELD_NAMES cells = as_pydict LEGACY_HEADERS
  <-> cells = header_labels LEGACY_HEADERS.
Proof.
  split.
  - intros H.
    do 12 (destruct cells as [|? cells]; [exfalso; header_cells H|]).
    destruct cells as [|? cells]; [|exfalso; header_cells H].
    header_cells H.
    repeat match goal with
           | E : Some (VStr _) = Some (VStr _) |- _ => injection E as ->
           end.
    by_evaluation.
  - intros ->. by_evaluation.
Qed.

(** ** No call but the header check raises BadHeadersError *)

Lemma no_header_error_bind {A B : Type} (r : result A) (k : A -> result B) :
  no_header_error r -> (forall a, no_header_error (k a)) ->
  no_header_error (bind r k).
Proof.
  intros Hr Hk. destruct r; simpl; [apply Hk | | discriminate].
  intros [= ->]. now apply Hr.
Qed.

Lemma no_header_error_or_raise {A : Type} (e : exn) (o : option A) :
  e <> BadHeadersError -> no_header_error (or_raise e o).
Proof.
  unfold no_header_error. destruct o; simpl; [discriminate|congruence].
Qed.

Ltac no_header_error_step :=
  match goal with
  | |- no_header_error (Ok _) => discriminate
  | |- no_header_error Untyped => discriminate
  | |- no_header_error (Raise _) => discriminate
  | |- no_header_error (or_raise _ _) =>
      apply no_header_error_or_raise; discriminate
  | |- no_header_error (bind _ _) =>
      apply no_header_error_bind; [|intros ?]
  | |- no_header_error (if ?b then _ else _) => destruct b
  | |- no_header_error (match ?x with _ => _ end) => destruct x
  | |- no_header_error (let '(_, _) := ?x in _) => destruct x
  end.

Ltac no_header_error_tac := repeat (no_header_error_step; auto).

Lemma parse_process_char_no_header_error (self : Csv.ReaderObj) (c : ascii) :
  no_header_error (Csv.parse_process_char self c).
Proof.
  unfold Csv.parse_process_char, Csv.parse_add_char.
  no_header_error_tac.
Qed.

Lemma parse_line_no_header_error (line : string) (self : Csv.ReaderObj) :
  no_header_error (Csv.parse_line self line).
Proof.
  revert self. induction line as [|c line IH]; intros self; simpl.
  - apply parse_process_char_no_header_error.
  - pose proof parse_process_char_no_header_error. no_header_error_tac.
Qed.

Lemma Reader_loop_no_header_error (input : list string) (self : Csv.ReaderObj) :
  no_header_error (Csv.Reader_loop self input).
Proof.
  revert self. induction input as [|line input IH]; intros self; simpl.
  - no_header_error_tac.
  - pose proof parse_line_no_header_error. no_header_error_tac.
Qed.

Lemma DictReader_next_no_header_error (fieldnames input : list string) :
  no_header_error (Csv.DictReader_next fieldnames input).
Proof.
  funelim (Csv.DictReader_next fieldnames input); try discriminate.
  - assumption.
  - pose proof (Reader_loop_no_header_error input Csv.parse_reset) as Hn.
    unfold Csv.Reader_next in H. rewrite H in Hn.
    intros [= ->]. now apply Hn.
Qed.

Lemma py_int_no_header_error (s : string) : no_header_error (py_int s).
Proof. unfold py_int. no_header_error_tac. Qed.

Lemma strptime_no_header_error (s : string) :
  no_header_error (strptime_mdY s).
Proof. unfold strptime_mdY. no_header_error_tac. Qed.

Lemma convert_item_no_header_error (convert : pyval -> result pyval)
    (key : string) (row : pydict) :
  (forall v, no_header_error (convert v)) ->
  no_header_error (convert_item convert key row).
Proof. intros H. unfold convert_item, getitem. no_header_error_tac. Qed.

Lemma convert_row_no_header_error (row : pydict) :
  no_header_error (convert_row row).
Proof.
  assert (Hi : forall v, no_header_error (convert_to_int v)).
  { intros v. unfold convert_to_int.
    pose proof py_int_no_header_error. no_header_error_tac. }
  assert (Hd : forall v, no_header_error (convert_to_date v)).
  { intros v. unfold convert_to_date.
    pose proof strptime_no_header_error. no_header_error_tac. }
  assert (Hb : forall v, no_header_error (convert_to_bool v)).
  { intros v. unfold convert_to_bool. no_header_error_tac. }
  unfold convert_row.
  repeat (apply no_header_error_bind;
          [apply convert_item_no_header_error; assumption | intros ?]).
  apply convert_item_no_header_error; assumption.
Qed.

Lemma Lot_of_kwargs_no_header_error (row : pydict) :
  no_header_error (Lot_of_kwargs row).
Proof.
  unfold Lot_of_kwargs, kw_int, kw_str, kw_buy_lot, kw_date, kw_opt_date,
    kw_bool.
  destruct (bool_decide _); [discriminate|].
  repeat (apply no_header_error_bind;
          [no_header_error_tac | intros ?]).
  discriminate.
Qed.

Lemma read_rows_no_header_error (h : heap) (ls : list nat)
    (input : list string) :
  no_header_error (read_rows h ls input).
Proof.
  funelim (read_rows h ls input); try discriminate.
  - apply no_header_error_bind; [apply convert_row_no_header_error|].
    intros row'.
    apply no_header_error_bind; [apply Lot_of_kwargs_no_header_error|].
    intros lot. apply H0. exact row'.
  - pose proof (DictReader_next_no_header_error FIELD_NAMES input) as Hn.
    rewrite H in Hn. intros [= ->]. now apply Hn.
Qed.

(** C5: when the first row of the input is neither the list of the
    current labels nor the list of the legacy labels,
    [create_from_csv_data] raises BadHeadersError, whatever the rows
    after it hold, and so returns no collection; when it is one of the
    two, the call does not raise BadHeadersError. *)
Theorem C5_header_validation (h : heap) (data cells rest : list string) :
  Csv.DictReader_next FIELD_NAMES data
    = Ok (Some (Csv.DictReader_row FIELD_NAMES cells, rest)) ->
  (cells <> header_labels HEADERS /\ cells <> header_labels LEGACY_HEADERS ->
   create_from_csv_data h data = Raise BadHeadersError) /\
  (cells = header_labels HEADERS \/ cells = header_labels LEGACY_HEADERS ->
   no_header_error (create_from_csv_data h data)).
Proof.
  intros Hfirst. unfold create_from_csv_data. rewrite Hfirst. simpl.
  split.
  - intros [Hc Hl].
    rewrite !bool_decide_eq_true_2; [reflexivity| |].
    + now rewrite header_row_LEGACY.
    + now rewrite header_row_HEADERS.
  - intros Hm.
    assert (Hgate : bool_decide (Csv.DictReader_row FIELD_NAMES cells
                                 <> as_pydict HEADERS)
                    && bool_decide (Csv.DictReader_row FIELD_NAMES cells
                                    <> as_pydict LEGACY_HEADERS) = false).
    { destruct Hm as [Hm|Hm].
      - rewrite (bool_decide_eq_false_2 (_ <> as_pydict HEADERS));
          [reflexivity|].
        intros Hn. apply Hn. now apply header_row_HEADERS.
      - rewrite (bool_decide_eq_false_2 (_ <> as_pydict LEGACY_HEADERS));
          [apply andb_false_r|].
        intros Hn. apply Hn. now apply header_row_LEGACY. }
    rewrite Hgate.
    apply no_header_error_bind; [apply read_rows_no_header_error|].
    intros read. discriminate.
Qed.

(** A first row [Foo,Bar] is refused, also before a row whose cells
    would not convert. *)
Lemma C5_header_validation_witness :
  create_from_csv_data [] ["Foo,Bar"; "x,ABC,A,no date"]%string
  = Raise BadHeadersError.
Proof.
  refine (proj1 (C5_header_validation [] ["Foo,Bar"; "x,ABC,A,no date"]%string
                   ["Foo"; "Bar"]%string ["x,ABC,A,no date"]%string _) _).
  - by_evaluation.
  - split; intros H; vm_compute in H; discriminate H.
Defined.

(** Without a first row there is no header to check: the reader's
    [next] raises StopIteration on an empty input, and csv.Error on a
    first line it cannot read. *)
Example no_first_row (h : heap) :
  create_from_csv_data h [] = Raise StopIteration /\
  create_from_csv_data h [String "a" (String CR "b")] = Raise csv_Error.
Proof.
  unfold create_from_csv_data. rewrite !DictReader_next_eq. split; reflexivity.
Qed.

(* ===================================================================== *)
(** * Reading: the end-to-end scenario                                    *)
(* ===================================================================== *)

Lemma new_Lot_init (h : heap) (lot : Lot) (i : Z) :
  Lots_init_loop i (h ++ [lot]) [length h]
  = h ++ [if truthy_str (buy_lot lot) then lot
          else set_buy_lot lot ("_" +:+ py_str i)].
Proof.
  cbn [Lots_init_loop].
  rewrite (list_lookup_middle h [] lot (length h) eq_refl).
  destruct (truthy_str (buy_lot lot)); simpl; [reflexivity|].
  rewrite (insert_app_r_alt h [lot] (length h)) by lia.
  now rewrite Nat.sub_diag.
Qed.

Ltac eval_in_place t :=
  let x := fresh "x" in
  set (x := t); vm_compute in x; subst x.

(** The claim as it is worded fails: the cell [lot1] of the row stands
    in the tenth column, Form Position, and the eleventh, Buy Lot, is
    empty; so no parsed Lot has the [buy_lot] [lot1]. *)
Lemma C9_scenario_counterexample :
  ~ exists (h : heap) (self : Lots) (lot : Lot),
      create_from_csv_data [] [current_header_line; scenario_row]
        = Ok (h, self) /\
      lots h self = [lot] /\
      num_shares lot = 10 /\ basis lot = 200000 /\ is_loss lot = true /\
      buy_lot lot = "lot1"%string.
Proof.
  intros (h & self & lot & Hparse & Hlots & _ & _ & _ & Hid).
  vm_compute in Hparse. injection Hparse as <- <-.
  vm_compute in Hlots. injection Hlots as <-.
  discriminate Hid.
Qed.

(** C9, amended: the header with the current labels and the scenario's
    row parse into a collection of one new Lot, with 10 shares, basis
    200000, a loss, the form position [lot1], and, its Buy Lot cell
    being empty, the synthetic identifier [_1]; the lines may come with
    or without their line ends. *)
Theorem C9_scenario (h : heap) :
  create_from_csv_data h [current_header_line; scenario_row]
    = Ok (h ++ [scenario_lot], mkLots [length h]) /\
  create_from_csv_data h
    (file_lines (current_header_line +:+ Csv.lineterminator +:+
                 scenario_row +:+ Csv.lineterminator))
    = Ok (h ++ [scenario_lot], mkLots [length h]) /\
  lots (h ++ [scenario_lot]) (mkLots [length h]) = [scenario_lot] /\
  num_shares scenario_lot = 10 /\ basis scenario_lot = 200000 /\
  is_loss scenario_lot = true /\
  form_position scenario_lot = "lot1"%string /\
  buy_lot scenario_lot = "_1"%string.
Proof.
  assert (Hrun : forall data rest rest2 : list string,
    Csv.DictReader_next FIELD_NAMES data
      = Ok (Some (as_pydict HEADERS, rest)) ->
    Csv.DictReader_next FIELD_NAMES rest
      = Ok (Some (Csv.DictReader_row FIELD_NAMES
                    ["10"; "ABC"; "A"; "09/15/2014"; "200000";
                     "10/05/2014"; "180000"; ""; ""; "lot1"; "";
                     "False"]%string, rest2)) ->
    Csv.DictReader_next FIELD_NAMES rest2 = Ok None ->
    create_from_csv_data h data
    = Ok (h ++ [scenario_lot], mkLots [length h])).
  { intros data rest rest2 Hdata Hrest Hrest2.
    unfold create_from_csv_data. rewrite Hdata. cbn [bind].
    match goal with
    | |- context [bool_decide ?P && bool_decide ?Q] =>
        eval_in_place (bool_decide P && bool_decide Q)
    end.
    cbv iota.
    rewrite read_rows_eq, Hrest.
    match goal with
    | |- context [convert_row ?row] => eval_in_place (convert_row row)
    end.
    cbn [bind].
    match goal with
    | |- context [Lot_of_kwargs ?row] => eval_in_place (Lot_of_kwargs row)
    end.
    cbn [bind new_Lot fst snd app].
    rewrite read_rows_eq, Hrest2.
    cbn [bind fst snd]. unfold Lots__init__. rewrite new_Lot_init.
    reflexivity. }
  split.
  { apply (Hrun _ [scenario_row] []); by_evaluation. }
  split.
  { apply (Hrun _ [scenario_row +:+ Csv.lineterminator] []);
      by_evaluation. }
  split.
  { unfold lots; simpl.
    now rewrite (list_lookup_middle h [] scenario_lot (length h) eq_refl). }
  repeat split.
Qed.

(* ===================================================================== *)
(** * The csv reader on the text of the csv writer                        *)
(* ===================================================================== *)

Lemma file_lines_nonempty (c : ascii) (t : string) :
  file_lines (String c t) <> [].
Proof.
  simpl. destruct (ascii_eqb c LF); [discriminate|].
  destruct (file_lines t); discriminate.
Qed.

Lemma Reader_loop_cons_char (self : Csv.ReaderObj) (c : ascii)
    (line : string) (more : list string) :
  Csv.Reader_loop self (String c line :: more)
  = if ascii_eqb c NUL then Raise csv_Error
    else self <- Csv.parse_process_char self c ;;
         Csv.Reader_loop self (line :: more).
Proof.
  simpl. destruct (ascii_eqb c NUL); [reflexivity|].
  destruct (Csv.parse_process_char self c); reflexivity.
Qed.

(** [feed] is the reader on the lines of the text. *)
Lemma feed_file_lines (text : string) :
  forall (self : Csv.ReaderObj) (rest : list string),
    lf_terminated text = true ->
    Csv.Reader_loop self (file_lines text ++ rest) = feed self text rest.
Proof.
  induction text as [|c t IH]; intros self rest Hlf; [reflexivity|].
  cbn [feed file_lines].
  destruct (ascii_eqb c LF) eqn:Hc.
  - assert (Ht : lf_terminated t = true)
      by (destruct t; [reflexivity | exact Hlf]).
    rewrite <- app_comm_cons, Reader_loop_cons_char.
    destruct (ascii_eqb c NUL); [reflexivity|].
    destruct (Csv.parse_process_char self c) as [self1| |]; simpl;
      try reflexivity.
    destruct (Csv.parse_process_char self1 NUL) as [self2| |]; simpl;
      try reflexivity.
    destruct (bool_decide (Csv.state self2 = Csv.START_RECORD));
      [reflexivity|].
    now apply IH.
  - destruct t as [|c' t'].
    + simpl in Hlf. congruence.
    + assert (Ht : lf_terminated (String c' t') = true) by exact Hlf.
      destruct (file_lines (String c' t')) as [|line more] eqn:Hl.
      * exfalso. exact (file_lines_nonempty c' t' Hl).
      * rewrite <- app_comm_cons, Reader_loop_cons_char.
        destruct (ascii_eqb c NUL); [reflexivity|].
        destruct (Csv.parse_process_char self c) as [self1| |];
          cbn [bind]; try reflexivity.
        rewrite <- (IH self1 rest Ht). reflexivity.
Qed.

(** Evaluate the comparisons of two known characters. *)
Ltac eval_eqb :=
  repeat match goal with
         | |- context [ascii_eqb ?a ?b] =>
             let v := eval vm_compute in (ascii_eqb a b) in
             match v with
             | true => change (ascii_eqb a b) with true
             | false => change (ascii_eqb a b) with false
             end
         | |- context [Csv.is_eol ?a] =>
             let v := eval vm_compute in (Csv.is_eol a) in
             match v with
             | true => change (Csv.is_eol a) with true
             | false => change (Csv.is_eol a) with false
             end
         end.

Ltac reader_step :=
  unfold Csv.parse_process_char, Csv.parse_save_field, Csv.set_state;
  cbn [Csv.state Csv.field Csv.field_len Csv.fields];
  eval_eqb; cbv iota; cbn [orb andb bind Csv.state Csv.field Csv.field_len Csv.fields].

Section ReaderOnWriter.

Import Csv.

Lemma str_app_nil (t : string) : EmptyString +:+ t = t.
Proof. reflexivity. Qed.

Lemma str_app_cons (c : ascii) (s t : string) :
  String c s +:+ t = String c (s +:+ t).
Proof. reflexivity. Qed.

Lemma str_app_assoc (a b c : string) : (a +:+ b) +:+ c = a +:+ (b +:+ c).
Proof.
  induction a as [|x a IH]; [reflexivity|].
  rewrite !str_app_cons. f_equal. exact IH.
Qed.

Lemma saved_field (f : string) :
  string_of_list_ascii (rev (rev (chars f) ++ [])) = f.
Proof.
  rewrite app_nil_r, rev_involutive. apply string_of_list_ascii_of_string.
Qed.

Lemma plain_spec (c : ascii) :
  plain c = true ->
  ascii_eqb c NUL = false /\ ascii_eqb c delimiter = false /\
  ascii_eqb c quotechar = false /\ is_eol c = false /\
  ascii_eqb c LF = false.
Proof.
  unfold plain, is_eol, lineterminator; simpl.
  destruct (ascii_eqb c NUL), (ascii_eqb c delimiter),
    (ascii_eqb c quotechar), (ascii_eqb c CR), (ascii_eqb c LF);
    simpl; intros H; try discriminate H; repeat split.
Qed.

(** What [join_append_data] returns for a field without NUL. *)
Lemma join_append_data_unquoted (f : string) :
  str_all (fun c => negb (ascii_eqb c NUL)) f = true ->
  (join_append_data f).2 = false ->
  str_all plain f = true /\ (join_append_data f).1 = f.
Proof.
  induction f as [|c f IH]; [split; reflexivity|].
  cbn [str_all join_append_data].
  intros [Hc Hf]%andb_prop. apply negb_true_iff in Hc. rewrite Hc.
  destruct (join_append_data f) as [out quoted] eqn:E.
  cbn [fst snd] in IH.
  unfold plain at 1. rewrite Hc. cbn [negb andb].
  destruct (ascii_eqb c delimiter || ascii_eqb c quotechar
            || in_string c lineterminator) eqn:Hs.
  - destruct (ascii_eqb c quotechar); cbn [snd]; intros Hq;
      discriminate Hq.
  - cbn [fst snd negb andb]. intros Hq. destruct (IH Hf Hq) as [Hp Ho].
    split; [exact Hp | now rewrite Ho].
Qed.

(** The characters of an unquoted field, read one by one. *)
Lemma feed_plain (f : string) :
  forall (fld : list ascii) (len : Z) (fs : list string)
         (k : string) (rest : list string),
    str_all plain f = true ->
    0 <= len -> len + Z.of_nat (String.length f) <= field_limit ->
    feed (mkReader IN_FIELD fld len fs) (f +:+ k) rest
    = feed (mkReader IN_FIELD (rev (chars f) ++ fld)
              (len + Z.of_nat (String.length f)) fs) k rest.
Proof.
  induction f as [|c f IH]; intros fld len fs k rest Hp Hlen Hlim.
  - rewrite str_app_nil. cbn [chars list_ascii_of_string rev app String.length].
    now rewrite Z.add_0_r.
  - cbn [str_all] in Hp. apply andb_prop in Hp as [Hc Hf].
    destruct (plain_spec c Hc) as (Hn & Hd & Hq & He & Hl).
    change (String.length (String c f)) with (S (String.length f)) in Hlim.
    rewrite str_app_cons. cbn [feed]. rewrite Hn.
    unfold parse_process_char; cbn [state].
    rewrite He, Hn, Hd. cbn [orb].
    unfold parse_add_char; cbn [field_len state field fields].
    rewrite (proj2 (Z.leb_gt field_limit len)) by lia.
    cbn [bind]. rewrite Hl.
    rewrite IH by (try assumption; lia).
    change (String.length (String c f)) with (S (String.length f)).
    cbn [chars list_ascii_of_string rev]. rewrite <- app_assoc.
    cbn [app]. do 2 f_equal. lia.
Qed.

(** The characters of a quoted field, read one by one: a doubled quote
    gives one quote, and a line feed is followed by the end-of-line
    call, which a quoted field ignores. *)
Lemma feed_quoted (f : string) :
  forall (fld : list ascii) (len : Z) (fs : list string)
         (k : string) (rest : list string),
    str_all (fun c => negb (ascii_eqb c NUL)) f = true ->
    0 <= len -> len + Z.of_nat (String.length f) <= field_limit ->
    feed (mkReader IN_QUOTED_FIELD fld len fs)
         ((join_append_data f).1 +:+ k) rest
    = feed (mkReader IN_QUOTED_FIELD (rev (chars f) ++ fld)
              (len + Z.of_nat (String.length f)) fs) k rest.
Proof.
  induction f as [|c f IH]; intros fld len fs k rest Hp Hlen Hlim.
  - rewrite str_app_nil. cbn [chars list_ascii_of_string rev app String.length].
    now rewrite Z.add_0_r.
  - cbn [str_all] in Hp. apply andb_prop in Hp as [Hc Hf].
    apply negb_true_iff in Hc.
    change (String.length (String c f)) with (S (String.length f)) in Hlim.
    assert (Hgo : feed (mkReader IN_QUOTED_FIELD (c :: fld) (len + 1) fs)
                       ((join_append_data f).1 +:+ k) rest
                  = feed (mkReader IN_QUOTED_FIELD
                            (rev (chars (String c f)) ++ fld)
                            (len + Z.of_nat (String.length (String c f)))
                            fs) k rest).
    { rewrite IH by (try assumption; lia).
      change (String.length (String c f)) with (S (String.length f)).
      cbn [chars list_ascii_of_string rev].
      rewrite <- app_assoc. cbn [app]. do 2 f_equal. lia. }
    rewrite <- Hgo. clear Hgo IH.
    cbn [join_append_data]. rewrite Hc.
    destruct (join_append_data f) as [out quoted]. cbn [fst].
    assert (Hadd : parse_add_char (mkReader IN_QUOTED_FIELD fld len fs) c
                   = Ok (mkReader IN_QUOTED_FIELD (c :: fld) (len + 1) fs)).
    { unfold parse_add_char; cbn [field_len state field fields].
      now rewrite (proj2 (Z.leb_gt field_limit len)) by lia. }
    destruct (ascii_eqb c quotechar) eqn:Hq.
    + (* a quote, written twice *)
      rewrite orb_true_r. cbn [orb fst]. rewrite !str_app_cons. cbn [feed].
      apply Ascii.eqb_eq in Hq. subst c.
      change (ascii_eqb quotechar NUL) with false.
      change (ascii_eqb quotechar LF) with false. cbv iota.
      unfold parse_process_char at 1; cbn [state].
      change (ascii_eqb quotechar NUL) with false.
      change (ascii_eqb quotechar quotechar) with true.
      cbv iota. unfold set_state at 1.
      cbn [bind state field field_len fields].
      unfold parse_process_char; cbn [state].
      change (ascii_eqb quotechar quotechar) with true. cbv iota.
      unfold parse_add_char, set_state.
      cbn [field_len state field fields].
      rewrite (proj2 (Z.leb_gt field_limit len)) by lia.
      cbn [bind state field field_len fields]. reflexivity.
    + (* any other character *)
      assert (Hout : (if ascii_eqb c delimiter || false
                         || in_string c lineterminator
                      then (String c out, true)
                      else (String c out, quoted)).1 = String c out)
        by (destruct (_ || _); reflexivity).
      rewrite Hout. rewrite str_app_cons. cbn [feed]. rewrite Hc.
      unfold parse_process_char at 1; cbn [state]. rewrite Hc, Hq.
      rewrite Hadd. cbn [bind].
      destruct (ascii_eqb c LF); [|reflexivity].
      unfold parse_process_char; cbn [state].
      change (ascii_eqb NUL NUL) with true. cbv iota. cbn [bind state].
      rewrite bool_decide_eq_false_2 by discriminate. reflexivity.
Qed.


Lemma cell_ok_spec (f : string) :
  cell_ok f = true ->
  str_all (fun c => negb (ascii_eqb c NUL)) f = true /\
  Z.of_nat (String.length f) <= field_limit.
Proof.
  unfold cell_ok. intros [H1 H2]%andb_prop. split; [exact H1|].
  now apply Z.leb_le.
Qed.

(** One written field and the character after it, a delimiter or the
    carriage return of the line end: the reader saves the field. *)
Lemma feed_field (f : string) (qe : bool) (st : ParserState)
    (fs : list string) (d : ascii) (k : string) (rest : list string) :
  cell_ok f = true ->
  st = START_RECORD \/ st = START_FIELD ->
  d = delimiter \/ d = CR ->
  st = START_FIELD \/ d = delimiter \/ f <> EmptyString \/ qe = true ->
  feed (mkReader st [] 0 fs) (join_append f qe +:+ String d k) rest
  = feed (mkReader (if ascii_eqb d delimiter then START_FIELD else EAT_CRNL)
            [] 0 (fs ++ [f])) k rest.
Proof.
  intros Hok Hst Hd Hcase.
  destruct (cell_ok_spec f Hok) as [Hnul Hlen].
  assert (Hlimit : 0 < field_limit) by reflexivity.
  unfold join_append.
  destruct (join_append_data f) as [out quoted] eqn:E.
  destruct (quoted || qe && match out with
                            | EmptyString => true
                            | String _ _ => false
                            end) eqn:Hq.
  - (* the field is written between quotes *)
    rewrite !str_app_cons, str_app_assoc, !str_app_cons, str_app_nil.
    assert (Hopen : feed (mkReader st [] 0 fs)
                      (String quotechar (out +:+ String quotechar (String d k)))
                      rest
                    = feed (mkReader IN_QUOTED_FIELD [] 0 fs)
                        (out +:+ String quotechar (String d k)) rest).
    { cbn [feed]. destruct Hst as [-> | ->]; reader_step; reflexivity. }
    rewrite Hopen.
    replace out with (join_append_data f).1 by now rewrite E.
    rewrite feed_quoted by (try assumption; lia).
    cbn [feed]. reader_step. rewrite Z.add_0_l.
    destruct Hd as [-> | ->]; reader_step; now rewrite saved_field.
  - (* the field is written as it is *)
    apply orb_false_elim in Hq as [Hquoted Hempty].
    subst quoted.
    destruct (join_append_data_unquoted f Hnul) as [Hplain Hout];
      [now rewrite E|].
    rewrite E in Hout. cbn [fst] in Hout. subst out.
    destruct f as [|c f].
    + rewrite str_app_nil. cbn [feed].
      destruct Hst as [-> | ->], Hd as [-> | ->]; reader_step;
        try reflexivity.
      exfalso. destruct Hcase as [Hc|[Hc|[Hc|Hc]]]; try discriminate Hc.
      * now apply Hc.
      * subst qe. discriminate Hempty.
    + cbn [str_all] in Hplain. apply andb_prop in Hplain as [Hc Hf].
      destruct (plain_spec c Hc) as (Hn & Hdl & Hqt & He & Hl).
      change (String.length (String c f)) with (S (String.length f)) in Hlen.
      rewrite str_app_cons.
      assert (Hfirst : feed (mkReader st [] 0 fs)
                         (String c (f +:+ String d k)) rest
                       = feed (mkReader IN_FIELD [c] 1 fs)
                           (f +:+ String d k) rest).
      { cbn [feed]. rewrite Hn.
        destruct Hst as [-> | ->];
          unfold parse_process_char, set_state, parse_add_char;
          cbn [state field field_len fields];
          rewrite ?Hn, ?He, ?Hqt, ?Hdl; cbn [orb];
          rewrite (proj2 (Z.leb_gt field_limit 0)) by lia;
          cbn [bind state field field_len fields]; rewrite Hl;
          reflexivity. }
      rewrite Hfirst.
      rewrite feed_plain by (try assumption; lia).
      cbn [feed].
      assert (Hsaved : string_of_list_ascii (rev (rev (chars f) ++ [c]))
                       = String c f).
      { rewrite rev_app_distr, rev_involutive. cbn [rev app].
        cbn [string_of_list_ascii]. f_equal.
        apply string_of_list_ascii_of_string. }
      destruct Hd as [-> | ->]; reader_step; now rewrite Hsaved.
Qed.

(** The line feed that ends the record, and the end-of-line call. *)
Lemma feed_line_end (fs : list string) (more : string) (rest : list string) :
  feed (mkReader EAT_CRNL [] 0 fs) (String LF more) rest
  = Ok (Some (fs, file_lines more ++ rest)).
Proof.
  cbn [feed]. reader_step.
  rewrite bool_decide_eq_true_2 by reflexivity. reflexivity.
Qed.

End ReaderOnWriter.

Section RecordRoundTrip.

Import Csv.

Lemma lf_terminated_app (a : string) (c : ascii) (t : string) :
  lf_terminated (a +:+ String c t) = lf_terminated (String c t).
Proof.
  induction a as [|x a IH]; [reflexivity|].
  rewrite str_app_cons. cbn [lf_terminated].
  destruct (a +:+ String c t) eqn:E; [|exact IH].
  destruct a; discriminate E.
Qed.

Lemma lf_terminated_cons_lf (t : string) :
  lf_terminated t = true -> lf_terminated (String LF t) = true.
Proof. destruct t; [reflexivity | now intros H]. Qed.

Lemma writerow_text (cells : list string) (more : string) :
  writerow cells +:+ more
  = join_fields (map (fun f => join_append f
                                 (bool_decide (length cells = 1%nat))) cells)
    +:+ String CR (String LF more).
Proof. unfold writerow, lineterminator. now rewrite str_app_assoc. Qed.

Lemma writerow_lf_terminated (cells : list string) (more : string) :
  lf_terminated more = true ->
  lf_terminated (writerow cells +:+ more) = true.
Proof.
  intros H. rewrite writerow_text, lf_terminated_app.
  change (lf_terminated (String CR (String LF more)))
    with (lf_terminated (String LF more)).
  now apply lf_terminated_cons_lf.
Qed.

(** A written record, read from the start of a field. *)
Lemma feed_record (qe : bool) (cells : list string) :
  forall (st : ParserState) (fs : list string) (more : string)
         (rest : list string),
    Forall (fun f => cell_ok f = true) cells ->
    cells <> [] ->
    st = START_FIELD \/
      (st = START_RECORD /\ (qe = true \/ (1 < length cells)%nat)) ->
    feed (mkReader st [] 0 fs)
      (join_fields (map (fun f => join_append f qe) cells)
       +:+ String CR (String LF more)) rest
    = Ok (Some (fs ++ cells, file_lines more ++ rest)).
Proof.
  induction cells as [|f cells IH]; intros st fs more rest Hok Hne Hst;
    [contradiction|].
  apply Forall_cons in Hok as [Hf Hcells].
  destruct cells as [|g cells].
  - cbn [map join_fields].
    rewrite (feed_field f qe st fs CR); try assumption.
    + eval_eqb. cbv iota. apply feed_line_end.
    + destruct Hst as [->|[-> _]]; auto.
    + now right.
    + destruct Hst as [->|[-> [Hq|Hl]]]; auto.
      simpl in Hl. lia.
  - change (join_fields (map (fun f => join_append f qe) (f :: g :: cells)))
      with (join_append f qe +:+
            String delimiter
              (join_fields (map (fun f => join_append f qe) (g :: cells)))).
    rewrite str_app_assoc, str_app_cons.
    rewrite (feed_field f qe st fs delimiter); try assumption.
    + eval_eqb. cbv iota.
      rewrite (IH START_FIELD (fs ++ [f]) more rest Hcells);
        [|discriminate|now left].
      now rewrite <- app_assoc.
    + destruct Hst as [->|[-> _]]; auto.
    + now left.
    + right. now left.
Qed.

(** The reader gets back the cells of a written record, and stops at
    the text that follows it. *)
Lemma Reader_next_writerow (cells : list string) (more : string) :
  Forall (fun f => cell_ok f = true) cells ->
  cells <> [] ->
  lf_terminated more = true ->
  Reader_next (file_lines (writerow cells +:+ more))
  = Ok (Some (cells, file_lines more)).
Proof.
  intros Hok Hne Hmore. unfold Reader_next.
  rewrite <- (app_nil_r (file_lines _)).
  rewrite feed_file_lines by now apply writerow_lf_terminated.
  rewrite writerow_text. unfold parse_reset.
  rewrite feed_record; try assumption.
  - now rewrite app_nil_r.
  - right. split; [reflexivity|].
    destruct cells as [|f [|g cells]]; [contradiction| |].
    + left. reflexivity.
    + right. simpl. lia.
Qed.

End RecordRoundTrip.

Example reader_writer_cells :
  let cells := ["a"; "b,c"; ""; String DQUOTE "x"; String LF (String CR "y")]%string in
  Csv.Reader_next (file_lines (Csv.writerow cells +:+ Csv.writerow ["z"]%string))
  = Ok (Some (cells, file_lines (Csv.writerow ["z"]%string))).
Proof. reflexivity. Qed.

(* ===================================================================== *)
(** * strftime and strptime                                               *)
(* ===================================================================== *)

Lemma digit_char_cases (k : Z) :
  0 <= k <= 9 ->
  digit_val (digit_char k) = Some k /\
  ascii_eqb (digit_char k) "/" = false.
Proof.
  intros H.
  assert (Hk : k = 0 \/ k = 1 \/ k = 2 \/ k = 3 \/ k = 4 \/ k = 5 \/
               k = 6 \/ k = 7 \/ k = 8 \/ k = 9) by lia.
  destruct Hk as [->|[->|[->|[->|[->|[->|[->|[->|[->| ->]]]]]]]]];
    split; reflexivity.
Qed.

Lemma split_on_none (sep : ascii) (a : string) :
  str_all (fun c => negb (ascii_eqb c sep)) a = true ->
  split_on sep a = [a].
Proof.
  induction a as [|c a IH]; [reflexivity|].
  cbn [str_all split_on]. intros [Hc Ha]%andb_prop.
  apply negb_true_iff in Hc. rewrite Hc, (IH Ha). reflexivity.
Qed.

Lemma split_on_app (sep : ascii) (a b : string) :
  str_all (fun c => negb (ascii_eqb c sep)) a = true ->
  split_on sep (a +:+ String sep b) = a :: split_on sep b.
Proof.
  induction a as [|c a IH].
  - intros _. rewrite str_app_nil. cbn [split_on].
    now rewrite Ascii.eqb_refl.
  - cbn [str_all]. intros [Hc Ha]%andb_prop.
    apply negb_true_iff in Hc.
    rewrite str_app_cons. cbn [split_on]. rewrite Hc, (IH Ha). reflexivity.
Qed.

Lemma pad2_no_slash (n : Z) :
  0 <= n <= 99 ->
  str_all (fun c => negb (ascii_eqb c "/")) (pad2 n) = true.
Proof.
  intros H. unfold pad2. cbn [str_all].
  destruct (digit_char_cases (n / 10)) as [_ ->];
    [Z.div_mod_to_equations; lia|].
  destruct (digit_char_cases (n mod 10)) as [_ ->];
    [Z.div_mod_to_equations; lia|].
  reflexivity.
Qed.

Lemma pad4_no_slash (n : Z) :
  0 <= n <= 9999 ->
  str_all (fun c => negb (ascii_eqb c "/")) (pad4 n) = true.
Proof.
  intros H. unfold pad4. cbn [str_all].
  destruct (digit_char_cases (n / 1000)) as [_ ->];
    [Z.div_mod_to_equations; lia|].
  destruct (digit_char_cases (n / 100 mod 10)) as [_ ->];
    [Z.div_mod_to_equations; lia|].
  cbn [negb andb]. apply pad2_no_slash. Z.div_mod_to_equations; lia.
Qed.

Lemma parse_Y_pad4 (n : Z) :
  0 <= n <= 9999 -> parse_Y (pad4 n) = Some n.
Proof.
  intros H. unfold pad4, pad2, parse_Y.
  destruct (digit_char_cases (n / 1000)) as [-> _];
    [Z.div_mod_to_equations; lia|].
  destruct (digit_char_cases (n / 100 mod 10)) as [-> _];
    [Z.div_mod_to_equations; lia|].
  destruct (digit_char_cases (n mod 100 / 10)) as [-> _];
    [Z.div_mod_to_equations; lia|].
  destruct (digit_char_cases (n mod 100 mod 10)) as [-> _];
    [Z.div_mod_to_equations; lia|].
  f_equal. Z.div_mod_to_equations; lia.
Qed.

Ltac enumerate_upto n bound :=
  let k := fresh "k" in
  let Hk := fresh "Hk" in
  let Hlo := fresh "Hlo" in
  assert (Hk : exists k : nat, n = Z.of_nat k /\ (1 <= k <= bound)%nat)
    by (exists (Z.to_nat n); lia);
  destruct Hk as (k & -> & Hlo);
  do 32 (try (destruct k as [|k]; [first [reflexivity | lia]|]));
  lia.

Lemma parse_m_pad2 (m : Z) : 1 <= m <= 12 -> parse_m (pad2 m) = Some m.
Proof. intros H. enumerate_upto m 12%nat. Qed.

Lemma parse_d_pad2 (d : Z) : 1 <= d <= 31 -> parse_d (pad2 d) = Some d.
Proof. intros H. enumerate_upto d 31%nat. Qed.

Lemma make_of_date (a : date) :
  Date.make (Date.year a) (Date.month a) (Date.day a) = Some a.
Proof.
  destruct a as [y m d H]. cbn [Date.year Date.month Date.day].
  unfold Date.make.
  assert (G : forall (b : bool) (e : Date.check_date_fields y m d = b),
             match b as b0
                   return Date.check_date_fields y m d = b0 -> option date
             with
             | true => fun H0 => Some (Date.mkdate y m d H0)
             | false => fun _ => None
             end e = Some (Date.mkdate y m d H)).
  { intros b e. destruct b.
    - do 2 f_equal. apply UIP_dec. apply Bool.bool_dec.
    - congruence. }
  apply G.
Qed.

Lemma days_in_month_le_31 (y m : Z) : Date.days_in_month y m <= 31.
Proof.
  unfold Date.days_in_month, Date.DAYS_IN_MONTH.
  destruct ((m =? 2) && Date.is_leap y); [lia|].
  destruct m as [|p|p]; try lia.
  do 4 (destruct p as [p|p|]; try lia).
Qed.

(** A date from 1900 on is written as mm/dd/yyyy and read back. *)
Lemma strptime_strftime (a : date) :
  1900 <= Date.year a ->
  exists s : string,
    strftime_mdY a = Ok s /\ strptime_mdY s = Ok a /\
    s <> EmptyString /\ String.length s = 10%nat /\
    str_all (fun c => negb (ascii_eqb c NUL)) s = true.
Proof.
  intros Hy.
  destruct (date_bounds a) as (Hyr & Hm & Hd).
  pose proof (days_in_month_le_31 (Date.year a) (Date.month a)) as H31.
  unfold strftime_mdY.
  rewrite (proj2 (Z.ltb_ge (Date.year a) 1900)) by lia.
  eexists. split; [reflexivity|]. split; [|split; [|split]].
  - unfold strptime_mdY.
    change ("/" +:+ pad2 (Date.day a) +:+ "/" +:+ pad4 (Date.year a))
      with (String "/" (pad2 (Date.day a) +:+
                          String "/" (pad4 (Date.year a)))).
    rewrite split_on_app by (apply pad2_no_slash; lia).
    rewrite split_on_app by (apply pad2_no_slash; lia).
    rewrite split_on_none by (apply pad4_no_slash; lia).
    rewrite parse_m_pad2, parse_d_pad2, parse_Y_pad4 by lia.
    now rewrite make_of_date.
  - discriminate.
  - reflexivity.
  - unfold pad4, pad2.
    repeat (rewrite ?str_app_cons, ?str_app_nil; cbn [str_all]).
    assert (Hnn : forall k, 0 <= k <= 9 ->
                    negb (ascii_eqb (digit_char k) NUL) = true).
    { intros k Hk.
      assert (Hc : k = 0 \/ k = 1 \/ k = 2 \/ k = 3 \/ k = 4 \/ k = 5 \/
                   k = 6 \/ k = 7 \/ k = 8 \/ k = 9) by lia.
      destruct Hc as [->|[->|[->|[->|[->|[->|[->|[->|[->| ->]]]]]]]]];
        reflexivity. }
    rewrite !Hnn by (Z.div_mod_to_equations; lia). reflexivity.
Qed.

(* ===================================================================== *)
(** * A Lot and its row                                                   *)
(* ===================================================================== *)

(** The dictionary [write_csv_data] fills is written as its twelve
    values in the order of the columns. *)
Lemma DictWriter_writerow_cells (c1 c2 c3 c4 c5 c6 c7 c8 c9 c10 c11 c12 : string) :
  Csv.DictWriter_writerow FIELD_NAMES
    (<["is_replacement"%string := c12]>
     (<["buy_lot"%string := c11]>
      (<["form_position"%string := c10]>
       (<["adjustment"%string := c9]>
        (<["adjustment_code"%string := c8]>
         (<["proceeds"%string := c7]>
          (<["sell_date"%string := c6]>
           (<["basis"%string := c5]>
            (<["buy_date"%string := c4]>
             (<["description"%string := c3]>
              (<["symbol"%string := c2]>
               (<["num_shares"%string := c1]> ∅))))))))))))
  = Ok (Csv.writerow [c1; c2; c3; c4; c5; c6; c7; c8; c9; c10; c11; c12]).
Proof.
  unfold Csv.DictWriter_writerow.
  match goal with
  | |- context [bool_decide ?P] =>
      replace (bool_decide P) with true by (vm_compute; reflexivity)
  end.
  reflexivity.
Qed.

Ltac eval_lookup :=
  match goal with
  | |- context [@lookup ?K ?V ?M ?I ?k ?m] =>
      let v := eval vm_compute in (@lookup K V M I k m) in
      replace (@lookup K V M I k m) with v by (vm_compute; reflexivity)
  end.

(** Twelve cells whose numbers, dates and truth value convert make a
    Lot of the converted values and the five texts. *)
Lemma Lot_of_cells (c1 c2 c3 c4 c5 c6 c7 c8 c9 c10 c11 c12 : string)
    (n1 n5 n7 n9 : Z) (d4 : date) (d6 : option date) (b12 : bool) :
  convert_to_int (VStr c1) = Ok (VInt n1) ->
  convert_to_date (VStr c4) = Ok (VDate d4) ->
  convert_to_int (VStr c5) = Ok (VInt n5) ->
  convert_to_date (VStr c6)
    = Ok (match d6 with Some d => VDate d | None => VNone end) ->
  convert_to_int (VStr c7) = Ok (VInt n7) ->
  convert_to_int (VStr c9) = Ok (VInt n9) ->
  convert_to_bool (VStr c12) = Ok (VBool b12) ->
  (row <- convert_row
            (Csv.DictReader_row FIELD_NAMES
               [c1; c2; c3; c4; c5; c6; c7; c8; c9; c10; c11; c12]) ;;
   Lot_of_kwargs row)
  = Ok (Lot__init__ n1 c2 c3 d4 n5 d6 n7 c8 n9 c10 c11 b12).
Proof.
  intros H1 H4 H5 H6 H7 H9 H12.
  unfold convert_row, convert_item, getitem.
  do 7 (eval_lookup; cbn [or_raise bind];
        rewrite ?H1, ?H4, ?H5, ?H6, ?H7, ?H9, ?H12; cbn [bind]).
  unfold Lot_of_kwargs.
  eval_lookup.
  replace (bool_decide (is_Some (@None pyval))) with false
    by (symmetry; apply bool_decide_eq_false_2; intros [? ?]; discriminate).
  unfold kw_int, kw_str, kw_date, kw_opt_date, kw_buy_lot, kw_bool.
  repeat (eval_lookup; cbn [bind]).
  destruct d6; reflexivity.
Qed.

Lemma convert_to_int_from_int (n : Z) :
  convert_to_int (VStr (convert_from_int n)) = Ok (VInt n).
Proof.
  unfold convert_from_int, truthy_int.
  destruct (Z.eqb_spec n 0) as [->|Hn]; [reflexivity|].
  cbn [negb]. unfold convert_to_int. cbn [truthy].
  destruct (py_str n) as [|c s] eqn:E.
  - exfalso. exact (py_str_nonempty n E).
  - cbn [truthy_str]. rewrite <- E, py_int_py_str. reflexivity.
Qed.

Lemma convert_to_bool_from_bool (b : bool) :
  convert_to_bool (VStr (convert_from_bool b)) = Ok (VBool b).
Proof. destruct b; reflexivity. Qed.

Lemma convert_from_int_ok (n : Z) :
  cell_ok (py_str n) = true -> cell_ok (convert_from_int n) = true.
Proof.
  intros H. unfold convert_from_int. now destruct (truthy_int n).
Qed.

Lemma date_cell_ok (s : string) :
  String.length s = 10%nat ->
  str_all (fun c => negb (ascii_eqb c NUL)) s = true ->
  cell_ok s = true.
Proof. intros Hl Hn. unfold cell_ok. now rewrite Hn, Hl. Qed.

(** A Lot the csv module can carry is written as one record of twelve
    good cells, and these cells convert back to the Lot's twelve
    persisted fields. *)
Lemma lot_row (lot : Lot) :
  csv_safe lot = true ->
  exists cells : list string,
    (row <- row_of_lot lot ;; Csv.DictWriter_writerow FIELD_NAMES row)
      = Ok (Csv.writerow cells) /\
    Forall (fun f => cell_ok f = true) cells /\
    cells <> [] /\
    (row <- convert_row (Csv.DictReader_row FIELD_NAMES cells) ;;
     Lot_of_kwargs row) = Ok (reread lot).
Proof.
  unfold csv_safe. intros Hs.
  apply andb_prop in Hs as [Hs Hcells].
  apply andb_prop in Hs as [Hbuy Hsell].
  apply Z.leb_le in Hbuy.
  cbn [forallb] in Hcells.
  repeat (apply andb_prop in Hcells as [? Hcells]).
  destruct (strptime_strftime (buy_date lot) Hbuy)
    as (b & Hb1 & Hb2 & Hb3 & Hb4 & Hb5).
  assert (Hsd : exists s : string,
             convert_from_date (sell_date lot) = Ok s /\
             cell_ok s = true /\
             convert_to_date (VStr s)
             = Ok (match sell_date lot with
                   | Some d => VDate d
                   | None => VNone
                   end)).
  { destruct (sell_date lot) as [d|].
    - apply Z.leb_le in Hsell.
      destruct (strptime_strftime d Hsell) as (s & Hs1 & Hs2 & Hs3 & Hs4 & Hs5).
      exists s. split; [exact Hs1|]. split; [now apply date_cell_ok|].
      unfold convert_to_date. cbn [truthy].
      destruct s; [contradiction|]. cbn [truthy_str]. now rewrite Hs2.
    - exists EmptyString. repeat split. }
  destruct Hsd as (s & Hs1 & Hs2 & Hs3).
  exists [convert_from_int (num_shares lot); symbol lot; description lot; b;
          convert_from_int (basis lot); s; convert_from_int (proceeds lot);
          adjustment_code lot; convert_from_int (adjustment lot);
          form_position lot; buy_lot lot;
          convert_from_bool (is_replacement lot)].
  split; [|split; [|split]].
  - unfold row_of_lot. cbn [convert_from_date]. rewrite Hb1, Hs1.
    cbn [bind]. apply DictWriter_writerow_cells.
  - repeat (apply Forall_cons; split);
      auto using convert_from_int_ok, date_cell_ok.
    destruct (is_replacement lot); reflexivity.
  - discriminate.
  - apply Lot_of_cells;
      auto using convert_to_int_from_int, convert_to_bool_from_bool.
    unfold convert_to_date. cbn [truthy].
    destruct b; [contradiction|]. cbn [truthy_str]. now rewrite Hb2.
Qed.

(* ===================================================================== *)
(** * The round trip                                                      *)
(* ===================================================================== *)

Lemma bind_Ok_inv {A B : Type} (r : result A) (k : A -> result B) (b : B) :
  bind r k = Ok b -> exists a, r = Ok a /\ k a = Ok b.
Proof. destruct r; simpl; try discriminate. eauto. Qed.

(** The rows of the Lots, written. *)
Lemma write_rows_text (ls : list Lot) :
  Forall (fun lot => csv_safe lot = true) ls ->
  exists text : string,
    write_rows ls = Ok text /\
    lf_terminated text = true /\
    forall (h : heap) (refs : list nat),
      read_rows h refs (file_lines text)
      = Ok (h ++ map reread ls, refs ++ seq (length h) (length ls)).
Proof.
  induction ls as [|lot ls IH]; intros Hsafe.
  - exists EmptyString. split; [reflexivity|]. split; [reflexivity|].
    intros h refs. rewrite read_rows_eq, DictReader_next_eq.
    cbn. now rewrite !app_nil_r.
  - apply Forall_cons in Hsafe as [Hlot Hls].
    destruct (IH Hls) as (more & Hw & Hlf & Hread).
    destruct (lot_row lot Hlot) as (cells & Hrow & Hok & Hne & Hback).
    apply bind_Ok_inv in Hrow as (row & Hrow1 & Hrow2).
    apply bind_Ok_inv in Hback as (row' & Hback1 & Hback2).
    exists (Csv.writerow cells +:+ more).
    split; [|split].
    + cbn [write_rows]. rewrite Hrow1. cbn [bind]. rewrite Hrow2.
      cbn [bind]. rewrite Hw. reflexivity.
    + now apply writerow_lf_terminated.
    + intros h refs.
      rewrite read_rows_eq, DictReader_next_eq.
      rewrite (Reader_next_writerow cells more Hok Hne Hlf).
      destruct cells as [|c cells]; [contradiction|].
      rewrite Hback1. cbn [bind]. rewrite Hback2. cbn [bind].
      unfold new_Lot. cbn [fst snd].
      rewrite Hread. cbn [map length seq].
      rewrite length_app. cbn [length].
      rewrite <- !app_assoc. cbn [app].
      now rewrite Nat.add_1_r.
Qed.

(** The constructor changes nothing when every Lot has its [buy_lot]. *)
Lemma Lots_init_loop_named (refs : list nat) (i : Z) (h : heap) :
  Forall (fun r => forall lot, h !! r = Some lot ->
                     buy_lot lot <> EmptyString) refs ->
  Lots_init_loop i h refs = h.
Proof.
  revert i. induction refs as [|r refs IH]; intros i Hall; [reflexivity|].
  apply Forall_cons in Hall as [Hr Hrefs]. cbn [Lots_init_loop].
  destruct (h !! r) as [lot|] eqn:E; [|now apply IH].
  destruct (truthy_str (buy_lot lot)) eqn:Ht; cbn [negb]; [now apply IH|].
  apply truthy_str_false in Ht. exfalso. exact (Hr lot eq_refl Ht).
Qed.

Lemma lots_new (h : heap) (ls : list Lot) :
  lots (h ++ ls) (mkLots (seq (length h) (length ls))) = ls.
Proof.
  unfold lots; cbn [_lots]. revert h.
  induction ls as [|lot ls IH]; intros h; [reflexivity|].
  cbn [length seq omap list_omap].
  rewrite (list_lookup_middle h ls lot (length h) eq_refl).
  f_equal.
  replace (h ++ lot :: ls) with ((h ++ [lot]) ++ ls)
    by now rewrite <- app_assoc.
  replace (S (length h)) with (length (h ++ [lot]))
    by (rewrite length_app; simpl; lia).
  apply IH.
Qed.

Lemma lots_allocated (h more : heap) (self : Lots) :
  allocated h self -> lots (h ++ more) self = lots h self.
Proof.
  unfold allocated, lots. induction (_lots self) as [|r refs IH];
    intros Hall; [reflexivity|].
  apply Forall_cons in Hall as [Hr Hrefs].
  cbn [omap list_omap].
  rewrite (lookup_app_l h more r Hr), (IH Hrefs). reflexivity.
Qed.

Lemma Lot__eq__reread (lot : Lot) : Lot__eq__ (reread lot) lot = true.
Proof.
  unfold Lot__eq__, reread, Lot__init__. simpl.
  rewrite !bool_decide_eq_true_2 by reflexivity. reflexivity.
Qed.

Lemma forallb_zip_reread (ls : list Lot) :
  forallb (fun pair => Lot__eq__ pair.1 pair.2) (zip (map reread ls) ls)
  = true.
Proof.
  induction ls as [|lot ls IH]; [reflexivity|].
  cbn [map zip zip_with forallb fst snd].
  now rewrite Lot__eq__reread, IH.
Qed.

Lemma header_written :
  Csv.DictWriter_writerow FIELD_NAMES HEADERS
  = Ok (Csv.writerow (header_labels HEADERS)).
Proof. by_evaluation. Qed.

Lemma forallb_Forall {A : Type} (p : A -> bool) (l : list A) :
  forallb p l = true -> Forall (fun x => p x = true) l.
Proof.
  induction l as [|x l IH]; cbn [forallb]; [constructor|].
  intros [Hx Hl]%andb_prop. constructor; auto.
Qed.

Lemma header_labels_ok :
  Forall (fun f => cell_ok f = true) (header_labels HEADERS).
Proof. apply forallb_Forall. vm_compute. reflexivity. Qed.

Lemma lots_length (h : heap) (self : Lots) :
  allocated h self -> length (lots h self) = size self.
Proof.
  unfold allocated, lots, size. induction (_lots self) as [|r refs IH];
    intros Hall; [reflexivity|].
  apply Forall_cons in Hall as [Hr Hrefs]. cbn [omap list_omap].
  destruct (lookup_lt_is_Some_2 h r Hr) as [lot ->].
  cbn [length]. now rewrite (IH Hrefs).
Qed.

Lemma new_lots_named (h : heap) (ls : list Lot) :
  Forall (fun lot => buy_lot lot <> EmptyString) ls ->
  Forall (fun r => forall lot, (h ++ map reread ls) !! r = Some lot ->
                     buy_lot lot <> EmptyString)
         (seq (length h) (length ls)).
Proof.
  intros Hall. apply Forall_forall. intros r Hr lot Hlot.
  apply elem_of_seq in Hr.
  rewrite lookup_app_r in Hlot by lia.
  apply list_elem_of_lookup_2 in Hlot.
  apply list_elem_of_fmap in Hlot as (l & -> & Hl).
  rewrite Forall_forall in Hall. exact (Hall l Hl).
Qed.

(** C1, amended: a collection whose Lots all have a [buy_lot], dates of
    1900 or later, and texts and numbers that are cells the csv module
    takes as they are, is written, parsed from the lines of the written
    text, and the parsed collection has the same number of Lots and is
    equal to the written one by [Lots.__eq__]. *)
Theorem C1_csv_round_trip (h : heap) (self : Lots) :
  allocated h self ->
  Forall (fun lot => buy_lot lot <> EmptyString) (lots h self) ->
  Forall (fun lot => csv_safe lot = true) (lots h self) ->
  round_trip h self.
Proof.
  intros Halloc Hnamed Hsafe.
  destruct (write_rows_text (lots h self) Hsafe) as (rows & Hw & Hlf & Hread).
  set (written := map reread (lots h self)).
  exists (Csv.writerow (header_labels HEADERS) +:+ rows),
         (h ++ written),
         (mkLots (seq (length h) (length (lots h self)))).
  split; [|split; [|split]].
  - unfold write_csv_data. rewrite header_written. cbn [bind].
    rewrite Hw. reflexivity.
  - unfold create_from_csv_data.
    rewrite DictReader_next_eq.
    rewrite (Reader_next_writerow _ rows header_labels_ok) by
      (try assumption; intros E; vm_compute in E; discriminate E).
    destruct (header_labels HEADERS) as [|label labels] eqn:E;
      [vm_compute in E; discriminate E|].
    rewrite <- E. cbn [bind].
    rewrite (bool_decide_eq_false_2
               (Csv.DictReader_row FIELD_NAMES (header_labels HEADERS)
                <> as_pydict HEADERS)).
    + cbn [andb]. rewrite Hread. cbn [bind fst snd app].
      unfold Lots__init__.
      rewrite Lots_init_loop_named by now apply new_lots_named.
      reflexivity.
    + intros Hn. apply Hn. now apply header_row_HEADERS.
  - unfold size; cbn [_lots]. rewrite length_seq.
    now apply lots_length.
  - rewrite Lots__eq__zip.
    replace (length (lots h self)) with (length written)
      by (unfold written; apply length_map).
    rewrite lots_new, (lots_allocated h written self Halloc).
    apply forallb_zip_reread.
Qed.

Lemma round_trip_outcome_true (h : heap) (self : Lots) :
  round_trip h self -> round_trip_outcome h self = Ok true.
Proof.
  intros (text & h' & parsed & Hw & Hr & _ & He).
  unfold round_trip_outcome. rewrite Hw. cbn [bind]. rewrite Hr.
  cbn [bind fst snd]. now rewrite He.
Qed.

Lemma named_by_evaluation (ls : list Lot) :
  forallb (fun lot => truthy_str (buy_lot lot)) ls = true ->
  Forall (fun lot => buy_lot lot <> EmptyString) ls.
Proof.
  intros H%forallb_Forall. eapply Forall_impl; [exact H|].
  intros lot Ht He. cbn beta in Ht. rewrite He in Ht. discriminate Ht.
Qed.

(** Two Lots, one of them with a description that has to be quoted,
    come back from the written text. *)
Lemma C1_csv_round_trip_witness :
  round_trip [quoted_lot; sample_lot 20 "b" "lot2"] (mkLots [0; 1]%nat).
Proof.
  apply (C1_csv_round_trip [quoted_lot; sample_lot 20 "b" "lot2"]
           (mkLots [0; 1]%nat)).
  - unfold allocated; cbn [_lots length]. repeat constructor.
  - apply named_by_evaluation. vm_compute. reflexivity.
  - apply forallb_Forall. vm_compute. reflexivity.
Defined.

(** The claim as it is worded fails.  Each of these collections has a
    single Lot with a [buy_lot]; the first is not written, because
    [strftime] refuses its year; the second is written without the part
    of its symbol from the NUL on, and so parsed into another Lot; the
    third is written and not parsed, because its description is longer
    than the reader's field size limit. *)
Lemma C1_csv_round_trip_counterexample :
  (Forall (fun lot => buy_lot lot <> EmptyString)
          (lots [old_lot] (mkLots [0%nat])) /\
   write_csv_data [old_lot] (mkLots [0%nat]) = Raise ValueError /\
   ~ round_trip [old_lot] (mkLots [0%nat])) /\
  (Forall (fun lot => buy_lot lot <> EmptyString)
          (lots [nul_lot] (mkLots [0%nat])) /\
   round_trip_outcome [nul_lot] (mkLots [0%nat]) = Ok false /\
   ~ round_trip [nul_lot] (mkLots [0%nat])) /\
  (Forall (fun lot => buy_lot lot <> EmptyString)
          (lots [long_lot] (mkLots [0%nat])) /\
   round_trip_outcome [long_lot] (mkLots [0%nat]) = Raise csv_Error /\
   ~ round_trip [long_lot] (mkLots [0%nat])).
Proof.
  assert (Hold : round_trip_outcome [old_lot] (mkLots [0%nat])
                 = Raise ValueError) by (vm_compute; reflexivity).
  assert (Hnul : round_trip_outcome [nul_lot] (mkLots [0%nat]) = Ok false)
    by (vm_compute; reflexivity).
  assert (Hlong : round_trip_outcome [long_lot] (mkLots [0%nat])
                  = Raise csv_Error) by (vm_compute; reflexivity).
  split; [|split]; (split; [|split]).
  - apply named_by_evaluation. vm_compute. reflexivity.
  - vm_compute. reflexivity.
  - intros H%round_trip_outcome_true. rewrite Hold in H. discriminate H.
  - apply named_by_evaluation. vm_compute. reflexivity.
  - exact Hnul.
  - intros H%round_trip_outcome_true. rewrite Hnul in H. discriminate H.
  - apply named_by_evaluation. vm_compute. reflexivity.
  - exact Hlong.
  - intros H%round_trip_outcome_true. rewrite Hlong in H. discriminate H.
Qed.

(* ===================================================================== *)
(** * Further properties: the comparators as orders                        *)
(* ===================================================================== *)

Lemma KeyOrder_le_trans {A K : Type} (key : A -> K)
    (c : A -> A -> comparison) (x y z : A) :
  KeyOrder key c -> c x y <> Gt -> c y z <> Gt -> c x z <> Gt.
Proof.
  intros [Heq Hopp Htr] Hxy Hyz Hxz.
  assert (Ezx : c z x = Lt) by (rewrite Hopp, Hxz; reflexivity).
  destruct (c x y) eqn:E1; [| |contradiction];
    destruct (c y z) eqn:E2; [| |contradiction| | |contradiction].
  - apply Heq in E1. apply Heq in E2.
    assert (E : c x z = Eq) by (apply Heq; congruence). congruence.
  - apply Heq in E1. pose proof (Htr y z x E2 Ezx) as Hyx.
    assert (E : c y x = Eq) by (apply Heq; congruence). congruence.
  - apply Heq in E2. pose proof (Htr z x y Ezx E1) as Hzy.
    assert (E : c z y = Eq) by (apply Heq; congruence). congruence.
  - pose proof (Htr x y z E1 E2). congruence.
Qed.

(** Comparing by a first key and, on equal first keys, by a second. *)
Lemma KeyOrder_chain {A K1 K2 : Type} (k1 : A -> K1) (k2 : A -> K2)
    (c1 c2 : A -> A -> comparison) :
  KeyOrder k1 c1 -> KeyOrder k2 c2 ->
  KeyOrder (fun x => (k1 x, k2 x)) (fun x y => chain (c1 x y) (c2 x y)).
Proof.
  intros [Heq1 Hopp1 Htr1] [Heq2 Hopp2 Htr2]. split.
  - intros x y. unfold chain. split.
    + destruct (c1 x y) eqn:E1; try discriminate.
      intros E2. apply Heq1 in E1. apply Heq2 in E2. congruence.
    + intros [= H1 H2]. apply Heq1 in H1. apply Heq2 in H2.
      now rewrite H1.
  - intros x y. unfold chain. rewrite (Hopp1 x y), (Hopp2 x y).
    destruct (c1 x y); reflexivity.
  - intros x y z. unfold chain.
    destruct (c1 x y) eqn:E1; try discriminate.
    + apply Heq1 in E1. intros Hxy.
      destruct (c1 y z) eqn:E2; try discriminate.
      * apply Heq1 in E2. intros Hyz.
        assert (E : c1 x z = Eq) by (apply Heq1; congruence).
        rewrite E. eauto.
      * intros _.
        destruct (c1 x z) eqn:E3; try reflexivity.
        -- apply Heq1 in E3.
           assert (E : c1 y z = Eq) by (apply Heq1; congruence). congruence.
        -- (* z < x ~ y contradicts y < z *)
           assert (Ezx : c1 z x = Lt) by (rewrite Hopp1, E3; reflexivity).
           pose proof (Htr1 y z x E2 Ezx) as Hyx.
           assert (E : c1 y x = Eq) by (apply Heq1; congruence). congruence.
    + intros _.
      destruct (c1 y z) eqn:E2; try discriminate.
      * apply Heq1 in E2. intros _.
        destruct (c1 x z) eqn:E3; try reflexivity.
        -- apply Heq1 in E3.
           assert (E : c1 x y = Eq) by (apply Heq1; congruence). congruence.
        -- assert (Ezx : c1 z x = Lt) by (rewrite Hopp1, E3; reflexivity).
           pose proof (Htr1 z x y Ezx E1) as Hzy.
           assert (E : c1 z y = Eq) by (apply Heq1; congruence). congruence.
      * intros _. now rewrite (Htr1 x y z E1 E2).
Qed.

Lemma KeyOrder_on {A B K : Type} (f : A -> B) (key : B -> K)
    (c : B -> B -> comparison) :
  KeyOrder key c -> KeyOrder (fun x => key (f x)) (fun x y => c (f x) (f y)).
Proof. intros [He Ho Ht]. split; eauto. Qed.

Lemma date_compare_ordinal (a b : date) :
  Date.compare a b = (Date.toordinal a ?= Date.toordinal b).
Proof.
  rewrite <- days_between_sign. unfold Date.days_between.
  destruct (Z.compare_spec (Date.toordinal a) (Date.toordinal b)).
  - apply Z.compare_eq_iff. lia.
  - apply Z.compare_lt_iff. lia.
  - apply Z.compare_gt_iff. lia.
Qed.

Lemma KeyOrder_date : KeyOrder (fun d : date => d) Date.compare.
Proof.
  split.
  - apply date_compare_eq_iff.
  - apply date_compare_antisym.
  - intros x y z. rewrite !date_compare_ordinal, !Z.compare_lt_iff. lia.
Qed.

Lemma KeyOrder_absent_last :
  KeyOrder (fun d : option date => d) compare_absent_last.
Proof.
  destruct KeyOrder_date as [He Ho Ht]. split.
  - apply compare_absent_last_eq.
  - intros [x|] [y|]; simpl; try reflexivity. apply Ho.
  - intros [x|] [y|] [z|]; simpl; try discriminate; try reflexivity.
    apply Ht.
Qed.

Lemma ascii_compare_lt_trans (a b c : ascii) :
  Ascii.compare a b = Lt -> Ascii.compare b c = Lt -> Ascii.compare a c = Lt.
Proof. unfold Ascii.compare. rewrite !N.compare_lt_iff. lia. Qed.

Lemma KeyOrder_string : KeyOrder (fun s : string => s) String.compare.
Proof.
  split.
  - intros x y. split; [apply String.compare_eq_iff|].
    intros ->. apply str_compare_refl.
  - intros x y. apply String.compare_antisym.
  - intros x. induction x as [|a x IH]; intros [|b y] [|c z]; simpl;
      try discriminate; try reflexivity.
    destruct (Ascii.compare a b) eqn:E1; try discriminate.
    + apply Ascii.compare_eq_iff in E1. subst b.
      destruct (Ascii.compare a c); try discriminate; auto. apply IH.
    + intros _. destruct (Ascii.compare b c) eqn:E2; try discriminate.
      * apply Ascii.compare_eq_iff in E2. subst c. now rewrite E1.
      * intros _. now rewrite (ascii_compare_lt_trans a b c E1 E2).
Qed.

Lemma KeyOrder_byBuyDate : KeyOrder buy_key byBuyDate.
Proof.
  pose proof (KeyOrder_chain buy_date
                (fun a => (sell_date a, form_position a))
                (fun a b => Date.compare (buy_date a) (buy_date b))
                (fun a b => chain
                   (compare_absent_last (sell_date a) (sell_date b))
                   (String.compare (form_position a) (form_position b)))
                (KeyOrder_on buy_date _ _ KeyOrder_date)
                (KeyOrder_chain sell_date form_position _ _
                   (KeyOrder_on sell_date _ _ KeyOrder_absent_last)
                   (KeyOrder_on form_position _ _ KeyOrder_string)))
    as [He Ho Ht].
  split.
  - intros x y. rewrite (He x y). unfold buy_key. split; congruence.
  - exact Ho.
  - exact Ht.
Qed.

Lemma KeyOrder_bySellDate : KeyOrder sell_key bySellDate.
Proof.
  pose proof (KeyOrder_chain sell_date
                (fun a => (buy_date a, form_position a))
                (fun a b => compare_absent_last (sell_date a) (sell_date b))
                (fun a b => chain
                   (Date.compare (buy_date a) (buy_date b))
                   (String.compare (form_position a) (form_position b)))
                (KeyOrder_on sell_date _ _ KeyOrder_absent_last)
                (KeyOrder_chain buy_date form_position _ _
                   (KeyOrder_on buy_date _ _ KeyOrder_date)
                   (KeyOrder_on form_position _ _ KeyOrder_string)))
    as [He Ho Ht].
  split.
  - intros x y. rewrite (He x y). unfold sell_key. split; congruence.
  - exact Ho.
  - exact Ht.
Qed.

Lemma cmp_by_buy_date_sign (a b : Lot) :
  sign_of (cmp_by_buy_date a b) = byBuyDate a b.
Proof.
  unfold cmp_by_buy_date, byBuyDate.
  destruct (decide (buy_date a = buy_date b)) as [Eb|Nb].
  - rewrite bool_decide_eq_false_2 by (intros H; exact (H Eb)).
    rewrite (proj2 (date_compare_eq_iff _ _) Eb); simpl.
    destruct (decide (sell_date a = sell_date b)) as [Es|Ns].
    + rewrite bool_decide_eq_false_2 by (intros H; exact (H Es)).
      rewrite (proj2 (compare_absent_last_eq _ _) Es); simpl.
      destruct (decide (form_position a = form_position b)) as [Ef|Nf].
      * rewrite bool_decide_eq_false_2 by (intros H; exact (H Ef)).
        rewrite Ef, str_compare_refl. reflexivity.
      * rewrite bool_decide_eq_true_2 by exact Nf.
        now apply position_sign.
    + rewrite bool_decide_eq_true_2 by exact Ns.
      rewrite (sell_sign _ _ Ns).
      destruct (compare_absent_last (sell_date a) (sell_date b)) eqn:E;
        try reflexivity.
      apply compare_absent_last_eq in E. contradiction.
  - rewrite bool_decide_eq_true_2 by exact Nb.
    unfold sign_of. rewrite days_between_sign.
    destruct (Date.compare (buy_date a) (buy_date b)) eqn:E; try reflexivity.
    apply date_compare_eq_iff in E. contradiction.
Qed.

Lemma cmp_by_sell_date_sign (a b : Lot) :
  sign_of (cmp_by_sell_date a b) = bySellDate a b.
Proof.
  unfold cmp_by_sell_date, bySellDate.
  destruct (decide (sell_date a = sell_date b)) as [Es|Ns].
  - rewrite bool_decide_eq_false_2 by (intros H; exact (H Es)).
    rewrite (proj2 (compare_absent_last_eq _ _) Es); simpl.
    destruct (decide (buy_date a = buy_date b)) as [Eb|Nb].
    + rewrite bool_decide_eq_false_2 by (intros H; exact (H Eb)).
      rewrite (proj2 (date_compare_eq_iff _ _) Eb); simpl.
      destruct (decide (form_position a = form_position b)) as [Ef|Nf].
      * rewrite bool_decide_eq_false_2 by (intros H; exact (H Ef)).
        rewrite Ef, str_compare_refl. reflexivity.
      * rewrite bool_decide_eq_true_2 by exact Nf.
        now apply position_sign.
    + rewrite bool_decide_eq_true_2 by exact Nb.
      unfold sign_of. rewrite days_between_sign.
      destruct (Date.compare (buy_date a) (buy_date b)) eqn:E;
        try reflexivity.
      apply date_compare_eq_iff in E. contradiction.
  - rewrite bool_decide_eq_true_2 by exact Ns.
    rewrite (sell_sign _ _ Ns).
    destruct (compare_absent_last (sell_date a) (sell_date b)) eqn:E;
      try reflexivity.
    apply compare_absent_last_eq in E. contradiction.
Qed.

(** A comparator whose sign is a key order is zero on equal keys only
    and transitive, strictly and weakly. *)
Lemma comparator_order {K : Type} (key : Lot -> K)
    (c : Lot -> Lot -> comparison) (cmp : Lot -> Lot -> Z) :
  KeyOrder key c -> (forall a b, sign_of (cmp a b) = c a b) ->
  forall a b d : Lot,
    (cmp a b = 0 <-> key a = key b) /\
    (cmp a b < 0 -> cmp b d < 0 -> cmp a d < 0) /\
    (cmp a b <= 0 -> cmp b d <= 0 -> cmp a d <= 0).
Proof.
  intros Hko Hsign a b d.
  assert (Hlt : forall x y, cmp x y < 0 <-> c x y = Lt).
  { intros x y. rewrite <- Hsign. unfold sign_of.
    now rewrite Z.compare_lt_iff. }
  assert (Hle : forall x y, cmp x y <= 0 <-> c x y <> Gt).
  { intros x y. rewrite <- Hsign. unfold sign_of.
    now rewrite Z.compare_le_iff. }
  split; [|split].
  - rewrite <- (ko_eq key c Hko). rewrite <- Hsign. unfold sign_of.
    now rewrite Z.compare_eq_iff.
  - rewrite !Hlt. apply (ko_trans key c Hko).
  - rewrite !Hle. now apply KeyOrder_le_trans with (key := key).
Qed.

(** X1: [cmp_by_buy_date] orders Lots by the triple buy date, sell
    date, form position: it is zero exactly on Lots with the same
    triple, and it is transitive, strictly and weakly, so a sort that
    uses it gets a consistent comparator. *)
Theorem X1_cmp_by_buy_date_order (a b c : Lot) :
  (cmp_by_buy_date a b = 0 <-> buy_key a = buy_key b) /\
  (cmp_by_buy_date a b < 0 -> cmp_by_buy_date b c < 0 ->
   cmp_by_buy_date a c < 0) /\
  (cmp_by_buy_date a b <= 0 -> cmp_by_buy_date b c <= 0 ->
   cmp_by_buy_date a c <= 0).
Proof.
  exact (comparator_order buy_key byBuyDate cmp_by_buy_date
           KeyOrder_byBuyDate cmp_by_buy_date_sign a b c).
Qed.

(** X2: [cmp_by_sell_date] orders Lots by the triple sell date, buy
    date, form position: zero exactly on Lots with the same triple, and
    transitive, strictly and weakly. *)
Theorem X2_cmp_by_sell_date_order (a b c : Lot) :
  (cmp_by_sell_date a b = 0 <-> sell_key a = sell_key b) /\
  (cmp_by_sell_date a b < 0 -> cmp_by_sell_date b c < 0 ->
   cmp_by_sell_date a c < 0) /\
  (cmp_by_sell_date a b <= 0 -> cmp_by_sell_date b c <= 0 ->
   cmp_by_sell_date a c <= 0).
Proof.
  exact (comparator_order sell_key bySellDate cmp_by_sell_date
           KeyOrder_bySellDate cmp_by_sell_date_sign a b c).
Qed.

(* ===================================================================== *)
(** * Further properties: the two equalities                               *)
(* ===================================================================== *)

Lemma Lot__eq__spec (a b : Lot) :
  Lot__eq__ a b = true <-> reread a = reread b.
Proof.
  unfold Lot__eq__, reread, Lot__init__. split.
  - intros H. repeat (apply andb_prop in H as [H ?]).
    repeat match goal with
           | E : bool_decide _ = true |- _ => apply bool_decide_eq_true_1 in E
           end.
    congruence.
  - intros [= -> -> -> -> -> -> -> -> -> -> -> ->].
    rewrite !bool_decide_eq_true_2 by reflexivity. reflexivity.
Qed.

Lemma Lot__eq__sym (a b : Lot) : Lot__eq__ a b = Lot__eq__ b a.
Proof.
  destruct (Lot__eq__ a b) eqn:E1, (Lot__eq__ b a) eqn:E2; try reflexivity.
  - apply Lot__eq__spec in E1. symmetry in E1. apply Lot__eq__spec in E1.
    congruence.
  - apply Lot__eq__spec in E2. symmetry in E2. apply Lot__eq__spec in E2.
    congruence.
Qed.

(** X3: [Lot.__eq__] is true exactly when the twelve persisted fields
    agree; so it is reflexive, symmetric and transitive, and it does not
    see [loss_processed]: a Lot equals itself with the flag changed. *)
Theorem X3_Lot_eq_fields (a b c : Lot) (flag : bool) :
  (Lot__eq__ a b = true <-> reread a = reread b) /\
  Lot__eq__ a a = true /\
  Lot__eq__ a b = Lot__eq__ b a /\
  (Lot__eq__ a b = true -> Lot__eq__ b c = true -> Lot__eq__ a c = true) /\
  Lot__eq__ (set_loss_processed a flag) a = true.
Proof.
  split; [apply Lot__eq__spec|].
  split; [now apply Lot__eq__spec|].
  split; [apply Lot__eq__sym|].
  split.
  - rewrite !Lot__eq__spec. congruence.
  - now apply Lot__eq__spec.
Qed.

Lemma forallb_zip_same (ls : list Lot) :
  forallb (fun pair => Lot__eq__ pair.1 pair.2) (zip ls ls) = true.
Proof.
  induction ls as [|lot ls IH]; [reflexivity|].
  cbn [zip zip_with forallb fst snd]. rewrite IH, andb_true_r.
  now apply Lot__eq__spec.
Qed.

Lemma forallb_zip_sym (l k : list Lot) :
  forallb (fun pair => Lot__eq__ pair.1 pair.2) (zip l k)
  = forallb (fun pair => Lot__eq__ pair.1 pair.2) (zip k l).
Proof.
  revert k. induction l as [|a l IH]; intros [|b k]; try reflexivity.
  cbn [zip zip_with forallb fst snd].
  change (zip_with pair l k) with (zip l k).
  change (zip_with pair k l) with (zip k l).
  now rewrite IH, Lot__eq__sym.
Qed.

Lemma forallb_zip_prefix (l more : list Lot) :
  forallb (fun pair => Lot__eq__ pair.1 pair.2) (zip l (l ++ more)) = true.
Proof.
  induction l as [|a l IH]; [reflexivity|].
  cbn [app zip zip_with forallb fst snd].
  change (zip_with pair l (l ++ more)) with (zip l (l ++ more)).
  rewrite IH, andb_true_r. now apply Lot__eq__spec.
Qed.

(** X4: [Lots.__eq__] is reflexive and symmetric, and a collection
    equals each collection it is a prefix of, the empty collection
    every collection; so it is not transitive: two collections that
    differ are both equal to the empty one. *)
Theorem X4_Lots_eq_not_transitive (h : heap) (self other : Lots)
    (more : list nat) :
  Lots__eq__ h self self = true /\
  Lots__eq__ h self other = Lots__eq__ h other self /\
  Lots__eq__ h self (mkLots (_lots self ++ more)) = true /\
  Lots__eq__ h (mkLots []) other = true /\
  exists (h0 : heap) (x y z : Lots),
    Lots__eq__ h0 x y = true /\ Lots__eq__ h0 y z = true /\
    Lots__eq__ h0 x z = false.
Proof.
  rewrite !Lots__eq__zip.
  split; [apply forallb_zip_same|].
  split; [apply forallb_zip_sym|].
  split.
  { unfold lots; cbn [_lots]. rewrite omap_app. apply forallb_zip_prefix. }
  split; [reflexivity|].
  exists [sample_lot 10 "a" "x"; sample_lot 20 "b" "y"],
         (mkLots [0%nat]), (mkLots []), (mkLots [1%nat]).
  split; [|split]; vm_compute; reflexivity.
Qed.

(* ===================================================================== *)
(** * Further properties: the constructor, run again                       *)
(* ===================================================================== *)

Lemma empty_buy_lots_listed (h : heap) (ls seen : list nat) (r : nat) :
  r ∈ empty_buy_lots h seen ls -> r ∈ ls.
Proof.
  revert seen. induction ls as [|x ls IH]; intros seen; cbn [empty_buy_lots].
  - intros H; inversion H.
  - destruct (h !! x) as [lx|]; [|intros H; right; eauto].
    destruct (negb (truthy_str (buy_lot lx)) && bool_decide (x ∉ seen)).
    + intros [->|H]%elem_of_cons; [now left | right; eauto].
    + intros H; right; eauto.
Qed.

(** After the constructor every listed object has a [buy_lot]. *)
Lemma Lots_init_named (h : heap) (ls : list nat) (r : nat) (lot : Lot) :
  r ∈ ls -> (Lots__init__ h ls).1 !! r = Some lot ->
  buy_lot lot <> EmptyString.
Proof.
  intros Hin Hl.
  destruct (Lots_init_spec h ls) as [H1 H2].
  destruct (decide (r ∈ empty_buy_lots h [] ls)) as [He|Hn].
  - apply list_elem_of_lookup in He as (k & Hk).
    destruct (H1 k r Hk) as (lot0 & _ & Hnew).
    rewrite Hnew in Hl. injection Hl as <-. discriminate.
  - rewrite (H2 r Hn) in Hl. intros He. apply Hn.
    eapply empty_buy_lots_complete; eauto. intros Hx; inversion Hx.
Qed.

(** The constructor touches the listed objects only. *)
Lemma Lots_init_others (h : heap) (ls : list nat) (r : nat) :
  r ∉ ls -> (Lots__init__ h ls).1 !! r = h !! r.
Proof.
  intros Hout. destruct (Lots_init_spec h ls) as [_ H2].
  apply H2. intros Hin. apply Hout. eapply empty_buy_lots_listed; eauto.
Qed.

(** X5: [Lots.__init__] a second time on the list it was given changes
    no Lot: the identifiers handed out the first time stay, also for a
    Lot that took [_1] and is met again with the counter back at 1. *)
Theorem X5_init_idempotent (h : heap) (ls : list nat) :
  Lots__init__ (Lots__init__ h ls).1 ls
  = ((Lots__init__ h ls).1, mkLots ls).
Proof.
  unfold Lots__init__ at 1. cbn [fst]. f_equal.
  apply Lots_init_loop_named. apply Forall_forall.
  intros r Hr lot Hl. eapply Lots_init_named; eauto.
Qed.

(* ===================================================================== *)
(** * Further properties: what a parsed collection looks like              *)
(* ===================================================================== *)






(* ===================================================================== *)
(** * Further properties: headers and blank lines                          *)
(* ===================================================================== *)

(** A first line that the reader takes as the record [cells]. *)
Lemma first_line_record (line : string) (cells rest : list string)
    (self : Csv.ReaderObj) :
  Csv.parse_line Csv.parse_reset line = Ok self ->
  Csv.state self = Csv.START_RECORD ->
  Csv.fields self = cells ->
  Csv.Reader_next (line :: rest) = Ok (Some (cells, rest)).
Proof.
  intros Hl Hs Hf. unfold Csv.Reader_next. cbn [Csv.Reader_loop].
  rewrite Hl. cbn [bind].
  rewrite bool_decide_eq_true_2 by exact Hs. now rewrite Hf.
Qed.

Lemma accepted_header (h : heap) (line : string) (rest : list string)
    (labels : gmap string string) (self : Csv.ReaderObj) :
  Csv.parse_line Csv.parse_reset line = Ok self ->
  Csv.state self = Csv.START_RECORD ->
  Csv.fields self = header_labels labels ->
  labels = HEADERS \/ labels = LEGACY_HEADERS ->
  create_from_csv_data h (line :: rest) = after_header h rest.
Proof.
  intros Hl Hs Hf Hlab. unfold create_from_csv_data.
  rewrite DictReader_next_eq.
  rewrite (first_line_record line (header_labels labels) rest self Hl Hs Hf).
  assert (Hcons : exists c cs, header_labels labels = c :: cs).
  { destruct Hlab as [-> | ->]; eexists _, _; vm_compute; reflexivity. }
  destruct Hcons as (c & cs & Hcons). rewrite Hcons. cbn [bind].
  rewrite <- Hcons.
  assert (Hgate : bool_decide (Csv.DictReader_row FIELD_NAMES
                                 (header_labels labels) <> as_pydict HEADERS)
                  && bool_decide (Csv.DictReader_row FIELD_NAMES
                                    (header_labels labels)
                                  <> as_pydict LEGACY_HEADERS) = false).
  { destruct Hlab as [-> | ->].
    - rewrite (bool_decide_eq_false_2 (_ <> as_pydict HEADERS));
        [reflexivity|].
      intros Hn. apply Hn. now apply header_row_HEADERS.
    - rewrite (bool_decide_eq_false_2 (_ <> as_pydict LEGACY_HEADERS));
        [apply andb_false_r|].
      intros Hn. apply Hn. now apply header_row_LEGACY. }
  rewrite Hgate. reflexivity.
Qed.

(** X7: the legacy header line is accepted as the current one is: after
    either, the same rows give the same result, with or without the
    line end CR LF on the header line. *)
Theorem X7_legacy_header_accepted (h : heap) (rest : list string) :
  create_from_csv_data h (current_header_line :: rest) = after_header h rest /\
  create_from_csv_data h (legacy_header_line :: rest) = after_header h rest /\
  create_from_csv_data h
    ((current_header_line +:+ Csv.lineterminator) :: rest)
    = after_header h rest /\
  create_from_csv_data h
    ((legacy_header_line +:+ Csv.lineterminator) :: rest)
    = after_header h rest.
Proof.
  split; [|split; [|split]].
  - eapply (accepted_header h _ rest HEADERS);
      [vm_compute; reflexivity | reflexivity | vm_compute; reflexivity
      | now left].
  - eapply (accepted_header h _ rest LEGACY_HEADERS);
      [vm_compute; reflexivity | reflexivity | vm_compute; reflexivity
      | now right].
  - eapply (accepted_header h _ rest HEADERS);
      [vm_compute; reflexivity | reflexivity | vm_compute; reflexivity
      | now left].
  - eapply (accepted_header h _ rest LEGACY_HEADERS);
      [vm_compute; reflexivity | reflexivity | vm_compute; reflexivity
      | now right].
Qed.

(** A blank line is no record for [DictReader.next]. *)
Lemma DictReader_next_blank (fieldnames : list string) (blank : string)
    (input : list string) :
  Csv.parse_line Csv.parse_reset blank = Ok Csv.parse_reset ->
  Csv.DictReader_next fieldnames (blank :: input)
  = Csv.DictReader_next fieldnames input.
Proof.
  intros Hb. rewrite DictReader_next_eq.
  unfold Csv.Reader_next. cbn [Csv.Reader_loop]. rewrite Hb. cbn [bind].
  rewrite bool_decide_eq_true_2 by reflexivity. reflexivity.
Qed.

(** X8: a blank line (empty, or only a line end) before the header or
    before a data row is skipped: the call returns what it returns
    without the line. *)
Theorem X8_blank_lines_skipped (h : heap) (ls : list nat)
    (input : list string) :
  let blank1 := EmptyString in
  let blank2 := String LF EmptyString in
  let blank3 := Csv.lineterminator in
  (create_from_csv_data h (blank1 :: input) = create_from_csv_data h input /\
   create_from_csv_data h (blank2 :: input) = create_from_csv_data h input /\
   create_from_csv_data h (blank3 :: input) = create_from_csv_data h input) /\
  (read_rows h ls (blank1 :: input) = read_rows h ls input /\
   read_rows h ls (blank2 :: input) = read_rows h ls input /\
   read_rows h ls (blank3 :: input) = read_rows h ls input).
Proof.
  cbv zeta. unfold create_from_csv_data.
  rewrite !(read_rows_eq h ls (_ :: input)), (read_rows_eq h ls input).
  rewrite !DictReader_next_blank by reflexivity.
  repeat split.
Qed.

(* ===================================================================== *)
(** * Further properties: writing                                          *)
(* ===================================================================== *)

(** The row of a Lot is written when its dates are of 1900 or later,
    and refused with a ValueError otherwise. *)
Lemma row_of_lot_outcome (lot : Lot) :
  if dates_from_1900 lot
  then exists cells : list string,
         (row <- row_of_lot lot ;; Csv.DictWriter_writerow FIELD_NAMES row)
         = Ok (Csv.writerow cells)
  else (row <- row_of_lot lot ;; Csv.DictWriter_writerow FIELD_NAMES row)
       = Raise ValueError.
Proof.
  unfold dates_from_1900, row_of_lot, convert_from_date, strftime_mdY.
  destruct (Z.leb_spec 1900 (Date.year (buy_date lot))) as [Hb|Hb].
  - rewrite (proj2 (Z.ltb_ge _ _) Hb). cbn [bind andb].
    destruct (sell_date lot) as [d|].
    + destruct (Z.leb_spec 1900 (Date.year d)) as [Hs|Hs].
      * rewrite (proj2 (Z.ltb_ge _ _) Hs). cbn [bind].
        eexists. apply DictWriter_writerow_cells.
      * rewrite (proj2 (Z.ltb_lt _ _) Hs). reflexivity.
    + cbn [bind]. eexists. apply DictWriter_writerow_cells.
  - rewrite (proj2 (Z.ltb_lt _ _) Hb). reflexivity.
Qed.

Lemma write_rows_outcome (ls : list Lot) :
  if forallb dates_from_1900 ls
  then exists text : string,
         write_rows ls = Ok text /\ lf_terminated text = true
  else write_rows ls = Raise ValueError.
Proof.
  induction ls as [|lot ls IH]; [exists EmptyString; auto|].
  cbn [forallb write_rows].
  pose proof (row_of_lot_outcome lot) as Hrow.
  destruct (dates_from_1900 lot); cbn [andb].
  - destruct Hrow as (cells & Hrow).
    destruct (row_of_lot lot) as [row| |]; cbn [bind] in Hrow |- *;
      try discriminate.
    rewrite Hrow. cbn [bind].
    destruct (forallb dates_from_1900 ls).
    + destruct IH as (more & -> & Hlf). cbn [bind].
      eexists. split; [reflexivity|]. now apply writerow_lf_terminated.
    + rewrite IH. reflexivity.
  - destruct (row_of_lot lot) as [row| |]; cbn [bind] in Hrow |- *;
      try discriminate; [now rewrite Hrow | exact Hrow].
Qed.

(** X9: [write_csv_data] returns exactly when every buy date and every
    sell date of the collection is of 1900 or later; otherwise it raises
    ValueError, and nothing else can go wrong in it. *)
Theorem X9_write_returns_iff (h : heap) (self : Lots) :
  (forallb dates_from_1900 (lots h self) = true <->
   exists text : string, write_csv_data h self = Ok text) /\
  (forallb dates_from_1900 (lots h self) = false <->
   write_csv_data h self = Raise ValueError).
Proof.
  unfold write_csv_data. rewrite header_written. cbn [bind].
  pose proof (write_rows_outcome (lots h self)) as H.
  destruct (forallb dates_from_1900 (lots h self)).
  - destruct H as (text & -> & _). cbn [bind].
    split; split; try discriminate; eauto.
  - rewrite H. cbn [bind].
    split; split; try discriminate; auto.
    intros (text & Ht). discriminate Ht.
Qed.

(** X10: a text that [write_csv_data] has written never fails the header
    check of [create_from_csv_data], whatever its Lots hold. *)
Theorem X10_written_header_accepted (h h2 : heap) (self : Lots)
    (text : string) :
  write_csv_data h self = Ok text ->
  no_header_error (create_from_csv_data h2 (file_lines text)).
Proof.
  unfold write_csv_data. rewrite header_written. cbn [bind].
  pose proof (write_rows_outcome (lots h self)) as H.
  destruct (forallb dates_from_1900 (lots h self)).
  - destruct H as (rows & -> & Hlf). cbn [bind]. intros [= <-].
    unfold create_from_csv_data. rewrite DictReader_next_eq.
    rewrite (Reader_next_writerow _ rows header_labels_ok) by
      (try assumption; intros E; vm_compute in E; discriminate E).
    destruct (header_labels HEADERS) as [|label labels] eqn:E;
      [vm_compute in E; discriminate E|].
    rewrite <- E. cbn [bind].
    rewrite (bool_decide_eq_false_2
               (Csv.DictReader_row FIELD_NAMES (header_labels HEADERS)
                <> as_pydict HEADERS))
      by (intros Hn; apply Hn; now apply header_row_HEADERS).
    cbn [andb].
    apply no_header_error_bind; [apply read_rows_no_header_error|].
    intros read. discriminate.
  - rewrite H. discriminate.
Qed.

(** A Lot with a NUL in its symbol: its text is written, and accepted
    as far as the header goes. *)
Lemma X10_written_header_accepted_witness :
  no_header_error
    (create_from_csv_data []
       (file_lines
          (Csv.writerow (header_labels HEADERS) +:+
           Csv.writerow ["10"; "A"; "A"; "09/15/2014"; "200000"; ""; "";
                         ""; ""; "a"; "lot1"; "False"]%string))).
Proof.
  apply (X10_written_header_accepted [nul_lot] [] (mkLots [0%nat])).
  vm_compute. reflexivity.
Defined.

(* ===================================================================== *)
(** * Further properties: the parse of a written text                      *)
(* ===================================================================== *)

(** The rows of Lots that the csv module takes as they are, written and
    followed by any further text, are read one by one into new Lots, and
    the reader goes on with the further text. *)
Lemma write_rows_then (ls : list Lot) :
  Forall (fun lot => csv_safe lot = true) ls ->
  exists text : string,
    write_rows ls = Ok text /\
    (forall more : string,
       lf_terminated more = true -> lf_terminated (text +:+ more) = true) /\
    forall (h : heap) (refs : list nat) (more : string),
      lf_terminated more = true ->
      read_rows h refs (file_lines (text +:+ more))
      = read_rows (h ++ map reread ls) (refs ++ seq (length h) (length ls))
          (file_lines more).
Proof.
  induction ls as [|lot ls IH]; intros Hsafe.
  - exists EmptyString. split; [reflexivity|]. split; [now intros more|].
    intros h refs more _. rewrite str_app_nil. cbn [map length seq].
    now rewrite !app_nil_r.
  - apply Forall_cons in Hsafe as [Hlot Hls].
    destruct (IH Hls) as (text & Hw & Hlf & Hread).
    destruct (lot_row lot Hlot) as (cells & Hrow & Hok & Hne & Hback).
    apply bind_Ok_inv in Hrow as (row & Hrow1 & Hrow2).
    apply bind_Ok_inv in Hback as (row' & Hback1 & Hback2).
    exists (Csv.writerow cells +:+ text).
    split; [|split].
    + cbn [write_rows]. rewrite Hrow1. cbn [bind]. rewrite Hrow2.
      cbn [bind]. rewrite Hw. reflexivity.
    + intros more Hmore. rewrite str_app_assoc.
      apply writerow_lf_terminated. now apply Hlf.
    + intros h refs more Hmore.
      rewrite str_app_assoc.
      rewrite read_rows_eq, DictReader_next_eq.
      rewrite (Reader_next_writerow cells (text +:+ more) Hok Hne)
        by now apply Hlf.
      destruct cells as [|c cells]; [contradiction|].
      rewrite Hback1. cbn [bind]. rewrite Hback2. cbn [bind].
      unfold new_Lot. cbn [fst snd].
      rewrite (Hread _ _ more Hmore). cbn [map length seq].
      rewrite length_app. cbn [length].
      rewrite <- !app_assoc. cbn [app].
      now rewrite Nat.add_1_r.
Qed.

Lemma str_app_nil_r (t : string) : t +:+ EmptyString = t.
Proof.
  induction t as [|c t IH]; [reflexivity|].
  rewrite str_app_cons. now f_equal.
Qed.

Lemma read_rows_end (h : heap) (refs : list nat) :
  read_rows h refs [] = Ok (h, refs).
Proof. rewrite read_rows_eq, DictReader_next_eq. reflexivity. Qed.

(** The header line that [write_csv_data] writes is accepted, and the
    rows after it are read. *)
Lemma written_header_read (h : heap) (rows : string) :
  lf_terminated rows = true ->
  create_from_csv_data h
    (file_lines (Csv.writerow (header_labels HEADERS) +:+ rows))
  = after_header h (file_lines rows).
Proof.
  intros Hlf. unfold create_from_csv_data, after_header.
  rewrite DictReader_next_eq.
  rewrite (Reader_next_writerow _ rows header_labels_ok) by
    (try assumption; intros E; vm_compute in E; discriminate E).
  destruct (header_labels HEADERS) as [|label labels] eqn:E;
    [vm_compute in E; discriminate E|].
  rewrite <- E. cbn [bind].
  rewrite (bool_decide_eq_false_2
             (Csv.DictReader_row FIELD_NAMES (header_labels HEADERS)
              <> as_pydict HEADERS))
    by (intros Hn; apply Hn; now apply header_row_HEADERS).
  reflexivity.
Qed.

Lemma row_of_lot_reread (lot : Lot) : row_of_lot (reread lot) = row_of_lot lot.
Proof. reflexivity. Qed.

Lemma write_rows_reread (ls : list Lot) :
  write_rows (map reread ls) = write_rows ls.
Proof.
  induction ls as [|lot ls IH]; [reflexivity|].
  cbn [map write_rows]. now rewrite row_of_lot_reread, IH.
Qed.

(** X11: the text written for a collection whose Lots the csv module
    takes as they are can be parsed in any store: the parse allocates one
    new Lot for each written one, in the order of the collection, with
    the twelve written fields and a cleared [loss_processed], and hands
    them to the constructor; when every written Lot has a [buy_lot], the
    constructor changes none of them. *)
Theorem X11_parse_of_written (h h2 : heap) (self : Lots) :
  Forall (fun lot => csv_safe lot = true) (lots h self) ->
  exists text : string,
    write_csv_data h self = Ok text /\
    create_from_csv_data h2 (file_lines text)
    = Ok (Lots__init__ (h2 ++ map reread (lots h self))
            (seq (length h2) (length (lots h self)))) /\
    (Forall (fun lot => buy_lot lot <> EmptyString) (lots h self) ->
     create_from_csv_data h2 (file_lines text)
     = Ok (h2 ++ map reread (lots h self),
           mkLots (seq (length h2) (length (lots h self))))).
Proof.
  intros Hsafe.
  destruct (write_rows_then (lots h self) Hsafe) as (rows & Hw & Hlf & Hread).
  exists (Csv.writerow (header_labels HEADERS) +:+ rows).
  assert (Hparse :
    create_from_csv_data h2
      (file_lines (Csv.writerow (header_labels HEADERS) +:+ rows))
    = Ok (Lots__init__ (h2 ++ map reread (lots h self))
            (seq (length h2) (length (lots h self))))).
  { rewrite written_header_read
      by (rewrite <- (str_app_nil_r rows); now apply Hlf).
    unfold after_header.
    rewrite <- (str_app_nil_r rows), (Hread h2 [] EmptyString eq_refl).
    change (file_lines EmptyString) with (@nil string).
    rewrite read_rows_end. reflexivity. }
  split; [|split].
  - unfold write_csv_data. rewrite header_written. cbn [bind].
    rewrite Hw. reflexivity.
  - exact Hparse.
  - intros Hnamed. rewrite Hparse. unfold Lots__init__.
    rewrite Lots_init_loop_named by now apply new_lots_named.
    reflexivity.
Qed.

(** X12: writing a collection whose Lots have a [buy_lot] and are taken
    by the csv module as they are, parsing the text and writing the
    parsed collection gives the first text again. *)
Theorem X12_write_parse_write (h h2 : heap) (self : Lots) :
  Forall (fun lot => buy_lot lot <> EmptyString) (lots h self) ->
  Forall (fun lot => csv_safe lot = true) (lots h self) ->
  exists (text : string) (h' : heap) (parsed : Lots),
    write_csv_data h self = Ok text /\
    create_from_csv_data h2 (file_lines text) = Ok (h', parsed) /\
    write_csv_data h' parsed = Ok text.
Proof.
  intros Hnamed Hsafe.
  destruct (write_rows_then (lots h self) Hsafe) as (rows & Hw & Hlf & Hread).
  exists (Csv.writerow (header_labels HEADERS) +:+ rows),
         (h2 ++ map reread (lots h self)),
         (mkLots (seq (length h2) (length (lots h self)))).
  assert (Hwritten : write_csv_data h self
                     = Ok (Csv.writerow (header_labels HEADERS) +:+ rows)).
  { unfold write_csv_data. rewrite header_written. cbn [bind].
    rewrite Hw. reflexivity. }
  split; [exact Hwritten|]. split.
  - rewrite written_header_read
      by (rewrite <- (str_app_nil_r rows); now apply Hlf).
    unfold after_header.
    rewrite <- (str_app_nil_r rows), (Hread h2 [] EmptyString eq_refl).
    change (file_lines EmptyString) with (@nil string).
    rewrite read_rows_end. cbn [bind fst snd app].
    unfold Lots__init__.
    rewrite Lots_init_loop_named by now apply new_lots_named.
    reflexivity.
  - rewrite <- Hwritten. unfold write_csv_data.
    replace (length (lots h self)) with (length (map reread (lots h self)))
      by apply length_map.
    now rewrite lots_new, write_rows_reread.
Qed.

(** Two Lots of one store, written, and parsed in a store that holds an
    unrelated Lot. *)
Lemma X11_parse_of_written_witness :
  exists text : string,
    write_csv_data [quoted_lot; sample_lot 20 "b" "lot2"] (mkLots [0; 1]%nat)
    = Ok text /\
    create_from_csv_data [old_lot] (file_lines text)
    = Ok (Lots__init__
            ([old_lot] ++
             map reread (lots [quoted_lot; sample_lot 20 "b" "lot2"]
                           (mkLots [0; 1]%nat)))
            (seq (length [old_lot])
               (length (lots [quoted_lot; sample_lot 20 "b" "lot2"]
                          (mkLots [0; 1]%nat))))) /\
    (Forall (fun lot => buy_lot lot <> EmptyString)
       (lots [quoted_lot; sample_lot 20 "b" "lot2"] (mkLots [0; 1]%nat)) ->
     create_from_csv_data [old_lot] (file_lines text)
     = Ok ([old_lot] ++
           map reread (lots [quoted_lot; sample_lot 20 "b" "lot2"]
                         (mkLots [0; 1]%nat)),
           mkLots (seq (length [old_lot])
                     (length (lots [quoted_lot; sample_lot 20 "b" "lot2"]
                                (mkLots [0; 1]%nat)))))).
Proof.
  apply (X11_parse_of_written [quoted_lot; sample_lot 20 "b" "lot2"]
           [old_lot] (mkLots [0; 1]%nat)).
  apply forallb_Forall. vm_compute. reflexivity.
Defined.

Lemma X12_write_parse_write_witness :
  exists (text : string) (h' : heap) (parsed : Lots),
    write_csv_data [quoted_lot; sample_lot 20 "b" "lot2"] (mkLots [1; 0]%nat)
    = Ok text /\
    create_from_csv_data [] (file_lines text) = Ok (h', parsed) /\
    write_csv_data h' parsed = Ok text.
Proof.
  apply (X12_write_parse_write [quoted_lot; sample_lot 20 "b" "lot2"] []
           (mkLots [1; 0]%nat)).
  - apply named_by_evaluation. vm_compute. reflexivity.
  - apply forallb_Forall. vm_compute. reflexivity.
Defined.

(* ===================================================================== *)
(** * Further properties: rows that are refused                            *)
(* ===================================================================== *)

(** [int] returns or raises ValueError. *)
Lemma py_int_outcome (s : string) :
  (exists n : Z, py_int s = Ok n) \/ py_int s = Raise ValueError.
Proof.
  unfold py_int.
  destruct (rstrip (lstrip s)) as [|[[] [] [] [] [] [] [] []] t];
    match goal with
    | |- context [or_raise ValueError ?o] => destruct o
    end; cbn [or_raise]; eauto.
Qed.

Lemma or_raise_outcome {A : Type} (o : option A) :
  (exists x : A, or_raise ValueError o = Ok x)
  \/ or_raise ValueError o = Raise ValueError.
Proof. destruct o; cbn [or_raise]; eauto. Qed.

Lemma convert_to_int_str (c : string) :
  (exists n : Z, convert_to_int (VStr c) = Ok (VInt n) /\ int_cell c = true)
  \/ (convert_to_int (VStr c) = Raise ValueError /\ int_cell c = false).
Proof.
  unfold int_cell, convert_to_int. cbn [truthy].
  destruct (truthy_str c); [|left; eauto].
  destruct (py_int_outcome c) as [(n & ->)| ->]; cbn [bind]; eauto.
Qed.

Lemma strptime_outcome (s : string) :
  (exists d : date, strptime_mdY s = Ok d)
  \/ strptime_mdY s = Raise ValueError.
Proof.
  unfold strptime_mdY.
  destruct (split_on "/" s) as [|m [|d [|y [|? ?]]]]; eauto.
  destruct (parse_m m), (parse_d d), (parse_Y y); eauto.
  apply or_raise_outcome.
Qed.

Lemma convert_to_date_str (c : string) :
  (c = EmptyString /\ convert_to_date (VStr c) = Ok VNone /\
   date_cell c = true)
  \/ (exists d : date, c <> EmptyString /\
        convert_to_date (VStr c) = Ok (VDate d) /\ date_cell c = true)
  \/ (convert_to_date (VStr c) = Raise ValueError /\ date_cell c = false).
Proof.
  unfold date_cell, convert_to_date. cbn [truthy].
  destruct c as [|a c]; [left; auto|]. cbn [truthy_str]. right.
  destruct (strptime_outcome (String a c)) as [(d & ->)| ->]; cbn [bind].
  - left. exists d. repeat split. discriminate.
  - right. auto.
Qed.

Lemma convert_to_bool_str (c : string) :
  exists b : bool, convert_to_bool (VStr c) = Ok (VBool b).
Proof.
  unfold convert_to_bool. cbn [truthy]. destruct (truthy_str c); eauto.
Qed.

Lemma row_converts_eq (c1 c2 c3 c4 c5 c6 c7 c8 c9 : string)
    (tail : list string) :
  row_converts (c1 :: c2 :: c3 :: c4 :: c5 :: c6 :: c7 :: c8 :: c9 :: tail)
  = int_cell c1 && (date_cell c4 && (int_cell c5 && (date_cell c6 &&
      (int_cell c7 && int_cell c9)))).
Proof.
  change (row_converts
            (c1 :: c2 :: c3 :: c4 :: c5 :: c6 :: c7 :: c8 :: c9 :: tail))
    with (int_cell c1 && (int_cell c5 && (int_cell c7 &&
            (int_cell c9 && true))) &&
          (date_cell c4 && (date_cell c6 && true))).
  destruct (int_cell c1), (int_cell c5), (int_cell c7), (int_cell c9),
    (date_cell c4), (date_cell c6); reflexivity.
Qed.

Ltac convert_int c :=
  eval_lookup; cbn [or_raise bind];
  let B := fresh "B" in
  destruct (convert_to_int_str c) as [(? & -> & B)|(-> & B)];
  rewrite B; cbn [bind andb]; [|reflexivity].

Ltac convert_date c v E :=
  eval_lookup; cbn [or_raise bind];
  let B := fresh "B" in
  destruct (convert_to_date (VStr c)) as [v| |] eqn:E; cbn [bind];
  [ assert (B : date_cell c = true)
      by (destruct (convert_to_date_str c)
            as [(? & ? & ?)|[(? & ? & ? & ?)|(? & ?)]]; congruence);
    rewrite B; cbn [andb]
  | destruct (convert_to_date_str c)
      as [(? & ? & ?)|[(? & ? & ? & ?)|(? & B)]]; try congruence;
    rewrite B; cbn [andb]; congruence
  | destruct (convert_to_date_str c)
      as [(? & ? & ?)|[(? & ? & ? & ?)|(? & ?)]]; congruence ].

(** What the loop body makes of a row of twelve cells or more. *)
Lemma Lot_of_row_outcome (c1 c2 c3 c4 c5 c6 c7 c8 c9 c10 c11 c12 : string)
    (tail : list string) :
  let cells := c1 :: c2 :: c3 :: c4 :: c5 :: c6 :: c7 :: c8 :: c9 :: c10 ::
               c11 :: c12 :: tail in
  if row_converts cells then
    match tail with
    | [] =>
        if truthy_str c4 then
          exists (n1 n5 n7 n9 : Z) (d4 : date) (d6 : option date)
                 (b12 : bool),
            Lot_of_row cells
            = Ok (Lot__init__ n1 c2 c3 d4 n5 d6 n7 c8 n9 c10 c11 b12)
        else Lot_of_row cells = Untyped
    | _ :: _ => Lot_of_row cells = Raise TypeError
    end
  else Lot_of_row cells = Raise ValueError.
Proof.
  intros cells. subst cells. rewrite row_converts_eq.
  unfold Lot_of_row, convert_row, convert_item, getitem.
  destruct tail as [|c13 tail].
  - convert_int c1. convert_date c4 v4 E4. convert_int c5.
    convert_date c6 v6 E6. convert_int c7. convert_int c9.
    eval_lookup; cbn [or_raise bind].
    destruct (convert_to_bool_str c12) as (b12 & ->); cbn [bind].
    unfold Lot_of_kwargs. eval_lookup.
    replace (bool_decide (is_Some (@None pyval))) with false
      by (symmetry; apply bool_decide_eq_false_2; intros [? ?];
          discriminate).
    unfold kw_int, kw_str, kw_date, kw_opt_date, kw_buy_lot, kw_bool.
    repeat eval_lookup. cbn [bind].
    destruct (convert_to_date_str c4)
      as [(-> & H4 & _)|[(d4 & Hc4 & H4 & _)|(H4 & _)]];
      [| |congruence].
    + assert (v4 = VNone) as -> by congruence. reflexivity.
    + assert (v4 = VDate d4) as -> by congruence.
      destruct c4 as [|a c4]; [contradiction|]. cbn [truthy_str bind].
      destruct (convert_to_date_str c6)
        as [(_ & H6 & _)|[(d6 & _ & H6 & _)|(H6 & _)]];
        [| |congruence].
      * assert (v6 = VNone) as -> by congruence. repeat eexists.
      * assert (v6 = VDate d6) as -> by congruence. repeat eexists.
  - convert_int c1. convert_date c4 v4 E4. convert_int c5.
    convert_date c6 v6 E6. convert_int c7. convert_int c9.
    eval_lookup; cbn [or_raise bind].
    destruct (convert_to_bool_str c12) as (b12 & ->); cbn [bind].
    unfold Lot_of_kwargs. eval_lookup.
    rewrite bool_decide_eq_true_2 by eauto. reflexivity.
Qed.



(** X14: a row of twelve cells is refused with ValueError exactly when
    one of its four number cells or two date cells is not empty and not
    read by [int] or [strptime]; the loop body raises nothing else for
    it; and when the six cells are read and the buy date is not empty,
    the row gives a Lot that has the five text cells as they are and a
    cleared [loss_processed]. *)
Theorem X14_row_of_twelve
    (c1 c2 c3 c4 c5 c6 c7 c8 c9 c10 c11 c12 : string) :
  let cells := [c1; c2; c3; c4; c5; c6; c7; c8; c9; c10; c11; c12] in
  (row_converts cells = false <-> Lot_of_row cells = Raise ValueError) /\
  (forall e : exn, Lot_of_row cells = Raise e -> e = ValueError) /\
  (row_converts cells = true -> c4 <> EmptyString ->
   exists lot : Lot,
     Lot_of_row cells = Ok lot /\
     symbol lot = c2 /\ description lot = c3 /\ adjustment_code lot = c8 /\
     form_position lot = c10 /\ buy_lot lot = c11 /\
     loss_processed lot = false).
Proof.
  intros cells.
  pose proof (Lot_of_row_outcome c1 c2 c3 c4 c5 c6 c7 c8 c9 c10 c11 c12 [])
    as H.
  cbv zeta in H. fold cells in H.
  destruct (row_converts cells).
  - destruct c4 as [|a c4]; cbn [truthy_str] in H.
    + rewrite H. split; [split; discriminate|].
      split; [discriminate|]. intros _ Hn. now contradiction Hn.
    + destruct H as (n1 & n5 & n7 & n9 & d4 & d6 & b12 & ->).
      split; [split; discriminate|]. split; [discriminate|].
      intros _ _. eexists. split; [reflexivity|]. now repeat split.
  - rewrite H. split; [now split|]. split; [now intros e [= <-]|].
    discriminate.
Qed.

(** X15: a row of more than twelve cells never gives a Lot: it is
    refused with ValueError when one of its number or date cells is not
    read, and with the TypeError of [Lot]'s keyword arguments otherwise. *)
Theorem X15_row_too_long (cells : list string) :
  (12 < length cells)%nat ->
  Lot_of_row cells
  = if row_converts cells then Raise TypeError else Raise ValueError.
Proof.
  intros Hlen.
  do 13 (destruct cells as [|? cells]; [cbn [length] in Hlen; lia|]).
  match goal with
  | |- Lot_of_row (?c1 :: ?c2 :: ?c3 :: ?c4 :: ?c5 :: ?c6 :: ?c7 :: ?c8 ::
                   ?c9 :: ?c10 :: ?c11 :: ?c12 :: ?tail) = _ =>
      pose proof (Lot_of_row_outcome c1 c2 c3 c4 c5 c6 c7 c8 c9 c10 c11 c12
                    tail) as H
  end.
  cbv zeta in H.
  match type of H with
  | if ?b then _ else _ => destruct b
  end; exact H.
Qed.

Lemma X15_row_too_long_witness :
  Lot_of_row ["10"; "ABC"; "A"; "09/15/2014"; "2000"; ""; ""; ""; ""; "b";
              "lot2"; "False"; ""]
  = if row_converts ["10"; "ABC"; "A"; "09/15/2014"; "2000"; ""; ""; "";
                     ""; "b"; "lot2"; "False"; ""]
    then Raise TypeError else Raise ValueError.
Proof.
  apply (X15_row_too_long
           ["10"; "ABC"; "A"; "09/15/2014"; "2000"; ""; ""; ""; ""; "b";
            "lot2"; "False"; ""]).
  cbn [length]. lia.
Defined.

(* ===================================================================== *)
(** * Further properties: what the round trip needs                        *)
(* ===================================================================== *)

(** The Lots of a collection right after its constructor: as many as
    the listed objects, each with a [buy_lot]. *)
Lemma init_lots_named (h : heap) (refs : list nat) :
  Forall (fun r => (r < length h)%nat) refs ->
  length (lots (Lots__init__ h refs).1 (mkLots refs)) = length refs /\
  Forall (fun lot => buy_lot lot <> EmptyString)
         (lots (Lots__init__ h refs).1 (mkLots refs)).
Proof.
  intros Hall. split.
  - change (length refs) with (size (mkLots refs)). apply lots_length.
    unfold allocated, Lots__init__; cbn [_lots fst].
    now rewrite Lots_init_loop_length.
  - apply Forall_forall. intros lot Hlot.
    unfold lots in Hlot; cbn [_lots] in Hlot.
    apply list_elem_of_omap in Hlot as (r & Hr & Hl).
    eapply Lots_init_named; eauto.
Qed.

Lemma zip_eq_named (ps ls : list Lot) :
  length ps = length ls ->
  Forall (fun lot => buy_lot lot <> EmptyString) ps ->
  forallb (fun pair => Lot__eq__ pair.1 pair.2) (zip ps ls) = true ->
  Forall (fun lot => buy_lot lot <> EmptyString) ls.
Proof.
  revert ls. induction ps as [|p ps IH]; intros [|l ls] Hlen Hps Hz;
    try discriminate Hlen; [constructor|].
  apply Forall_cons in Hps as [Hp Hps].
  cbn [zip zip_with forallb fst snd] in Hz.
  apply andb_prop in Hz as [Hpl Hz].
  constructor.
  - apply Lot__eq__spec in Hpl.
    apply (f_equal buy_lot) in Hpl. cbn in Hpl. congruence.
  - apply IH; auto.
Qed.

(** The Lots of a collection are not touched by a constructor call on
    objects allocated after them. *)
Lemma lots_before_init (h new : heap) (self : Lots) :
  allocated h self ->
  lots (Lots__init__ (h ++ new) (seq (length h) (length new))).1 self
  = lots h self.
Proof.
  unfold allocated, lots. induction (_lots self) as [|r refs IH];
    intros Hall; [reflexivity|].
  apply Forall_cons in Hall as [Hr Hrefs].
  cbn [omap list_omap].
  rewrite Lots_init_others by (rewrite elem_of_seq; lia).
  rewrite (lookup_app_l h new r Hr), (IH Hrefs). reflexivity.
Qed.

(** X16: for a collection of allocated Lots that the csv module takes
    as they are, the written text parses into a collection equal to the
    written one exactly when every Lot of it has a [buy_lot]: a Lot that
    was added without one comes back with an identifier of the
    constructor, and is no longer equal. *)
Theorem X16_round_trip_iff_named (h : heap) (self : Lots) :
  allocated h self ->
  Forall (fun lot => csv_safe lot = true) (lots h self) ->
  (round_trip h self <->
   Forall (fun lot => buy_lot lot <> EmptyString) (lots h self)).
Proof.
  intros Halloc Hsafe.
  destruct (write_rows_then (lots h self) Hsafe) as (rows & Hw & Hlf & Hread).
  set (written := map reread (lots h self)).
  set (refs := seq (length h) (length written)).
  assert (Hwritten : write_csv_data h self
                     = Ok (Csv.writerow (header_labels HEADERS) +:+ rows)).
  { unfold write_csv_data. rewrite header_written. cbn [bind].
    rewrite Hw. reflexivity. }
  assert (Hparse :
    create_from_csv_data h
      (file_lines (Csv.writerow (header_labels HEADERS) +:+ rows))
    = Ok (Lots__init__ (h ++ written) refs)).
  { rewrite written_header_read
      by (rewrite <- (str_app_nil_r rows); now apply Hlf).
    unfold after_header.
    rewrite <- (str_app_nil_r rows), (Hread h [] EmptyString eq_refl).
    change (file_lines EmptyString) with (@nil string).
    rewrite read_rows_end. unfold refs, written.
    now rewrite length_map. }
  assert (Hrefs : Forall (fun r => (r < length (h ++ written))%nat) refs).
  { apply Forall_forall. intros r Hr. unfold refs in Hr.
    apply elem_of_seq in Hr. rewrite length_app. lia. }
  destruct (init_lots_named (h ++ written) refs Hrefs) as [Hlen Hnamed].
  split.
  - intros (text & h' & parsed & Ht & Hp & _ & He).
    rewrite Hwritten in Ht. injection Ht as <-.
    rewrite Hparse in Hp.
    assert (E : Lots__init__ (h ++ written) refs = (h', parsed))
      by congruence.
    pose proof (f_equal fst E) as E1. pose proof (f_equal snd E) as E2.
    cbn [fst snd] in E1, E2. subst h' parsed.
    change (Lots__init__ (h ++ written) refs).2 with (mkLots refs) in He.
    rewrite Lots__eq__zip in He.
    unfold refs in He.
    rewrite (lots_before_init h written self Halloc) in He.
    eapply zip_eq_named; [|exact Hnamed|exact He].
    rewrite Hlen. unfold refs, written. now rewrite length_seq, length_map.
  - intros Hall.
    exists (Csv.writerow (header_labels HEADERS) +:+ rows),
           (h ++ written), (mkLots refs).
    split; [exact Hwritten|]. split; [|split].
    + rewrite Hparse. unfold Lots__init__, refs, written.
      rewrite length_map.
      rewrite Lots_init_loop_named by now apply new_lots_named.
      reflexivity.
    + unfold size, refs, written; cbn [_lots].
      rewrite length_seq, length_map. now apply lots_length.
    + rewrite Lots__eq__zip. unfold refs.
      rewrite lots_new, (lots_allocated h written self Halloc).
      apply forallb_zip_reread.
Qed.

(** A collection of one Lot with a [buy_lot], to which a Lot without
    one was added. *)
Lemma X16_round_trip_iff_named_witness :
  round_trip [sample_lot 10 "a" "lot1"; sample_lot 20 "b" ""]
             (add (mkLots [0%nat]) 1%nat)
  <-> Forall (fun lot => buy_lot lot <> EmptyString)
        (lots [sample_lot 10 "a" "lot1"; sample_lot 20 "b" ""]
              (add (mkLots [0%nat]) 1%nat)).
Proof.
  apply (X16_round_trip_iff_named
           [sample_lot 10 "a" "lot1"; sample_lot 20 "b" ""]
           (add (mkLots [0%nat]) 1%nat)).
  - unfold allocated; cbn. repeat constructor.
  - apply forallb_Forall. vm_compute. reflexivity.
Defined.

(* ===================================================================== *)
(** * Further properties: the converters of the two directions             *)
(* ===================================================================== *)

(** X17: the converters of [create_from_csv_data] undo those of
    [write_csv_data]: for every integer, with zero written as the empty
    cell and only zero; for both truth values; and for an absent date
    and every date of 1900 or later, while an earlier date is refused by
    [convert_from_date] with ValueError. *)
Theorem X17_converters_inverse (n : Z) (b : bool) (d : date) :
  convert_to_int (VStr (convert_from_int n)) = Ok (VInt n) /\
  (convert_from_int n = EmptyString <-> n = 0) /\
  convert_to_bool (VStr (convert_from_bool b)) = Ok (VBool b) /\
  (text <- convert_from_date None ;; convert_to_date (VStr text))
    = Ok VNone /\
  (text <- convert_from_date (Some d) ;; convert_to_date (VStr text))
    = if 1900 <=? Date.year d then Ok (VDate d) else Raise ValueError.
Proof.
  split; [apply convert_to_int_from_int|].
  split; [|split; [apply convert_to_bool_from_bool|split; [reflexivity|]]].
  - unfold convert_from_int, truthy_int.
    destruct (Z.eqb_spec n 0) as [->|Hn]; cbn [negb]; [now split|].
    split; [|contradiction]. intros E. destruct (py_str_nonempty n E).
  - cbn [convert_from_date].
    destruct (Z.leb_spec 1900 (Date.year d)) as [Hy|Hy].
    + destruct (strptime_strftime d Hy) as (s & -> & Hs & Hne & _).
      cbn [bind]. unfold convert_to_date. cbn [truthy].
      destruct s as [|a s]; [contradiction|]. cbn [truthy_str].
      rewrite Hs. reflexivity.
    + unfold strftime_mdY. rewrite (proj2 (Z.ltb_lt _ _) Hy). reflexivity.
Qed.

(* ===================================================================== *)
(** * parse_morgan_stanley.py: the rows of words                          *)
(* ===================================================================== *)

Lemma split_whitespace_space (word a b : MorganStanley.str) :
  MorganStanley.split_whitespace word (a ++ MorganStanley.SPACE :: b)
  = MorganStanley.split_whitespace word a ++ MorganStanley.split b.
Proof.
  revert word. induction a as [|c a IH]; intros word.
  - cbn [app MorganStanley.split_whitespace].
    change (MorganStanley.isspace MorganStanley.SPACE) with true.
    cbv iota. unfold MorganStanley.split. now destruct word.
  - cbn [app MorganStanley.split_whitespace].
    destruct (MorganStanley.isspace c).
    + destruct word; now rewrite IH.
    + apply IH.
Qed.

Lemma split_join_three (l0 l1 l2 : MorganStanley.str) :
  MorganStanley.split
    (MorganStanley.join [MorganStanley.SPACE] [l0; l1; l2])
  = MorganStanley.split l0 ++ MorganStanley.split l1 ++
    MorganStanley.split l2.
Proof.
  cbn [MorganStanley.join app]. unfold MorganStanley.split at 1.
  rewrite split_whitespace_space. f_equal.
  unfold MorganStanley.split at 1. now rewrite split_whitespace_space.
Qed.

Lemma split_whitespace_words (s word : MorganStanley.str) :
  Forall (fun c => MorganStanley.isspace c = false) word ->
  Forall is_word (MorganStanley.split_whitespace word s).
Proof.
  revert word. induction s as [|c s IH]; intros word Hw.
  - cbn [MorganStanley.split_whitespace].
    destruct word as [|x word]; constructor; [|constructor].
    split.
    + intros E. apply (f_equal (@length N)) in E.
      rewrite length_rev in E. discriminate E.
    + now apply Forall_rev.
  - cbn [MorganStanley.split_whitespace].
    destruct (MorganStanley.isspace c) eqn:Ec.
    + destruct word as [|x word]; [now apply IH|].
      constructor; [|now apply IH]. split.
      * intros E. apply (f_equal (@length N)) in E.
        rewrite length_rev in E. discriminate E.
      * now apply Forall_rev.
    + apply IH. now constructor.
Qed.

Lemma row_step_three (rs : list (list MorganStanley.str))
    (l0 l1 l2 : MorganStanley.str) (rest : list MorganStanley.str) :
  foldl MorganStanley.row_step (MorganStanley.mkRowState rs 0 [])
    (l0 :: l1 :: l2 :: rest)
  = foldl MorganStanley.row_step
      (MorganStanley.mkRowState
         (rs ++ [MorganStanley.split
                   (MorganStanley.join [MorganStanley.SPACE] [l0; l1; l2])])
         0 [])
      rest.
Proof. reflexivity. Qed.

Lemma rows_loop (n : nat) :
  forall (lines : list MorganStanley.str)
         (rs : list (list MorganStanley.str)),
    (length lines <= n)%nat ->
    MorganStanley.rows
      (foldl MorganStanley.row_step (MorganStanley.mkRowState rs 0 [])
         lines)
    = rs ++ MorganStanley.rows_by_three lines.
Proof.
  induction n as [|n IH]; intros lines rs Hlen.
  - destruct lines; [|cbn in Hlen; lia]. cbn. now rewrite app_nil_r.
  - destruct lines as [|l0 [|l1 [|l2 rest]]];
      try (cbn; now rewrite app_nil_r).
    rewrite row_step_three. cbn [MorganStanley.rows_by_three].
    rewrite split_join_three, IH by (cbn [length] in Hlen; lia).
    now rewrite <- app_assoc.
Qed.

Lemma rows_by_three_length (n : nat) :
  forall lines : list MorganStanley.str,
    (length lines <= n)%nat ->
    length (MorganStanley.rows_by_three lines) = (length lines / 3)%nat.
Proof.
  induction n as [|n IH]; intros lines Hlen.
  - destruct lines; [reflexivity|cbn in Hlen; lia].
  - destruct lines as [|l0 [|l1 [|l2 rest]]]; try reflexivity.
    cbn [MorganStanley.rows_by_three length].
    rewrite IH by (cbn [length] in Hlen; lia).
    change (S (S (S (length rest)))) with (1 * 3 + length rest)%nat.
    now rewrite Nat.div_add_l by discriminate.
Qed.

Lemma rows_by_three_words (n : nat) :
  forall lines : list MorganStanley.str,
    (length lines <= n)%nat ->
    Forall (Forall is_word) (MorganStanley.rows_by_three lines).
Proof.
  induction n as [|n IH]; intros lines Hlen.
  - destruct lines; [constructor|cbn in Hlen; lia].
  - destruct lines as [|l0 [|l1 [|l2 rest]]]; try constructor.
    + rewrite !Forall_app. unfold MorganStanley.split.
      repeat split; apply split_whitespace_words; constructor.
    + apply IH. cbn [length] in Hlen. lia.
Qed.

Lemma rows_by_three_full (n : nat) :
  forall lines : list MorganStanley.str,
    (length lines <= n)%nat ->
    MorganStanley.rows_by_three (take (3 * (length lines / 3)) lines)
    = MorganStanley.rows_by_three lines.
Proof.
  induction n as [|n IH]; intros lines Hlen.
  - destruct lines; [reflexivity|cbn in Hlen; lia].
  - destruct lines as [|l0 [|l1 [|l2 rest]]]; try reflexivity.
    cbn [length].
    change (S (S (S (length rest)))) with (1 * 3 + length rest)%nat.
    rewrite Nat.div_add_l by discriminate.
    replace (3 * (1 + length rest / 3))%nat
      with (S (S (S (3 * (length rest / 3))))) by lia.
    cbn [take MorganStanley.rows_by_three].
    rewrite IH by (cbn [length] in Hlen; lia). reflexivity.
Qed.

(** X18: [get_row_words] makes one row of every three lines, in order:
    the words of the first, of the second and of the third line of the
    group (joining the lines with a blank neither joins nor cuts a
    word); the lines left over after the last full group give no row;
    and every word of a row is not empty and holds no blank. *)
Theorem X18_get_row_words (lines : list MorganStanley.str) :
  MorganStanley.get_row_words lines = MorganStanley.rows_by_three lines /\
  length (MorganStanley.get_row_words lines) = (length lines / 3)%nat /\
  MorganStanley.get_row_words (take (3 * (length lines / 3)) lines)
  = MorganStanley.get_row_words lines /\
  Forall (Forall is_word) (MorganStanley.get_row_words lines).
Proof.
  assert (H : forall ls, MorganStanley.get_row_words ls
                         = MorganStanley.rows_by_three ls).
  { intros ls. unfold MorganStanley.get_row_words.
    now rewrite (rows_loop (length ls)). }
  rewrite !H. split; [reflexivity|]. split; [|split].
  - now apply (rows_by_three_length (length lines)).
  - now apply (rows_by_three_full (length lines)).
  - now apply (rows_by_three_words (length lines)).
Qed.

(* ===================================================================== *)
(** * parse_morgan_stanley.py: the trades of the rows                     *)
(* ===================================================================== *)

Lemma and_then_Return {E A B : Type} (r : MorganStanley.outcome E A)
    (k : A -> MorganStanley.outcome E B) (b : B) :
  MorganStanley.and_then r k = MorganStanley.Return b ->
  exists a : A, r = MorganStanley.Return a /\ k a = MorganStanley.Return b.
Proof. destruct r as [a|e]; [eauto|discriminate]. Qed.

Lemma getitem_Return {E A : Type} (row : list A) (k : Z) (x : A) :
  0 < k ->
  @MorganStanley.getitem E A row (- k) = MorganStanley.Return x ->
  k <= Z.of_nat (length row).
Proof.
  intros Hk. unfold MorganStanley.getitem.
  rewrite (proj2 (Z.ltb_lt (- k) 0)) by lia.
  destruct (Z.ltb_spec (- k + Z.of_nat (length row)) 0); cbn [orb];
    [discriminate|lia].
Qed.

Lemma getitem_short {E A : Type} (row : list A) (k : Z) :
  Z.of_nat (length row) < k ->
  @MorganStanley.getitem E A row (- k)
  = MorganStanley.Throw MorganStanley.IndexError.
Proof.
  intros Hk. unfold MorganStanley.getitem.
  rewrite (proj2 (Z.ltb_lt (- k) 0)) by lia.
  now rewrite (proj2 (Z.ltb_lt (- k + Z.of_nat (length row)) 0)) by lia.
Qed.

Lemma getitem_last_five {E A : Type} (row : list A) (k : Z) :
  1 <= k <= 5 ->
  @MorganStanley.getitem E A (last_five row) (- k)
  = MorganStanley.getitem row (- k).
Proof.
  intros Hk. unfold last_five.
  destruct (Nat.le_gt_cases (length row) 5) as [Hle|Hgt].
  - replace (length row - 5)%nat with 0%nat by lia. reflexivity.
  - unfold MorganStanley.getitem.
    rewrite (proj2 (Z.ltb_lt (- k) 0)) by lia.
    rewrite length_drop.
    replace (length row - (length row - 5))%nat with 5%nat by lia.
    cbv zeta.
    destruct (Z.ltb_spec (- k + Z.of_nat 5) 0); [lia|].
    destruct (Z.leb_spec (Z.of_nat 5) (- k + Z.of_nat 5)); [lia|].
    destruct (Z.ltb_spec (- k + Z.of_nat (length row)) 0); [lia|].
    destruct (Z.leb_spec (Z.of_nat (length row))
                (- k + Z.of_nat (length row))); [lia|].
    cbn [orb]. rewrite lookup_drop.
    replace (Z.to_nat (- k + Z.of_nat (length row)))
      with (length row - 5 + Z.to_nat (- k + Z.of_nat 5))%nat by lia.
    reflexivity.
Qed.

Section TradesFacts.

Context {E Money Arrow : Type}.
Variable Money_USD : MorganStanley.str -> MorganStanley.outcome E Money.
Variable arrow_get : MorganStanley.str -> MorganStanley.outcome E Arrow.
Variable int_float : MorganStanley.str -> MorganStanley.outcome E Z.

Local Abbreviation parse_trade :=
  (MorganStanley.parse_trade Money_USD arrow_get int_float).
Local Abbreviation parse_trades_loop :=
  (MorganStanley.parse_trades_loop Money_USD arrow_get int_float).

Lemma parse_trade_Return (row : list MorganStanley.str)
    (t : MorganStanley.Trade) :
  parse_trade row = MorganStanley.Return t -> (5 <= length row)%nat.
Proof.
  unfold MorganStanley.parse_trade. intros H.
  do 8 (apply and_then_Return in H as (? & _ & H)).
  apply and_then_Return in H as (w5 & H5 & _).
  pose proof (getitem_Return row 5 w5 ltac:(lia) H5). lia.
Qed.

Lemma parse_trade_short (row : list MorganStanley.str) :
  (length row < 5)%nat ->
  exists e, parse_trade row = MorganStanley.Throw e.
Proof.
  intros Hlen. destruct (parse_trade row) as [t|e] eqn:Hrow; [|eauto].
  apply parse_trade_Return in Hrow. lia.
Qed.

Lemma parse_trade_last_five (row : list MorganStanley.str) :
  parse_trade (last_five row) = parse_trade row.
Proof.
  unfold MorganStanley.parse_trade.
  rewrite (getitem_last_five row 1), (getitem_last_five row 2),
    (getitem_last_five row 3), (getitem_last_five row 4),
    (getitem_last_five row 5) by lia.
  reflexivity.
Qed.

Lemma parse_trades_loop_Return (rows : list (list MorganStanley.str)) :
  forall acc trades : list MorganStanley.Trade,
    parse_trades_loop acc rows = MorganStanley.Return trades ->
    length trades = (length acc + length rows)%nat /\
    Forall (fun row => (5 <= length row)%nat) rows.
Proof.
  induction rows as [|row rows IH]; intros acc trades H.
  - injection H as <-. cbn [length]. split; [lia|constructor].
  - cbn [MorganStanley.parse_trades_loop] in H.
    apply and_then_Return in H as (t & Ht & H).
    apply IH in H as [Hlen Hall]. rewrite length_app in Hlen.
    cbn [length] in Hlen |- *. split; [lia|].
    constructor; [|exact Hall]. eapply parse_trade_Return; eauto.
Qed.

Lemma parse_trades_loop_short (rows : list (list MorganStanley.str)) :
  Exists (fun row => (length row < 5)%nat) rows ->
  forall acc : list MorganStanley.Trade,
    exists e, parse_trades_loop acc rows = MorganStanley.Throw e.
Proof.
  intros Hex acc.
  destruct (parse_trades_loop acc rows) as [trades|e] eqn:Hrows; [|eauto].
  apply parse_trades_loop_Return in Hrows as [_ Hall].
  apply Exists_exists in Hex as (row & Hin & Hlen).
  rewrite Forall_forall in Hall. specialize (Hall row Hin). lia.
Qed.

Lemma parse_trades_loop_last_five (rows : list (list MorganStanley.str)) :
  forall acc : list MorganStanley.Trade,
    parse_trades_loop acc (map last_five rows)
    = parse_trades_loop acc rows.
Proof.
  induction rows as [|row rows IH]; intros acc; [reflexivity|].
  cbn [map MorganStanley.parse_trades_loop].
  rewrite parse_trade_last_five.
  destruct (parse_trade row) as [t|e]; cbn [MorganStanley.and_then];
    [apply IH|reflexivity].
Qed.

End TradesFacts.

Lemma digits_of_remove (s : MorganStanley.str) :
  MorganStanley.remove_char MorganStanley.COMMA
    (MorganStanley.remove_char MorganStanley.DOLLAR s)
  = digits_of s.
Proof.
  unfold MorganStanley.remove_char, digits_of.
  induction s as [|c s IH]; [reflexivity|].
  rewrite !filter_cons.
  destruct (decide (c <> MorganStanley.DOLLAR)) as [Hd|Hd].
  - rewrite filter_cons.
    destruct (decide (c <> MorganStanley.COMMA)) as [Hc|Hc].
    + rewrite decide_True by auto. now rewrite IH.
    + rewrite decide_False by tauto. exact IH.
  - rewrite decide_False by tauto. exact IH.
Qed.

(** X19: [parse_trades] gives one trade for each row, or raises: when it
    returns, every row has five words or more; a row of fewer than five
    words makes it raise, whatever the libraries make of the words; it
    reads the last five words of a row only; and [parse_dollars] depends
    on its text only through what is left without the dollar signs and
    the commas. *)
Theorem X19_parse_trades {E Money Arrow : Type}
    (Money_USD : MorganStanley.str -> MorganStanley.outcome E Money)
    (arrow_get : MorganStanley.str -> MorganStanley.outcome E Arrow)
    (int_float : MorganStanley.str -> MorganStanley.outcome E Z)
    (rows : list (list MorganStanley.str)) :
  let parse_trades :=
    MorganStanley.parse_trades Money_USD arrow_get int_float in
  (forall trades : list MorganStanley.Trade,
     parse_trades rows = MorganStanley.Return trades ->
     length trades = length rows /\
     Forall (fun row => (5 <= length row)%nat) rows) /\
  (Exists (fun row => (length row < 5)%nat) rows ->
   exists e, parse_trades rows = MorganStanley.Throw e) /\
  parse_trades (map last_five rows) = parse_trades rows /\
  (forall s s' : MorganStanley.str,
     digits_of s = digits_of s' ->
     MorganStanley.parse_dollars Money_USD s
     = MorganStanley.parse_dollars Money_USD s').
Proof.
  intros parse_trades. subst parse_trades. unfold MorganStanley.parse_trades.
  split; [|split; [|split]].
  - intros trades H. now apply parse_trades_loop_Return in H.
  - intros Hex. now apply parse_trades_loop_short.
  - apply parse_trades_loop_last_five.
  - intros s s' H. unfold MorganStanley.parse_dollars.
    now rewrite !digits_of_remove, H.
Qed.

(* ===================================================================== *)
(** * parse_morgan_stanley.py: the header line, read by lots.py           *)
(* ===================================================================== *)

Lemma refused_header (h : heap) (line : string) (cells rest : list string)
    (self : Csv.ReaderObj) :
  Csv.parse_line Csv.parse_reset line = Ok self ->
  Csv.state self = Csv.START_RECORD ->
  Csv.fields self = cells ->
  cells <> [] ->
  cells <> header_labels HEADERS ->
  cells <> header_labels LEGACY_HEADERS ->
  create_from_csv_data h (line :: rest) = Raise BadHeadersError.
Proof.
  intros Hl Hs Hf Hne H1 H2. unfold create_from_csv_data.
  rewrite DictReader_next_eq.
  rewrite (first_line_record line cells rest self Hl Hs Hf).
  destruct cells as [|c cs] eqn:Hcells; [contradiction|].
  rewrite <- Hcells in *. cbn [bind].
  rewrite !bool_decide_eq_true_2; [reflexivity| |].
  - intros E. now apply header_row_LEGACY in E.
  - intros E. now apply header_row_HEADERS in E.
Qed.

(** X20: the header line that [print_output] writes, in either format
    and with either separator, is refused by [create_from_csv_data] of
    lots.py with BadHeadersError, whatever lines follow it. *)
Theorem X20_printed_header_refused (h : heap)
    (format : MorganStanley.Format) (separator : MorganStanley.Separator)
    (rest : list string) :
  create_from_csv_data h
    (MorganStanley.encode (MorganStanley.writeheader format separator)
     :: rest)
  = Raise BadHeadersError.
Proof.
  destruct format, separator.
  all: eapply (refused_header h _ _ rest);
    [vm_compute; reflexivity | reflexivity | vm_compute; reflexivity
    | discriminate | discriminate | discriminate].
Qed.

(* ===================================================================== *)
(** * Further properties: rows of ten and eleven cells                     *)
(* ===================================================================== *)






